(** * MP3-Downloader-SaaS: the acquisition / serve / reap job lifecycle

    A shallow embedding of the route handlers of the repository
    (the convert, progress and download routes and [lib/youtube-converter.ts])
    together with the properties the specification states about them.

    Conventions of the embedding:
    - the temp directory is a finite map from path to file contents; only
      regular files are tracked, the directory itself is created at module
      load ([fs.ensureDirSync]);
    - a file's contents are a list of byte values ([Z], each in 0..255);
    - an [async] function whose suspension points do not matter for a
      property is run atomically (explicit state passing);
    - where settlement matters (races, [allSettled], timers) a promise is
      the time at which it settles together with its outcome, or nothing
      when it stays pending for ever;
    - the external world (processes, HTTP services, floating point sine)
      is a parameter of the section that uses it. *)

From Stdlib Require Import ZArith List String Ascii Bool Lia.
From stdpp Require Import base option gmap strings list.

Open Scope string_scope.
Open Scope list_scope.
Open Scope Z_scope.

(** ** JavaScript strings *)

Module Js.

(** [s.slice(n)] for [0 <= n]. *)
Fixpoint slice_from (n : nat) (s : string) : string :=
  match n, s with
  | O, _ => s
  | S _, EmptyString => EmptyString
  | S k, String _ r => slice_from k r
  end.

(** [s.replace(pat, rep)] with a string pattern: only the first
    occurrence of [pat] is replaced.  None of the replacement strings
    used by the routes contains a dollar sign, so the replacement
    patterns of JavaScript play no role. *)
Fixpoint replace (pat rep s : string) : string :=
  if String.prefix pat s
  then rep +:+ slice_from (String.length pat) s
  else match s with
       | EmptyString => EmptyString
       | String c r => String c (replace pat rep r)
       end.

Definition lower_ascii (c : ascii) : ascii :=
  let n := nat_of_ascii c in
  if (Nat.leb 65 n && Nat.leb n 90)%bool then ascii_of_nat (n + 32) else c.

Definition upper_ascii (c : ascii) : ascii :=
  let n := nat_of_ascii c in
  if (Nat.leb 97 n && Nat.leb n 122)%bool then ascii_of_nat (n - 32) else c.

Fixpoint map_string (f : ascii -> ascii) (s : string) : string :=
  match s with
  | EmptyString => EmptyString
  | String c r => String (f c) (map_string f r)
  end.

(** [toLowerCase] / [toUpperCase] on the ASCII range. *)
Definition toLowerCase : string -> string := map_string lower_ascii.
Definition toUpperCase : string -> string := map_string upper_ascii.

(** [parts.join(sep)] *)
Definition join (sep : string) (parts : list string) : string :=
  String.concat sep parts.

(** The double quote character, for the quoted shell arguments. *)
Definition dquote : string := String (ascii_of_nat 34) EmptyString.
Definition quoted (s : string) : string := dquote +:+ s +:+ dquote.

(** Property lookup [obj[key]] on an object literal whose own
    properties are the string-valued table [own]: a key that is not an
    own property is looked up on [Object.prototype], whose members are
    functions or objects (all truthy); any other key is [undefined]. *)
Inductive value :=
| VString (s : string)
| VInherited (key : string).

Definition object_prototype_keys : list string :=
  [ "constructor"; "__proto__"; "hasOwnProperty"; "isPrototypeOf";
    "propertyIsEnumerable"; "toLocaleString"; "toString"; "valueOf";
    "__defineGetter__"; "__defineSetter__"; "__lookupGetter__";
    "__lookupSetter__" ].

Definition get_property (own : gmap string string) (key : string)
  : option value :=
  match own !! key with
  | Some s => Some (VString s)
  | None =>
      if bool_decide (key ∈ object_prototype_keys)
      then Some (VInherited key) else None
  end.

Definition truthy (v : option value) : bool :=
  match v with
  | Some (VString s) => negb (String.eqb s "")
  | Some (VInherited _) => true
  | None => false
  end.

(** [v || d] *)
Definition or_else (v : option value) (d : value) : value :=
  match v with
  | Some x => if truthy v then x else d
  | None => d
  end.

(** [s || d] for a possibly absent string [s]. *)
Definition str_or (s : option string) (d : string) : string :=
  match s with
  | Some x => if String.eqb x "" then d else x
  | None => d
  end.

End Js.

(** ** Paths *)

Module Path.

(** [path.join(dir, name)].  Node also normalises the result; for a
    normalised [dir] and a [name] without separators or dot segments the
    normal form is the plain concatenation used here. *)
Definition join (dir name : string) : string := dir +:+ "/" +:+ name.

(** The state of the backwards scan of Node's [path.extname]. *)
Record scan := {
  startDot : option nat;
  startPart : nat;
  end_ : option nat;
  matchedSlash : bool;
  preDotState : Z;
  stopped : bool
}.

Definition scan0 : scan :=
  {| startDot := None; startPart := 0%nat; end_ := None;
     matchedSlash := true; preDotState := 0; stopped := false |}.

Definition is_slash (c : ascii) : bool := Ascii.eqb c "/"%char.
Definition is_dot (c : ascii) : bool := Ascii.eqb c "."%char.

(** One iteration of the loop [for (i = path.length - 1; i >= 0; --i)]
    on character [c] at index [i]. *)
Definition scan_step (i : nat) (c : ascii) (st : scan) : scan :=
  if stopped st then st
  else if is_slash c then
    if negb (matchedSlash st)
    then {| startDot := startDot st; startPart := S i; end_ := end_ st;
            matchedSlash := matchedSlash st; preDotState := preDotState st;
            stopped := true |}
    else st
  else
    let st1 :=
      match end_ st with
      | None => {| startDot := startDot st; startPart := startPart st;
                   end_ := Some (S i); matchedSlash := false;
                   preDotState := preDotState st; stopped := false |}
      | Some _ => st
      end in
    if is_dot c then
      match startDot st1 with
      | None => {| startDot := Some i; startPart := startPart st1;
                   end_ := end_ st1; matchedSlash := matchedSlash st1;
                   preDotState := preDotState st1; stopped := false |}
      | Some _ =>
          if negb (Z.eqb (preDotState st1) 1)
          then {| startDot := startDot st1; startPart := startPart st1;
                  end_ := end_ st1; matchedSlash := matchedSlash st1;
                  preDotState := 1; stopped := false |}
          else st1
      end
    else
      match startDot st1 with
      | Some _ => {| startDot := startDot st1; startPart := startPart st1;
                     end_ := end_ st1; matchedSlash := matchedSlash st1;
                     preDotState := -1; stopped := false |}
      | None => st1
      end.

(** The scan of the characters [cs], the first of which has index [i],
    from the last character down to the first. *)
Fixpoint scan_from (i : nat) (cs : list ascii) : scan :=
  match cs with
  | [] => scan0
  | c :: r => scan_step i c (scan_from (S i) r)
  end.

Definition substring_between (a b : nat) (s : string) : string :=
  String.substring a (b - a) s.

(** [path.extname(p)] (POSIX flavour). *)
Definition extname (p : string) : string :=
  let st := scan_from 0 (list_ascii_of_string p) in
  match startDot st, end_ st with
  | Some sd, Some e =>
      if Z.eqb (preDotState st) 0
         || (Z.eqb (preDotState st) 1 && Nat.eqb sd (e - 1)
             && Nat.eqb sd (startPart st + 1))
      then ""
      else substring_between sd e p
  | _, _ => ""
  end.

End Path.

(** ** The temp directory *)

Module Fs.

Abbreviation bytes := (list Z).
Abbreviation t := (gmap string (list Z)).

Definition pathExists (p : string) (fs : t) : bool :=
  bool_decide (is_Some (fs !! p)).

Definition readFile (p : string) (fs : t) : option bytes := fs !! p.

(** [(await fs.stat(p)).size] *)
Definition stat_size (p : string) (fs : t) : option Z :=
  (fun b : bytes => Z.of_nat (length b)) <$> fs !! p.

Definition writeFile (p : string) (data : bytes) (fs : t) : t :=
  <[p := data]> fs.

Definition remove (p : string) (fs : t) : t := delete p fs.

(** What a write that failed has left at the path: nothing new (the path
    could not be opened), or a part of the data (the disk filled up). *)
Definition leave (p : string) (residue : option bytes) (fs : t) : t :=
  match residue with
  | Some part => <[p := part]> fs
  | None => fs
  end.

(** The verdict of the file system on a write of [data] at [p]: [None]
    when the write is carried out, else the message of the error and what
    the failed write has left at the path. *)
Definition verdict : Type :=
  string -> bytes -> t -> option (string * option bytes).

(** [fs.move(src, dest)] of fs-extra without options: [overwrite] is
    false, so an existing destination is an error, as is a missing
    source. *)
Definition move (src dest : string) (fs : t) : option t :=
  match fs !! src with
  | None => None
  | Some data =>
      if pathExists dest fs then None
      else Some (<[dest := data]> (delete src fs))
  end.

End Fs.


(** ** Promises

    A promise is observed through the time at which it settles and its
    outcome; [None] is a promise that stays pending for ever. *)

Module Promise.

Inductive outcome (A : Type) :=
| Fulfilled (a : A)
| Rejected (reason : string).
Arguments Fulfilled {A} a.
Arguments Rejected {A} reason.

Definition t (A : Type) : Type := option (Z * outcome A).

Definition is_fulfilled {A} (p : t A) : bool :=
  match p with Some (_, Fulfilled _) => true | _ => false end.


(** [new Promise((_, reject) => setTimeout(() => reject(new Error(msg)), ms))]
    created at time [start]. *)
Definition reject_after {A} (start ms : Z) (msg : string) : t A :=
  Some (start + ms, Rejected msg).

(** The earlier of two promises; when both settle at the same time the
    one listed first wins. *)
Definition earlier {A} (p q : t A) : t A :=
  match p, q with
  | None, _ => q
  | _, None => p
  | Some (tp, _), Some (tq, _) => if tq <? tp then q else p
  end.

(** [Promise.race(ps)]: settles as the first promise of [ps] to settle,
    whether it fulfils or rejects. *)
Definition race {A} (ps : list (t A)) : t A :=
  foldr earlier None ps.

(** [Promise.allSettled(ps)] called at time [start]: fulfils, once every
    promise of [ps] has settled, with their outcomes; never rejects. *)
Fixpoint allSettled {A} (start : Z) (ps : list (t A))
  : t (list (outcome A)) :=
  match ps with
  | [] => Some (start, Fulfilled [])
  | p :: r =>
      match p, allSettled start r with
      | Some (tp, o), Some (tr, Fulfilled os) =>
          Some (Z.max tp tr, Fulfilled (o :: os))
      | _, _ => None
      end
  end.

(** [p.then(f)] *)
Definition then_ {A B} (p : t A) (f : A -> B) : t B :=
  match p with
  | Some (tp, Fulfilled a) => Some (tp, Fulfilled (f a))
  | Some (tp, Rejected e) => Some (tp, Rejected e)
  | None => None
  end.

End Promise.

(** ** The progress route: [GET /progress/{videoId}] *)

Module Progress.
Section Route.

Variable cwd : string.

Definition TEMP_DIR : string := Path.join cwd "temp".

(** The JSON body of the answer.  [sizeInMB] is the size formatted by
    [toFixed(1)], a floating point rendering that is left out. *)
Record fileInfo := {
  exists_ : bool;
  size : option Z;
  format : option string;
  ready : bool;
  status : option string
}.

Definition possibleExtensions : list string :=
  [".mp3"; ".m4a"; ".webm"; ".opus"].

(** The loop [for (const ext of possibleExtensions)] with its [break]. *)
Fixpoint probe (videoId : string) (exts : list string) (fs : Fs.t)
  : option fileInfo :=
  match exts with
  | [] => None
  | ext :: rest =>
      let filePath := Path.join TEMP_DIR (videoId +:+ ext) in
      if Fs.pathExists filePath fs
      then Some {| exists_ := true;
                   size := Fs.stat_size filePath fs;
                   format := Some (Js.replace "." "" ext);
                   ready := true;
                   status := None |}
      else probe videoId rest fs
  end.

Definition GET (videoId : string) (fs : Fs.t) : fileInfo :=
  match probe videoId possibleExtensions fs with
  | Some fileInfo => fileInfo
  | None => {| exists_ := false; size := None; format := None;
               ready := false; status := Some "processing" |}
  end.

End Route.
End Progress.

(** ** The download route: [GET /download/{videoId}] and its reaper *)

Module Download.
Section Route.

Variable cwd : string.

Definition TEMP_DIR : string := Path.join cwd "temp".

Definition possibleExtensions : list string :=
  [".mp3"; ".m4a"; ".webm"; ".opus"; ".aac"; ".wav"].

Fixpoint find_loop (videoId : string) (exts : list string) (fs : Fs.t)
  : option string :=
  match exts with
  | [] => None
  | ext :: rest =>
      let filePath := Path.join TEMP_DIR (videoId +:+ ext) in
      if Fs.pathExists filePath fs then Some filePath
      else find_loop videoId rest fs
  end.

Definition findVideoFile (videoId : string) (fs : Fs.t) : option string :=
  find_loop videoId possibleExtensions fs.

Definition contentTypes : gmap string string :=
  <[".mp3" := "audio/mpeg"]>
  (<[".m4a" := "audio/mp4"]>
  (<[".webm" := "audio/webm"]>
  (<[".opus" := "audio/opus"]>
  (<[".aac" := "audio/aac"]>
  (<[".wav" := "audio/wav"]> ∅))))).

Definition getContentType (extension : string) : Js.value :=
  Js.or_else (Js.get_property contentTypes extension)
             (Js.VString "audio/mpeg").

(** The server between requests: the temp directory, the clock (ms) and
    the pending [setTimeout] callbacks, each the time it is due and the
    path it removes.  The delay is the same for every timer and the
    clock never goes back, so the list is in firing order. *)
Record server := {
  files : Fs.t;
  now : Z;
  timers : list (Z * string)
}.

Inductive response :=
| NotFound
| Served (body : Fs.bytes) (contentType : Js.value)
         (disposition : string) (contentLength : Z)
| ServerError.

Definition cleanupDelay : Z := 5 * 60 * 1000.

(** The handler.  The [format] query parameter is read and not used. *)
Definition GET (videoId : string) (s : server) : response * server :=
  match findVideoFile videoId (files s) with
  | None => (NotFound, s)
  | Some filePath =>
      match Fs.readFile filePath (files s), Fs.stat_size filePath (files s) with
      | Some fileBuffer, Some size =>
          let ext := Js.toLowerCase (Path.extname filePath) in
          let contentType := getContentType ext in
          let fileName := "youtube-" +:+ videoId +:+ ext in
          (Served fileBuffer contentType
                  ("attachment; filename=" +:+ Js.quoted fileName) size,
           {| files := files s; now := now s;
              timers := timers s ++ [(now s + cleanupDelay, filePath)] |})
      | _, _ => (ServerError, s)
      end
  end.

(** The timer callback. *)
Definition reap (filePath : string) (fs : Fs.t) : Fs.t :=
  if Fs.pathExists filePath fs then Fs.remove filePath fs else fs.

Definition fire (t : Z) (fs : Fs.t) (tm : Z * string) : Fs.t :=
  if fst tm <=? t then reap (snd tm) fs else fs.

(** The clock reaches [t]: every timer due by then has run. *)
Definition advance (t : Z) (s : server) : server :=
  {| files := fold_left (fire t) (timers s) (files s);
     now := Z.max (now s) t;
     timers := filter (fun tm => t < fst tm) (timers s) |}.

End Route.
End Download.

(** ** Byte buffers: [ArrayBuffer], [DataView], [Uint8Array]

    Every write of the routes is in range; an out-of-range write, which
    raises a [RangeError] in JavaScript, leaves the list unchanged here. *)

Module DataView.

(** [new ArrayBuffer(n)]: [n] zero bytes. *)
Definition alloc (n : nat) : list Z := replicate n 0.

Definition setUint8 (offset : nat) (v : Z) (b : list Z) : list Z :=
  <[offset := v mod 256]> b.

(** Little-endian writes ([littleEndian = true]). *)
Definition setUint16 (offset : nat) (v : Z) (b : list Z) : list Z :=
  setUint8 (offset + 1) (v / 256) (setUint8 offset v b).

(** [setInt16] stores the two's complement of [v] on 16 bits. *)
Definition setInt16 (offset : nat) (v : Z) (b : list Z) : list Z :=
  setUint16 offset (v mod 65536) b.

Definition setUint32 (offset : nat) (v : Z) (b : list Z) : list Z :=
  setUint8 (offset + 3) (v / 16777216)
    (setUint8 (offset + 2) (v / 65536)
       (setUint8 (offset + 1) (v / 256) (setUint8 offset v b))).

Definition byte_at (offset : nat) (b : list Z) : Z := default 0 (b !! offset).

Definition getUint16 (offset : nat) (b : list Z) : Z :=
  byte_at offset b + 256 * byte_at (offset + 1) b.


Definition getUint32 (offset : nat) (b : list Z) : Z :=
  byte_at offset b + 256 * byte_at (offset + 1) b
  + 65536 * byte_at (offset + 2) b + 16777216 * byte_at (offset + 3) b.

(** [target.set(source, offset)] on [Uint8Array]s. *)
Definition set (source : list Z) (offset : nat) (target : list Z) : list Z :=
  take offset target ++ source ++ drop (offset + length source) target.

End DataView.

(** ** The shell of [exec]

    On a POSIX host [child_process.exec(command)] runs
    [/bin/sh -c command].  One rule of the shell's grammar is modelled,
    the one the command lines of the convert route meet: in a line that
    begins with two or more plain words, the first of which is not a
    reserved word, an opening parenthesis outside quotes is a syntax
    error, and the shell starts no process. *)

Module Sh.

(** The characters of a plain word: letters, digits and [- . / _]. *)
Definition is_plain (c : ascii) : bool :=
  let n := nat_of_ascii c in
  (Nat.leb 48 n && Nat.leb n 57) || (Nat.leb 65 n && Nat.leb n 90)
  || (Nat.leb 97 n && Nat.leb n 122)
  || Nat.eqb n 45 || Nat.eqb n 46 || Nat.eqb n 47 || Nat.eqb n 95.

Definition reserved : list string :=
  [ "if"; "then"; "else"; "elif"; "fi"; "do"; "done"; "case"; "esac";
    "while"; "until"; "for"; "in"; "function"; "select"; "time" ].

Definition is_reserved (w : string) : bool :=
  existsb (String.eqb w) reserved.

(** The scan of the line from its start: [first] is the first word once
    it is complete, [word] the word being read (in reverse), [count] the
    number of complete words.  The scan stops at the first character that
    is neither plain nor a blank. *)
Fixpoint scan (first : option string) (word : list ascii) (count : nat)
  (s : string) : bool :=
  let closed := match word with [] => count | _ => S count end in
  let first' :=
    match first, word with
    | None, _ :: _ => Some (string_of_list_ascii (rev word))
    | _, _ => first
    end in
  match s with
  | EmptyString => false
  | String c r =>
      if is_plain c then scan first (c :: word) count r
      else if Ascii.eqb c " "%char then scan first' [] closed r
      else if Ascii.eqb c "("%char then
        Nat.leb 2 closed
        && match first' with
           | Some w => negb (is_reserved w)
           | None => false
           end
      else false
  end.

(** The line is refused with a syntax error before any process starts. *)
Definition refuses (command : string) : bool := scan None [] 0 command.

End Sh.

(** ** Tasks: an [async] function over the temp directory

    A task started on a directory either stays pending for ever ([None])
    or ends with a directory and an outcome. *)

Module Task.

Definition t (A : Type) : Type :=
  Fs.t -> option (Fs.t * Promise.outcome A).

Definition ret {A} (a : A) : t A :=
  fun fs => Some (fs, Promise.Fulfilled a).

Definition throw {A} (msg : string) : t A :=
  fun fs => Some (fs, Promise.Rejected msg).

Definition bind {A B} (m : t A) (k : A -> t B) : t B :=
  fun fs =>
    match m fs with
    | None => None
    | Some (fs1, Promise.Fulfilled a) => k a fs1
    | Some (fs1, Promise.Rejected e) => Some (fs1, Promise.Rejected e)
    end.

(** [try { m } catch (error) { h }] *)
Definition try_catch {A} (m : t A) (h : string -> t A) : t A :=
  fun fs =>
    match m fs with
    | None => None
    | Some (fs1, Promise.Fulfilled a) => Some (fs1, Promise.Fulfilled a)
    | Some (fs1, Promise.Rejected e) => h e fs1
    end.

(** [await p] for a promise that does not touch the directory. *)
Definition await {A} (p : Promise.t A) : t A :=
  fun fs =>
    match p with
    | None => None
    | Some (_, o) => Some (fs, o)
    end.

Definition pathExists (p : string) : t bool :=
  fun fs => Some (fs, Promise.Fulfilled (Fs.pathExists p fs)).

(** [fs.writeFile(p, data)].  The write can fail (a missing directory,
    a name that is too long, a full disk): [writeError] is the verdict of
    the file system; a write that fails rejects with the error and leaves
    at the path what the verdict says, no other path is touched. *)
Definition writeFile (writeError : Fs.verdict)
  (p : string) (data : Fs.bytes) : t unit :=
  fun fs =>
    match writeError p data fs with
    | None => Some (Fs.writeFile p data fs, Promise.Fulfilled tt)
    | Some (e, residue) => Some (Fs.leave p residue fs, Promise.Rejected e)
    end.

Definition remove (p : string) : t unit :=
  fun fs => Some (Fs.remove p fs, Promise.Fulfilled tt).

Definition move (src dest : string) : t unit :=
  fun fs =>
    match Fs.move src dest fs with
    | Some fs1 => Some (fs1, Promise.Fulfilled tt)
    | None =>
        Some (fs, Promise.Rejected
                    (if Fs.pathExists src fs then "dest already exists."
                     else "ENOENT: no such file or directory"))
    end.

End Task.

Declare Scope task_scope.
Delimit Scope task_scope with task.
Notation "'await!' x := m 'in' k" := (Task.bind m (fun x => k))
  (at level 10, x name, m at level 100, k at level 200) : task_scope.
Notation "'run!' m 'in' k" := (Task.bind m (fun _ => k))
  (at level 10, m at level 100, k at level 200) : task_scope.

(** ** The convert route *)

Module Convert.

Import Promise.

Record environment := {
  type : string;
  hasYtDlp : bool;
  hasFFmpeg : bool
}.

(** *** Capability probes *)

Section Probe.

(** [execAsync(command)] called at a given time, as a promise: the
    time at which the process ends and its standard output, a
    rejection when the command cannot be run or exits with an error,
    or nothing when it never ends. *)
Variable execAsync : Z -> string -> Promise.t string.

(** The [then] callbacks set the flags of the shared [environment]
    object: a flag is true after [allSettled] exactly when its probe
    fulfilled. *)
Definition quickEnvironmentCheck (t0 : Z) : Promise.t environment :=
  let ytdlp := execAsync t0 "yt-dlp --version" in
  let ffmpeg := execAsync t0 "ffmpeg -version" in
  match allSettled t0 [ then_ ytdlp (fun _ => true);
                        then_ ffmpeg (fun _ => true) ] with
  | None => None
  | Some (t, _) =>
      let hasYtDlp := is_fulfilled ytdlp in
      let hasFFmpeg := is_fulfilled ffmpeg in
      Some (t, Fulfilled
                 {| type := if hasYtDlp && hasFFmpeg then "full"
                            else if hasYtDlp then "ytdlp-only"
                            else "online";
                    hasYtDlp := hasYtDlp;
                    hasFFmpeg := hasFFmpeg |})
  end.

End Probe.

(** *** Video metadata and its cache *)

Record videoInfo := {
  title : string;
  thumbnail : string;
  duration : Z
}.

(** What [JSON.parse(stdout)] yields of the fields that are read; an
    absent field is [None]. *)
Record ytInfo := {
  info_title : option string;
  info_thumbnail : option string;
  info_duration : option Z
}.

(** The oEmbed answer: [response.ok] and [response.json()], of which
    [data.title] is read.  Reading the body is a promise of its own,
    started at the time it is called: the headers of an answer can be
    there long before its body, or without it. *)
Record oembedResponse := {
  oembed_ok : bool;
  oembed_json : Z -> Promise.t (option string)
}.

(** A consultation of a metadata source. *)
Inductive lookup :=
| YtDlpDump (url : string)
| OEmbed (oembedUrl : string).

(** The module state of the route: the [videoInfoCache] map, the clock
    (ms), the pending eviction timers (due time and key) and the
    consultations made so far. *)
Record state := {
  cache : gmap string videoInfo;
  now : Z;
  timers : list (Z * string);
  lookups : list lookup
}.

Definition initial : state :=
  {| cache := ∅; now := 0; timers := []; lookups := [] |}.

Definition cacheTTL : Z := 60 * 60 * 1000.

Definition evict (t : Z) (c : gmap string videoInfo) (tm : Z * string)
  : gmap string videoInfo :=
  if fst tm <=? t then delete (snd tm) c else c.

(** The clock reaches [t]: every eviction timer due by then has run. *)
Definition advance (t : Z) (s : state) : state :=
  {| cache := fold_left (evict t) (timers s) (cache s);
     now := Z.max (now s) t;
     timers := filter (fun tm => t < fst tm) (timers s);
     lookups := lookups s |}.

Section Metadata.

(** The external world of the metadata fetcher: a process or a request
    started at a given time settles at a later one. *)
Variable execAsync : Z -> string -> Promise.t string.
Variable JSON_parse : string -> option ytInfo.
Variable fetch : Z -> string -> Promise.t oembedResponse.

Definition defaultThumbnail (videoId : string) : string :=
  "https://img.youtube.com/vi/" +:+ videoId +:+ "/maxresdefault.jpg".

Definition dumpCommand (url : string) : string :=
  "yt-dlp --dump-json --no-warnings --no-playlist " +:+ Js.quoted url.

Definition oembedUrl (videoId : string) : string :=
  "https://www.youtube.com/oembed?url=https://www.youtube.com/watch?v="
  +:+ videoId +:+ "&format=json".

(** [info.duration || 180] *)
Definition duration_or (d : option Z) (dflt : Z) : Z :=
  match d with
  | Some x => if x =? 0 then dflt else x
  | None => dflt
  end.

(** Fast method 1, with its own [try]/[catch]: the time at which it is
    over and the info it found. *)
Definition ytdlpInfo (url videoId : string) (t0 : Z)
  : option (Z * option videoInfo) :=
  match race [ execAsync t0 (dumpCommand url);
               reject_after t0 5000 "Timeout" ] with
  | None => None
  | Some (t1, Fulfilled stdout) =>
      match JSON_parse stdout with
      | Some info =>
          Some (t1, Some
            {| title := Js.str_or (info_title info) "Unknown Title";
               thumbnail := Js.str_or (info_thumbnail info)
                                      (defaultThumbnail videoId);
               duration := duration_or (info_duration info) 180 |})
      | None => Some (t1, None)
      end
  | Some (t1, Rejected _) => Some (t1, None)
  end.

(** Fast method 2; a rejection is caught by the outer [catch].  The
    race with the three-second timer is over when the answer, that is its
    headers, is there; the body is awaited afterwards, outside the race. *)
Definition oembedInfo (videoId : string) (t1 : Z)
  : option (Z * outcome (option videoInfo)) :=
  match race [ fetch t1 (oembedUrl videoId);
               reject_after t1 3000 "Timeout" ] with
  | None => None
  | Some (t2, Rejected e) => Some (t2, Rejected e)
  | Some (t2, Fulfilled response) =>
      if oembed_ok response then
        match oembed_json response t2 with
        | None => None
        | Some (t3, Fulfilled data_title) =>
            Some (t3, Fulfilled (Some
              {| title := Js.str_or data_title "Unknown Title";
                 thumbnail := defaultThumbnail videoId;
                 duration := 180 |}))
        | Some (t3, Rejected e) => Some (t3, Rejected e)
        end
      else Some (t2, Fulfilled None)
  end.

(** What a call that has missed the cache does between its first and its
    last [await], started at time [t0]: the time at which the
    consultations are over, the sources consulted and the info found;
    nothing when an [await] never ends.  It reads and writes no state. *)
Definition lookupSources (url videoId : string) (env : environment) (t0 : Z)
  : option (Z * list lookup * option videoInfo) :=
  match (if hasYtDlp env then ytdlpInfo url videoId t0
         else Some (t0, None)) with
  | None => None
  | Some (t1, Some v) => Some (t1, [YtDlpDump url], Some v)
  | Some (t1, None) =>
      let first := if hasYtDlp env then [YtDlpDump url] else [] in
      match oembedInfo videoId t1 with
      | None => None
      | Some (t2, Fulfilled r) =>
          Some (t2, first ++ [OEmbed (oembedUrl videoId)], r)
      | Some (t2, Rejected _) =>
          Some (t2, first ++ [OEmbed (oembedUrl videoId)], None)
      end
  end.

(** The function resumes at time [t] with the consultations [ls] made:
    timers due in the meantime have run. *)
Definition resume (t : Z) (ls : list lookup) (s : state) : state :=
  let s1 := advance t s in
  {| cache := cache s1; now := now s1; timers := timers s1;
     lookups := lookups s1 ++ ls |}.

(** [videoInfoCache.set(videoId, videoInfo)] followed by the
    [setTimeout] of its eviction. *)
Definition remember (videoId : string) (v : videoInfo) (s : state) : state :=
  {| cache := <[videoId := v]> (cache s); now := now s;
     timers := timers s ++ [(now s + cacheTTL, videoId)];
     lookups := lookups s |}.

(** [if (videoInfo) { ... }] *)
Definition store (videoId : string) (r : option videoInfo) (s : state)
  : state :=
  match r with
  | Some v => remember videoId v s
  | None => s
  end.

(** A call during which no other call resumes: the state it finds when
    its consultations are over is the state it left, moved on to that
    time.  Calls that overlap are those of [arrive] below. *)
Definition getCachedVideoInfo (url videoId : string) (env : environment)
  (s : state) : option (option videoInfo * state) :=
  match cache s !! videoId with
  | Some v => Some (Some v, s)
  | None =>
      match lookupSources url videoId env (now s) with
      | None => None
      | Some (t, ls, r) => Some (r, store videoId r (resume t ls s))
      end
  end.

(** A request arriving at time [t]. *)
Definition getInfoAt (t : Z) (url videoId : string) (env : environment)
  (s : state) : option (option videoInfo * state) :=
  getCachedVideoInfo url videoId env (advance t s).

(** **** Calls that overlap

    The function awaits between [videoInfoCache.has] and
    [videoInfoCache.set], so other calls can run in between.  A call that
    has missed the cache is in flight until its consultations are over;
    the calls in flight are kept in the order in which they resume. *)

Record flight := {
  due : Z;
  flight_id : string;
  flight_lookups : list lookup;
  flight_result : option videoInfo
}.

Record server := {
  st : state;
  flights : list flight
}.

(** The call resumes: the timers due by then have run, and the result, if
    any, is stored. *)
Definition land (f : flight) (s : state) : state :=
  store (flight_id f) (flight_result f)
        (resume (due f) (flight_lookups f) s).

Fixpoint insert_flight (f : flight) (fl : list flight) : list flight :=
  match fl with
  | [] => [f]
  | g :: rest =>
      if due f <? due g then f :: g :: rest
      else g :: insert_flight f rest
  end.

(** The clock reaches [t]: the calls due by then have resumed, in order,
    and the timers due by then have run. *)
Fixpoint settle (t : Z) (fl : list flight) (s : state)
  : state * list flight :=
  match fl with
  | [] => (advance t s, [])
  | f :: rest =>
      if due f <=? t then settle t rest (land f s)
      else (advance t s, f :: rest)
  end.

(** What the caller gets: the cached info at once, the result of its
    flight when that is over, or nothing ever. *)
Inductive answer :=
| Now (v : videoInfo)
| Later (f : flight)
| Never.

(** A call arriving at time [t], whatever else is in flight. *)
Definition arrive (t : Z) (url videoId : string) (env : environment)
  (srv : server) : answer * server :=
  let '(s1, rest) := settle t (flights srv) (st srv) in
  match cache s1 !! videoId with
  | Some v => (Now v, {| st := s1; flights := rest |})
  | None =>
      match lookupSources url videoId env (now s1) with
      | None => (Never, {| st := s1; flights := rest |})
      | Some (t', ls, r) =>
          let f := {| due := t'; flight_id := videoId;
                      flight_lookups := ls; flight_result := r |} in
          (Later f, {| st := s1; flights := insert_flight f rest |})
      end
  end.

End Metadata.

(** *** The acquisition runner *)

Record downloadResult := {
  filePath : string;
  format : string;
  quality : string
}.

(** What [cobaltDownload] reads of the answers of the online service. *)
Record cobaltResult := {
  cobalt_status : string;
  cobalt_url : option string
}.

(** [response.ok] and [response.json()]: reading the body is a promise
    of its own, started at the time it is called. *)
Record apiResponse := {
  api_ok : bool;
  api_json : Z -> Promise.t cobaltResult
}.

Record audioResponse := {
  audio_ok : bool;
  audio_arrayBuffer : Z -> Promise.t Fs.bytes
}.

(** [await p] inside an [async] function that returns a promise: the
    continuation starts at the time [p] settles. *)
Definition andThen {A B} (p : Promise.t A) (k : Z -> A -> Promise.t B)
  : Promise.t B :=
  match p with
  | None => None
  | Some (t, Fulfilled a) => k t a
  | Some (t, Rejected e) => Some (t, Rejected e)
  end.

Section Runner.

Variable cwd : string.

(** The external world of the runner: [execAsync(command)] acts on the
    temp directory; the two requests of [cobaltDownload]; the
    floating point expression
    [Math.floor(Math.sin((2 * Math.PI * 440 * i) / sampleRate) * 0.3 * 32767)]
    as a function of [sampleRate] and [i]; and the verdict of the file
    system on a write. *)
Variable execAsync : string -> Task.t string.
Variable fetchCobalt : string -> Promise.t apiResponse.
Variable fetchAudio : Z -> string -> Promise.t audioResponse.
Variable floorSample : Z -> Z -> Z.
Variable writeError : Fs.verdict.

Definition TEMP_DIR : string := Path.join cwd "temp".

Local Open Scope task_scope.

(** **** Placeholder audio *)

Fixpoint writeString (offset : nat) (s : string) (view : list Z) : list Z :=
  match s with
  | EmptyString => view
  | String c r =>
      writeString (S offset) r
        (DataView.setUint8 offset (Z.of_nat (nat_of_ascii c)) view)
  end.

Definition createWavHeader (samples sampleRate : Z) : list Z :=
  let view := DataView.alloc 44 in
  let view := writeString 0 "RIFF" view in
  let view := DataView.setUint32 4 (36 + samples * 2) view in
  let view := writeString 8 "WAVE" view in
  let view := writeString 12 "fmt " view in
  let view := DataView.setUint32 16 16 view in
  let view := DataView.setUint16 20 1 view in
  let view := DataView.setUint16 22 1 view in
  let view := DataView.setUint32 24 sampleRate view in
  let view := DataView.setUint32 28 (sampleRate * 2) view in
  let view := DataView.setUint16 32 2 view in
  let view := DataView.setUint16 34 16 view in
  let view := writeString 36 "data" view in
  let view := DataView.setUint32 40 (samples * 2) view in
  view.

Definition demoSampleRate : Z := 22050.
Definition demoDuration : Z := 10.
Definition demoSamples : Z := demoSampleRate * demoDuration.

Definition intSample (i : Z) : Z :=
  Z.max (-32768) (Z.min 32767 (floorSample demoSampleRate i)).

(** [n] iterations of the loop [for (let i = ...; i < samples; i++)]
    from index [i] on. *)
Fixpoint fillSamples (n i : nat) (view : list Z) : list Z :=
  match n with
  | O => view
  | S k =>
      fillSamples k (S i)
        (DataView.setInt16 (i * 2)%nat (intSample (Z.of_nat i)) view)
  end.

Definition demoPayload : list Z :=
  fillSamples (Z.to_nat demoSamples) 0
              (DataView.alloc (Z.to_nat (demoSamples * 2))).

Definition demoWav : list Z :=
  let buffer := demoPayload in
  let wavHeader := createWavHeader demoSamples demoSampleRate in
  let wavView := DataView.alloc (length wavHeader + length buffer) in
  let wavView := DataView.set wavHeader 0 wavView in
  DataView.set buffer (length wavHeader) wavView.

Definition createFastDemo (outputPath : string) : Task.t unit :=
  Task.writeFile writeError outputPath demoWav.

(** **** Online services *)

Definition cobaltDownload (url : string) : Promise.t Fs.bytes :=
  andThen (fetchCobalt url) (fun t1 response =>
    if negb (api_ok response) then Some (t1, Rejected "Cobalt failed")
    else
      andThen (api_json response t1) (fun t2 result =>
        if negb (String.eqb (cobalt_status result) "success")
           || negb (Js.truthy (Js.VString <$> cobalt_url result))
        then Some (t2, Rejected "Cobalt no URL")
        else
          andThen (fetchAudio t2 (default "" (cobalt_url result)))
            (fun t3 audio =>
               if negb (audio_ok audio)
               then Some (t3, Rejected "Cobalt download failed")
               else audio_arrayBuffer audio t3))).

Definition services (url : string) : list (Promise.t Fs.bytes) :=
  [ cobaltDownload url ].

Definition onlineDownload (url videoId : string) : Task.t downloadResult :=
  let outputPath := Path.join TEMP_DIR (videoId +:+ ".mp3") in
  Task.try_catch
    (await! result := Task.await (race (services url)) in
     run! Task.writeFile writeError outputPath result in
     Task.ret {| filePath := outputPath; format := "mp3";
                 quality := "Online Service" |})
    (fun _ =>
     run! createFastDemo outputPath in
     Task.ret {| filePath := outputPath; format := "mp3";
                 quality := "Demo" |}).

(** **** Locating the output of the external tool *)

Definition tempExtensions : list string := [".m4a"; ".webm"; ".mp3"; ".opus"].

Fixpoint findActualLoop (videoId : string) (exts : list string) (fs : Fs.t)
  : option (Fs.t * outcome (option (string * string))) :=
  match exts with
  | [] => Task.ret None fs
  | ext :: rest =>
      let testPath := Path.join TEMP_DIR (videoId +:+ "_temp" +:+ ext) in
      if Fs.pathExists testPath fs then
        let finalPath := Path.join TEMP_DIR (videoId +:+ ext) in
        (run! Task.move testPath finalPath in
         Task.ret (Some (finalPath, ext))) fs
      else findActualLoop videoId rest fs
  end.

(** The result is the pair of [path] and [extension], or [null]. *)
Definition findActualDownloadedFile (videoId : string)
  : Task.t (option (string * string)) :=
  findActualLoop videoId tempExtensions.

Definition possibleFiles (outputPath : string) : list string :=
  [ outputPath;
    Js.replace ".mp3" ".m4a" outputPath;
    Js.replace ".mp3" ".webm" outputPath;
    Js.replace ".mp3" ".opus" outputPath ].

Fixpoint renameLoop (outputPath : string) (files : list string) (fs : Fs.t)
  : option (Fs.t * outcome unit) :=
  match files with
  | [] => Task.throw "Downloaded file not found" fs
  | file :: rest =>
      if Fs.pathExists file fs then
        if bool_decide (file ≠ outputPath)
        then Task.move file outputPath fs
        else Task.ret tt fs
      else renameLoop outputPath rest fs
  end.

Definition findAndRenameOutputFile (outputPath : string) : Task.t unit :=
  renameLoop outputPath (possibleFiles outputPath).

(** **** The three strategies *)

Definition superFastCommand (outputPath url : string) : string :=
  Js.join " "
    [ "yt-dlp"; "--extract-audio"; "--audio-format"; "mp3";
      "--audio-quality"; "5"; "--no-warnings"; "--no-playlist";
      "--concurrent-fragments"; "4"; "--throttled-rate"; "100K";
      "--no-check-certificates"; "--user-agent";
      "Mozilla/5.0 (Windows NT 10.0; Win64; x64) AppleWebKit/537.36";
      "-o"; Js.quoted (Js.replace ".mp3" ".%(ext)s" outputPath);
      Js.quoted url ].

Definition superFastDownloadWithFFmpeg (url videoId : string)
  : Task.t downloadResult :=
  let outputPath := Path.join TEMP_DIR (videoId +:+ ".mp3") in
  await! stdout := execAsync (superFastCommand outputPath url) in
  run! findAndRenameOutputFile outputPath in
  Task.ret {| filePath := outputPath; format := "mp3";
              quality := "192kbps MP3 (Fast)" |}.

Definition fastOriginalCommand (videoId url : string) : string :=
  Js.join " "
    [ "yt-dlp"; "-f"; "worstaudio[ext=m4a]/worstaudio"; "--no-warnings";
      "--no-playlist"; "--concurrent-fragments"; "4"; "--throttled-rate";
      "100K"; "--no-check-certificates"; "-o";
      Js.quoted (TEMP_DIR +:+ "/" +:+ videoId +:+ "_temp.%(ext)s");
      Js.quoted url ].

Definition fastDownloadOriginal (url videoId : string)
  : Task.t downloadResult :=
  await! stdout := execAsync (fastOriginalCommand videoId url) in
  await! downloadedFile := findActualDownloadedFile videoId in
  match downloadedFile with
  | None => Task.throw "Downloaded file not found"
  | Some (path, extension) =>
      Task.ret {| filePath := path;
                  format := Js.replace "." "" extension;
                  quality := "Fast " +:+ Js.toUpperCase extension |}
  end.

Definition fastDownloadAudio (url videoId : string) (env : environment)
  : Task.t downloadResult :=
  if hasYtDlp env && hasFFmpeg env then
    superFastDownloadWithFFmpeg url videoId
  else if hasYtDlp env then
    fastDownloadOriginal url videoId
  else
    onlineDownload url videoId.

End Runner.

(** *** The handler [POST /convert] *)

(** The JSON body of the request as far as [ConvertSchema] reads it; a
    field that is missing or is not a string is [None]. *)
Record convertBody := {
  body_videoId : option string;
  body_url : option string
}.

(** The immediate answer of a successful request. *)
Record quickResponse := {
  resp_id : string;
  resp_title : string;
  resp_thumbnail : string;
  resp_duration : Z;
  resp_fileSize : string;
  resp_downloadUrl : string;
  resp_quality : string;
  resp_format : string;
  resp_isDemo : bool;
  resp_status : string
}.

Inductive postAnswer :=
| PostOk (body : quickResponse)
| PostError (status : Z) (error : string).

(** [`Error: ${error.message || "Error desconocido"}`] *)
Definition getErrorMessage (message : string) : string :=
  "Error: " +:+ Js.str_or (Some message) "Error desconocido".

Section Post.

Variable cwd : string.

(** The external world of the handler: the processes of the probes and of
    the metadata lookup (started at a time, settling at a time), the
    parsers, the oEmbed request, the validity of a URL as zod's [url()]
    decides it, the message of the [ZodError] for a body, and the world of
    the runner. *)
Variable execAsync : Z -> string -> Promise.t string.
Variable JSON_parse : string -> option ytInfo.
Variable fetch : Z -> string -> Promise.t oembedResponse.
Variable isUrl : string -> bool.
Variable zodMessage : convertBody -> string.
Variable execTask : string -> Task.t string.
Variable fetchCobalt : string -> Promise.t apiResponse.
Variable fetchAudio : Z -> string -> Promise.t audioResponse.
Variable floorSample : Z -> Z -> Z.
Variable writeError : Fs.verdict.

(** [ConvertSchema.parse(body)]: [videoId] a string of at least one
    character, [url] a string that is a URL. *)
Definition ConvertSchema_parse (body : convertBody)
  : outcome (string * string) :=
  match body_videoId body, body_url body with
  | Some videoId, Some url =>
      if Nat.leb 1 (String.length videoId) && isUrl url
      then Fulfilled (videoId, url)
      else Rejected (zodMessage body)
  | _, _ => Rejected (zodMessage body)
  end.

(** The handler on the outcome of [request.json()].  Its result is the
    answer, the module state, and the download it has started and does not
    await, if any; [None] when the handler never answers. *)
Definition POST (request_json : outcome convertBody) (s : state)
  : option (postAnswer * state * option (Task.t downloadResult)) :=
  match request_json with
  | Rejected e => Some (PostError 500 (getErrorMessage e), s, None)
  | Fulfilled body =>
      match ConvertSchema_parse body with
      | Rejected e => Some (PostError 500 (getErrorMessage e), s, None)
      | Fulfilled (videoId, url) =>
          match quickEnvironmentCheck execAsync (now s) with
          | None => None
          | Some (t, Rejected e) =>
              Some (PostError 500 (getErrorMessage e), advance t s, None)
          | Some (t, Fulfilled environment) =>
              match getInfoAt execAsync JSON_parse fetch t url videoId
                      environment s with
              | None => None
              | Some (None, s1) =>
                  Some (PostError 400
                          "No se pudo obtener información del video.",
                        s1, None)
              | Some (Some videoInfo, s1) =>
                  let downloadPromise :=
                    fastDownloadAudio cwd execTask fetchCobalt fetchAudio
                      floorSample writeError url videoId environment in
                  Some (PostOk
                          {| resp_id := videoId;
                             resp_title := title videoInfo;
                             resp_thumbnail := thumbnail videoInfo;
                             resp_duration := duration videoInfo;
                             resp_fileSize := "Calculando...";
                             resp_downloadUrl := "/api/download/" +:+ videoId;
                             resp_quality :=
                               if hasFFmpeg environment then "320kbps MP3"
                               else "Original";
                             resp_format :=
                               if hasFFmpeg environment then "mp3" else "m4a";
                             resp_isDemo := false;
                             resp_status := "processing" |},
                        s1, Some downloadPromise)
              end
          end
      end
  end.

End Post.

End Convert.

(** ** [lib/youtube-converter.ts] *)

Module YouTubeConverter.

Import Promise.

Inductive quality := Q128 | Q192 | Q320.
Inductive format := Mp3 | M4a | Wav.

Record ConversionOptions := {
  opt_quality : quality;
  opt_format : format
}.

Definition defaultOptions : ConversionOptions :=
  {| opt_quality := Q320; opt_format := Mp3 |}.

Definition format_name (f : format) : string :=
  match f with Mp3 => "mp3" | M4a => "m4a" | Wav => "wav" end.

(** [Number.parseInt(options.quality)] *)
Definition parseQuality (q : quality) : Z :=
  match q with Q128 => 128 | Q192 => 192 | Q320 => 320 end.

Definition is_mp3 (f : format) : bool :=
  match f with Mp3 => true | _ => false end.

Definition is_320 (q : quality) : bool :=
  match q with Q320 => true | _ => false end.

Record downloadOptions := {
  output : string;
  dl_format : string;
  extractAudio : bool;
  audioFormat : option string;
  audioQuality : option Z
}.

Section Converter.

Variable tempDir : string.

(** The external tools: the [youtube-dl-exec] call and the run of the
    fluent-ffmpeg command from [save] to its [end] or [error] event,
    both acting on the temp directory. *)
Variable youtubeDl : string -> downloadOptions -> Task.t unit.
Variable ffmpegSave : string -> string -> ConversionOptions -> Task.t unit.

Local Open Scope task_scope.

Fixpoint cleanup (paths : list string) : Task.t unit :=
  match paths with
  | [] => Task.ret tt
  | filePath :: rest =>
      await! present := Task.pathExists filePath in
      run! (if present then Task.remove filePath else Task.ret tt) in
      cleanup rest
  end.

Definition downloadAudio (url outputPath : string)
  (options : ConversionOptions) : Task.t unit :=
  let mp3 := is_mp3 (opt_format options) in
  youtubeDl url
    {| output := outputPath +:+ ".%(ext)s";
       dl_format := "bestaudio[ext=m4a]/bestaudio[ext=mp3]/bestaudio";
       extractAudio := mp3;
       audioFormat := if mp3 then Some "mp3" else None;
       audioQuality :=
         if mp3 then
           Some (if is_320 (opt_quality options) then 0
                 else parseQuality (opt_quality options))
         else None |}.

Definition inputExtensions : list string := [".m4a"; ".webm"; ".mp4"; ".mp3"].

Fixpoint findInput (inputPath : string) (exts : list string) (fs : Fs.t)
  : string :=
  match exts with
  | [] => ""
  | ext :: rest =>
      let testPath := inputPath +:+ ext in
      if Fs.pathExists testPath fs then testPath
      else findInput inputPath rest fs
  end.

Definition convertWithFFmpeg (inputPath outputPath : string)
  (options : ConversionOptions) : Task.t unit :=
  fun fs =>
    let actualInputPath := findInput inputPath inputExtensions fs in
    if String.eqb actualInputPath "" then
      Task.throw "Input file not found" fs
    else
      (run! ffmpegSave actualInputPath outputPath options in
       cleanup [actualInputPath]) fs.

Definition convertToAudio (url videoId : string)
  (options : ConversionOptions) : Task.t string :=
  let tempVideoPath := Path.join tempDir (videoId +:+ "_temp") in
  let outputPath :=
    Path.join tempDir (videoId +:+ "." +:+ format_name (opt_format options)) in
  Task.try_catch
    (run! downloadAudio url tempVideoPath options in
     run! (if negb (is_mp3 (opt_format options))
              || negb (is_320 (opt_quality options))
           then convertWithFFmpeg tempVideoPath outputPath options
           else Task.ret tt) in
     Task.ret outputPath)
    (fun error =>
     run! cleanup [tempVideoPath; outputPath] in
     Task.throw error).

End Converter.

End YouTubeConverter.

(** ** The sample route: the tone chosen for a video

    [src/app/api/sample-mp3/route.ts], [getFrequencyFromVideoId].  The
    identifier is taken as the sequence of its UTF-16 code units, which
    is what [charCodeAt] reads.  The bitwise operators of JavaScript work
    on the 32-bit two's complement of their operands; the other
    arithmetic is exact on the integers that occur here. *)

Module SampleMp3.

(** [ToInt32] on an integer. *)
Definition toInt32 (x : Z) : Z :=
  (x + 2147483648) mod 4294967296 - 2147483648.

(** [x << n] *)
Definition shl (x n : Z) : Z := toInt32 (Z.shiftl (toInt32 x) n).

(** [x & y] *)
Definition band (x y : Z) : Z := Z.land (toInt32 x) (toInt32 y).

(** The loop over the code units [videoId.charCodeAt(i)], from the
    current [hash]. *)
Fixpoint hashLoop (codes : list Z) (hash : Z) : Z :=
  match codes with
  | [] => hash
  | code :: rest =>
      hashLoop rest (band (shl hash 5 - hash + code) 4294967295)
  end.

Definition frequencies : list Z := [440; 523; 659; 784; 880; 1047].

(** [frequencies[Math.abs(hash) % frequencies.length]]; [None] stands for
    [undefined]. *)
Definition frequencyAt (hash : Z) : option Z :=
  frequencies !! Z.to_nat (Z.rem (Z.abs hash) (Z.of_nat (length frequencies))).

Definition getFrequencyFromVideoId (videoId : list Z) : option Z :=
  frequencyAt (hashLoop videoId 0).

End SampleMp3.

(** ** The system check: [GET /api/system-check]

    [src/app/api/system-check/route.ts].  The probes run one after the
    other, each awaited inside its own [try]. *)

Module SystemCheck.

Import Promise.

Record checks := {
  ytDlp : bool;
  youtubeDl : bool;
  ffmpeg : bool;
  python : bool;
  node : bool
}.

Record answer := {
  status : string;
  answer_checks : checks;
  versions : list (string * string);
  recommendations : list string
}.

Definition getRecommendations (c : checks) : list string :=
  let recommendations := [] in
  let recommendations :=
    if negb (ytDlp c) && negb (youtubeDl c)
    then recommendations ++ ["Install yt-dlp: pip install yt-dlp"]
    else recommendations in
  let recommendations :=
    if negb (ffmpeg c)
    then recommendations ++ ["Install FFmpeg: https://ffmpeg.org/download.html"]
    else recommendations in
  let recommendations :=
    if negb (python c)
    then recommendations ++ ["Install Python: https://python.org/downloads/"]
    else recommendations in
  if Nat.eqb (length recommendations) 0
  then recommendations ++ ["All dependencies are installed correctly!"]
  else recommendations.

(** [stdout.split("\n")[0]] *)
Fixpoint firstLine (s : string) : string :=
  match s with
  | EmptyString => EmptyString
  | String c r =>
      if Ascii.eqb c (ascii_of_nat 10) then EmptyString
      else String c (firstLine r)
  end.

Section Route.

(** [execAsync(command)] called at a given time, as in the convert route,
    and [String.prototype.trim]. *)
Variable execAsync : Z -> string -> Promise.t string.
Variable trim : string -> string.

(** [try { const { stdout } = await execAsync(command); ... } catch { }]
    started at time [t], followed by [k]: the standard output when the
    command succeeds, nothing when it fails; the handler waits until the
    process ends. *)
Definition attempt {A} (t : Z) (command : string)
  (k : Z -> option string -> Promise.t A) : Promise.t A :=
  match execAsync t command with
  | None => None
  | Some (t1, Fulfilled stdout) => k t1 (Some stdout)
  | Some (t1, Rejected _) => k t1 None
  end.

(** The assignment [versions[key] = value] made inside a [try] that
    succeeded. *)
Definition entry (key : string) (value : option string)
  : list (string * string) :=
  match value with
  | Some v => [(key, v)]
  | None => []
  end.

Definition isSome {A} (o : option A) : bool :=
  match o with Some _ => true | None => false end.

Definition GET (t0 : Z) : Promise.t answer :=
  attempt t0 "yt-dlp --version" (fun t1 ytDlp =>
  attempt t1 "youtube-dl --version" (fun t2 youtubeDl =>
  attempt t2 "ffmpeg -version" (fun t3 ffmpeg =>
  attempt t3 "python3 --version" (fun t4 python3 =>
  (match python3 with
   | Some _ => fun k => k t4 python3
   | None => attempt t4 "python --version"
   end) (fun t5 python =>
  attempt t5 "node --version" (fun t6 node =>
  let checks :=
    {| ytDlp := isSome ytDlp; youtubeDl := isSome youtubeDl;
       ffmpeg := isSome ffmpeg; python := isSome python;
       node := isSome node |} in
  Some (t6, Fulfilled
              {| status := "success";
                 answer_checks := checks;
                 versions :=
                   entry "ytDlp" (trim <$> ytDlp)
                   ++ entry "youtubeDl" (trim <$> youtubeDl)
                   ++ entry "ffmpeg" (firstLine <$> ffmpeg)
                   ++ entry "python" (trim <$> python)
                   ++ entry "node" (trim <$> node);
                 recommendations := getRecommendations checks |}))))))).

End Route.

End SystemCheck.

(** ** The download card: the name of the saved file

    [src/components/download-card.tsx], [handleDownload].  The title is
    taken as its sequence of UTF-16 code units, on which the two regular
    expressions work. *)

Module DownloadCard.

(** [[a-z0-9]] under the flag [i] (without the flag [u] no character
    outside ASCII is folded onto an ASCII letter). *)
Definition is_alnum (c : Z) : bool :=
  ((48 <=? c) && (c <=? 57)) || ((65 <=? c) && (c <=? 90))
  || ((97 <=? c) && (c <=? 122)).

(** [\s]: white space and line terminators. *)
Definition is_space (c : Z) : bool :=
  ((9 <=? c) && (c <=? 13)) || (c =? 32) || (c =? 160) || (c =? 5760)
  || ((8192 <=? c) && (c <=? 8202)) || (c =? 8232) || (c =? 8233)
  || (c =? 8239) || (c =? 8287) || (c =? 12288) || (c =? 65279).

(** [.replace(/[^a-z0-9\s]/gi, "")] *)
Definition strip (title : list Z) : list Z :=
  List.filter (fun c => is_alnum c || is_space c) title.

(** [.replace(/\s+/g, "_")]: every maximal run of white space becomes one
    underscore; [in_run] tells that the previous unit was white space. *)
Fixpoint underscore (in_run : bool) (s : list Z) : list Z :=
  match s with
  | [] => []
  | c :: r =>
      if is_space c
      then (if in_run then underscore true r else 95 :: underscore true r)
      else c :: underscore false r
  end.

Definition codeUnits (s : string) : list Z :=
  map (fun c => Z.of_nat (nat_of_ascii c)) (list_ascii_of_string s).

(** [link.download], with [format = videoInfo.format || "mp3"] and
    [extension = format === "mp3" ? "mp3" : format]. *)
Definition downloadName (title : list Z) (videoInfo_format : option string)
  : list Z :=
  let format := Js.str_or videoInfo_format "mp3" in
  let extension := if String.eqb format "mp3" then "mp3" else format in
  underscore false (strip title) ++ codeUnits ("." +:+ extension).

End DownloadCard.

(** * Vocabulary of the properties *)

(** The selector as the specification words it: with the full toolchain
    strategy 1, with the download tool only strategy 2, with neither
    strategy 3; a transcoder without a download tool is not mentioned. *)
Definition spec_selectStrategy (hasTool hasTranscoder : bool) : option nat :=
  match hasTool, hasTranscoder with
  | true, true => Some 1%nat
  | true, false => Some 2%nat
  | false, false => Some 3%nat
  | false, true => None
  end.

(** The runner of the convert route that carries out each strategy, and
    the label the environment check gives it. *)
Definition strategy_runner cwd execAsync fetchCobalt fetchAudio floorSample
    writeError (k : nat) : string → string → Task.t Convert.downloadResult :=
  match k with
  | 1%nat => Convert.superFastDownloadWithFFmpeg cwd execAsync
  | 2%nat => Convert.fastDownloadOriginal cwd execAsync
  | _ => Convert.onlineDownload cwd fetchCobalt fetchAudio floorSample
           writeError
  end.

Definition strategy_label (k : nat) : string :=
  match k with
  | 1%nat => "full"
  | 2%nat => "ytdlp-only"
  | _ => "online"
  end.




(** The time [d] at which the file [p], served now, is removed: 300000 ms
    from now, or the time of an earlier pending removal of [p] left by a
    previous serving. *)
Definition reaping_time (p : string) (s : Download.server) (d : Z) : Prop :=
  (d = Download.now s + 300000 ∨ (d, p) ∈ Download.timers s) ∧
  d ≤ Download.now s + 300000 ∧
  (∀ due, (due, p) ∈ Download.timers s → d ≤ due).


(** The first path of [files] that exists in the directory. *)
Fixpoint first_existing (files : list string) (fs : Fs.t) : option string :=
  match files with
  | [] => None
  | file :: rest =>
      if Fs.pathExists file fs then Some file else first_existing rest fs
  end.

(** The first extension of [exts] under which the download tool left its
    [{id}_temp] output. *)
Fixpoint first_temp (cwd videoId : string) (exts : list string) (fs : Fs.t)
  : option string :=
  match exts with
  | [] => None
  | ext :: rest =>
      if Fs.pathExists
           (Path.join (Convert.TEMP_DIR cwd) (videoId +:+ "_temp" +:+ ext)) fs
      then Some ext else first_temp cwd videoId rest fs
  end.

(** A file kept in the temp directory under the name of [videoId]. *)
Definition artifact_of (cwd videoId p : string) : Prop :=
  String.prefix (Path.join (Convert.TEMP_DIR cwd) videoId) p = true.

(** The eviction timers are in step with the cache: a pending timer
    belongs to a cached entry, and an entry has one eviction time. *)
Definition timers_match_cache (s : Convert.state) : Prop :=
  (∀ due id, (due, id) ∈ Convert.timers s → is_Some (Convert.cache s !! id)) ∧
  (∀ id d1 d2, (d1, id) ∈ Convert.timers s → (d2, id) ∈ Convert.timers s →
               d1 = d2).

(** An identifier that is a single path segment: it holds no separator.
    With an extension appended it is neither [.] nor [..], so for such an
    identifier [path.join] has nothing to normalise and
    [{temp_dir}/{id}{ext}] is the path the routes touch. *)
Definition plain_name (s : string) : bool :=
  forallb (fun c => negb (Ascii.eqb c "/"%char)) (list_ascii_of_string s).

(** The processes of a POSIX host: a command line that the shell refuses
    is rejected with the shell's error and nothing has run, so the temp
    directory is as it was. *)
Definition posix_host (execAsync : string → Task.t string) : Prop :=
  ∀ command fs,
    Sh.refuses command = true →
    ∃ e, execAsync command fs = Some (fs, Promise.Rejected e).


(** A literal that is claimed to be a member of a list of other literals. *)
Ltac literal_member H :=
  repeat (apply elem_of_cons in H as [H|H]; [discriminate H|]);
  apply elem_of_nil in H; destruct H.

(** The next awaited process of a handler: its three outcomes. *)
Ltac next_probe :=
  match goal with
  | |- context [match ?exec ?t ?cmd with _ => _ end] =>
      let t1 := fresh "t" in
      let out := fresh "stdout" in
      let e := fresh "e" in
      let H := fresh "Hexec" in
      destruct (exec t cmd) as [[t1 [out|e]]|] eqn:H
  end.

(** * Concrete inputs *)

Definition wav_only : Fs.t := {[ "/app/temp/abc.wav" := [82; 73; 70; 70] ]}.

(** A download tool whose probe never ends, next to a transcoder that
    answers after 12 ms. *)
Definition hanging_ytdlp (t0 : Z) (command : string) : Promise.t string :=
  if String.eqb command "yt-dlp --version" then None
  else Some (t0 + 12, Promise.Fulfilled "ffmpeg version 6.0").

(** Both tools answer. *)
Definition tools_present (t0 : Z) (command : string) : Promise.t string :=
  if String.eqb command "yt-dlp --version"
  then Some (t0 + 30, Promise.Fulfilled "2024.03.10")
  else Some (t0 + 12, Promise.Fulfilled "ffmpeg version 6.0").


Definition one_mp3 : Download.server :=
  {| Download.files := {[ "/app/temp/abc.mp3" := [73; 68; 51] ]};
     Download.now := 0;
     Download.timers := [] |}.

(** An integer stand-in for the scaled sine, for concrete runs. *)
Definition triangle (sampleRate i : Z) : Z := (i * 1231) mod 19661 - 9830.

(** The message of [exec] for a line that the shell refuses. *)
Definition sh_error (command : string) : string :=
  "Command failed: " +:+ command +:+ " /bin/sh: 1: Syntax error: ( unexpected".

(** A POSIX host whose download tool, whenever the shell lets it start,
    ends normally and leaves its output under an extension the runner
    does not look for. *)
Definition tool_leaves_aac : string → Task.t string :=
  λ command fs,
    if Sh.refuses command then Some (fs, Promise.Rejected (sh_error command))
    else Some (<["/app/temp/abc_temp.aac" := [255; 241; 80; 128]]> fs,
               Promise.Fulfilled "[download] 100%").

(** A POSIX host whose download tool leaves an [.m4a] track under the
    [_temp] name whenever the shell lets it start. *)
Definition tool_leaves_m4a : string → Task.t string :=
  λ command fs,
    if Sh.refuses command then Some (fs, Promise.Rejected (sh_error command))
    else Some (<["/app/temp/abc_temp.m4a" := [0; 0; 0; 32]]> fs,
               Promise.Fulfilled "[download] 100%").

(** A host without the download tool: the shell finds no such command. *)
Definition tools_missing : string → Task.t string :=
  λ command fs, Some (fs, Promise.Rejected (command +:+ ": not found")).

(** An online service that answers and delivers, and one that refuses. *)
Definition cobalt_up : string → Promise.t Convert.apiResponse :=
  λ url, Some (120, Promise.Fulfilled
                      {| Convert.api_ok := true;
                         Convert.api_json := λ t,
                           Some (t + 1, Promise.Fulfilled
                             {| Convert.cobalt_status := "success";
                                Convert.cobalt_url :=
                                  Some "https://cdn.example/a.mp3" |}) |}).

Definition cobalt_down : string → Promise.t Convert.apiResponse :=
  λ url, Some (50, Promise.Fulfilled
                     {| Convert.api_ok := false;
                        Convert.api_json := λ t,
                          Some (t + 1, Promise.Rejected "Unexpected token") |}).

Definition audio_up : Z → string → Promise.t Convert.audioResponse :=
  λ t url, Some (t + 200, Promise.Fulfilled
                            {| Convert.audio_ok := true;
                               Convert.audio_arrayBuffer := λ t,
                                 Some (t + 30, Promise.Fulfilled
                                                 [73; 68; 51; 4]) |}).

(** A file system in which [/app/temp] is the only directory: a write to
    a path directly inside it is carried out, any other is refused. *)
Definition temp_only : Fs.verdict :=
  λ p data fs,
    if String.prefix "/app/temp/" p && plain_name (Js.slice_from 10 p)
    then None
    else Some ("ENOENT: no such file or directory, open '" +:+ p +:+ "'",
               None).


(** Metadata sources for concrete runs: no download tool output to parse,
    and an oEmbed endpoint that refuses requests made before the first
    second and answers afterwards. *)
Definition no_process (t : Z) (command : string) : Promise.t string :=
  Some (t + 5, Promise.Rejected "Command failed").

Definition parse_nothing (stdout : string) : option Convert.ytInfo := None.

Definition oembed_recovering (t : Z) (url : string)
  : Promise.t Convert.oembedResponse :=
  if t <? 1000
  then Some (t + 40, Promise.Fulfilled
                       {| Convert.oembed_ok := false;
                          Convert.oembed_json := λ t2,
                            Some (t2, Promise.Rejected "Unauthorized") |})
  else Some (t + 40, Promise.Fulfilled
                       {| Convert.oembed_ok := true;
                          Convert.oembed_json := λ t2,
                            Some (t2, Promise.Fulfilled
                                        (Some "Never Gonna Give You Up")) |}).

(** oEmbed answers [ok] in 40 ms and the body never comes to its end. *)
Definition oembed_stalls (t : Z) (url : string)
  : Promise.t Convert.oembedResponse :=
  Some (t + 40, Promise.Fulfilled
                  {| Convert.oembed_ok := true;
                     Convert.oembed_json := λ t2, None |}).

Definition online_env : Convert.environment :=
  {| Convert.type := "online"; Convert.hasYtDlp := false;
     Convert.hasFFmpeg := false |}.

Definition rick : Convert.videoInfo :=
  {| Convert.title := "Never Gonna Give You Up";
     Convert.thumbnail :=
       "https://img.youtube.com/vi/dQw4w9WgXcQ/maxresdefault.jpg";
     Convert.duration := 180 |}.

(** The flight of the call that looks [rick] up at time 1500. *)
Definition rick_flight : Convert.flight :=
  {| Convert.due := 1540;
     Convert.flight_id := "dQw4w9WgXcQ";
     Convert.flight_lookups :=
       [Convert.OEmbed
          "https://www.youtube.com/oembed?url=https://www.youtube.com/watch?v=dQw4w9WgXcQ&format=json"];
     Convert.flight_result := Some rick |}.

(** The module state after [rick] was looked up at time 1500. *)
Definition rick_stored : Convert.state :=
  {| Convert.cache := <["dQw4w9WgXcQ" := rick]> ∅;
     Convert.now := 1540;
     Convert.timers := [(3601540, "dQw4w9WgXcQ")];
     Convert.lookups :=
       [Convert.OEmbed
          "https://www.youtube.com/oembed?url=https://www.youtube.com/watch?v=dQw4w9WgXcQ&format=json"] |}.

(** What happens to the download route: a request for an identifier, or
    the clock reaching a time. *)
Inductive download_event :=
| Request (videoId : string)
| Tick (t : Z).

Definition download_step (cwd : string) (s : Download.server)
    (e : download_event) : Download.server :=
  match e with
  | Request videoId => snd (Download.GET cwd videoId s)
  | Tick t => Download.advance t s
  end.

Definition download_run (cwd : string) (es : list download_event)
    (s : Download.server) : Download.server :=
  fold_left (download_step cwd) es s.

Definition two_formats : Fs.t :=
  <["/app/temp/abc.m4a" := [0; 0; 0; 32; 102]]>
    (<["/app/temp/abc.opus" := [79; 103; 103; 83]]> ∅).

(** No dot occurs in the string. *)
Fixpoint dotless (s : string) : bool :=
  match s with
  | EmptyString => true
  | String c r => negb (Ascii.eqb c "."%char) && dotless r
  end.

Definition old_mp3 : Fs.t := {[ "/app/temp/abc.mp3" := [73; 68; 51] ]}.

Definition old_m4a : Fs.t := {[ "/app/temp/abc.m4a" := [9; 9] ]}.

(** Every field of the metadata holds a value. *)
Definition info_complete (v : Convert.videoInfo) : Prop :=
  Convert.title v ≠ "" ∧ Convert.thumbnail v ≠ "" ∧ Convert.duration v ≠ 0.

(** A call of the metadata fetcher: its arrival time and its arguments. *)
Record info_request := {
  req_time : Z;
  req_url : string;
  req_id : string;
  req_env : Convert.environment
}.

(** The module state after a sequence of calls. *)
Fixpoint info_run execAsync JSON_parse fetch (reqs : list info_request)
    (s : Convert.state) : option Convert.state :=
  match reqs with
  | [] => Some s
  | q :: rest =>
      match Convert.getInfoAt execAsync JSON_parse fetch
              (req_time q) (req_url q) (req_id q) (req_env q) s with
      | Some (_, s1) => info_run execAsync JSON_parse fetch rest s1
      | None => None
      end
  end.

(** The server after a sequence of calls, each arriving whatever else is
    in flight. *)
Definition serve execAsync JSON_parse fetch (calls : list info_request)
    (srv : Convert.server) : Convert.server :=
  fold_left
    (λ srv q, snd (Convert.arrive execAsync JSON_parse fetch
                     (req_time q) (req_url q) (req_id q) (req_env q) srv))
    calls srv.

(** What the callers of a sequence of calls get, in order. *)
Fixpoint answers execAsync JSON_parse fetch (calls : list info_request)
    (srv : Convert.server) : list Convert.answer :=
  match calls with
  | [] => []
  | q :: rest =>
      let r := Convert.arrive execAsync JSON_parse fetch
                 (req_time q) (req_url q) (req_id q) (req_env q) srv in
      fst r :: answers execAsync JSON_parse fetch rest (snd r)
  end.

(** The entry [v] of [id] is held until [D]: it is cached, its eviction
    is pending for [D] and none is pending for an earlier time, and no
    lookup for [id] is in flight. *)
Definition entry_held (id : string) (v : Convert.videoInfo) (D : Z)
    (srv : Convert.server) : Prop :=
  Convert.cache (Convert.st srv) !! id = Some v ∧
  (D, id) ∈ Convert.timers (Convert.st srv) ∧
  (∀ d, (d, id) ∈ Convert.timers (Convert.st srv) → D ≤ d) ∧
  (∀ g, g ∈ Convert.flights srv → Convert.flight_id g ≠ id).

(** Two calls for one identifier, ten ms apart. *)
Definition overlapping_calls : list info_request :=
  [ {| req_time := 2000; req_url := "https://youtu.be/dQw4w9WgXcQ";
       req_id := "dQw4w9WgXcQ"; req_env := online_env |};
    {| req_time := 2010; req_url := "https://youtu.be/dQw4w9WgXcQ";
       req_id := "dQw4w9WgXcQ"; req_env := online_env |} ].

(** Every cached entry has an eviction pending, due within the hour. *)
Definition entries_expire (s : Convert.state) : Prop :=
  ∀ id, is_Some (Convert.cache s !! id) →
        ∃ due, (due, id) ∈ Convert.timers s ∧
               due ≤ Convert.now s + Convert.cacheTTL.

(** Every cached entry is complete. *)
Definition cache_complete (s : Convert.state) : Prop :=
  ∀ id v, Convert.cache s !! id = Some v → info_complete v.

(** Requests of [POST /convert] for concrete runs. *)
Definition rick_body : Convert.convertBody :=
  {| Convert.body_videoId := Some "dQw4w9WgXcQ";
     Convert.body_url := Some "https://youtu.be/dQw4w9WgXcQ" |}.

Definition empty_id_body : Convert.convertBody :=
  {| Convert.body_videoId := Some "";
     Convert.body_url := Some "https://youtu.be/dQw4w9WgXcQ" |}.

Definition any_url (url : string) : bool := true.

Definition zod_says (body : Convert.convertBody) : string :=
  "String must contain at least 1 character(s)".

(** No tool is installed: both probes fail after 5 ms. *)
Definition no_tools (t : Z) (command : string) : Promise.t string :=
  Some (t + 5, Promise.Rejected "command not found").

Definition oembed_up (t : Z) (url : string)
  : Promise.t Convert.oembedResponse :=
  Some (t + 40, Promise.Fulfilled
                  {| Convert.oembed_ok := true;
                     Convert.oembed_json := λ t2,
                       Some (t2, Promise.Fulfilled
                                   (Some "Never Gonna Give You Up")) |}).

(** Inputs for the runs of [YouTubeConverter]: a download tool that leaves
    [{id}_temp.m4a], one that fails after leaving a partial file, and an
    ffmpeg that writes its output. *)
Definition dl_leaves_m4a (url : string)
  (o : YouTubeConverter.downloadOptions) : Task.t unit :=
  λ fs, Some (<["/app/temp/abc_temp.m4a" := [0; 0; 0; 32]]> fs,
              Promise.Fulfilled tt).

Definition dl_fails_midway (url : string)
  (o : YouTubeConverter.downloadOptions) : Task.t unit :=
  fun fs => Some (<["/app/temp/abc_temp.webm" := [26; 69]]> fs,
                  Promise.Rejected "network error").

Definition ffmpeg_writes (input output : string)
  (o : YouTubeConverter.ConversionOptions) : Task.t unit :=
  λ fs, Some (<[output := [73; 68; 51]]> fs, Promise.Fulfilled tt).

Definition wav_192 : YouTubeConverter.ConversionOptions :=
  {| YouTubeConverter.opt_quality := YouTubeConverter.Q192;
     YouTubeConverter.opt_format := YouTubeConverter.Wav |}.

(** The polynomial hash of base 31 over the integers, from [h]. *)
Definition poly31 (codes : list Z) (h : Z) : Z :=
  fold_left (fun h code => 31 * h + code) codes h.

(** The flags of the system check by the key under which the version is
    recorded. *)
Definition check_names : list string :=
  ["ytDlp"; "youtubeDl"; "ffmpeg"; "python"; "node"].

Definition flag (c : SystemCheck.checks) (key : string) : bool :=
  if String.eqb key "ytDlp" then SystemCheck.ytDlp c
  else if String.eqb key "youtubeDl" then SystemCheck.youtubeDl c
  else if String.eqb key "ffmpeg" then SystemCheck.ffmpeg c
  else if String.eqb key "python" then SystemCheck.python c
  else if String.eqb key "node" then SystemCheck.node c
  else false.

(** A machine with ffmpeg, node and [python3], each answering after 7 ms,
    on which [python] never returns. *)
Definition some_tools (t : Z) (command : string) : Promise.t string :=
  if String.eqb command "ffmpeg -version"
  then Some (t + 7, Promise.Fulfilled "ffmpeg version 6.0")
  else if String.eqb command "python3 --version"
  then Some (t + 7, Promise.Fulfilled "Python 3.11.4")
  else if String.eqb command "node --version"
  then Some (t + 7, Promise.Fulfilled "v20.5.0")
  else if String.eqb command "python --version" then None
  else Some (t + 7, Promise.Rejected "command not found").

(** The same machine with a [python] that answers. *)
Definition some_tools_python2 (t : Z) (command : string) : Promise.t string :=
  if String.eqb command "python --version"
  then Some (t + 7, Promise.Fulfilled "Python 2.7.18")
  else some_tools t command.

Definition no_trim (s : string) : string := s.

(** * Properties *)

(** ** The progress route *)

Lemma probe_Some_inv cwd id exts fs info :
  Progress.probe cwd id exts fs = Some info →
  Progress.exists_ info = true ∧ Progress.ready info = true ∧
  ∃ ext, ext ∈ exts ∧
         Fs.pathExists (Path.join (Progress.TEMP_DIR cwd) (id +:+ ext)) fs = true.
Proof.
  induction exts as [|ext rest IH]; simpl; [discriminate|].
  destruct (Fs.pathExists _ fs) eqn:E.
  - intros [= <-]. simpl. repeat split; try done.
    exists ext. split; [left | exact E].
  - intros H. destruct (IH H) as (? & ? & e & ? & ?).
    repeat split; try done. exists e. split; [by right | done].
Qed.

Lemma probe_None_iff cwd id exts fs :
  Progress.probe cwd id exts fs = None ↔
  ∀ ext, ext ∈ exts →
         Fs.pathExists (Path.join (Progress.TEMP_DIR cwd) (id +:+ ext)) fs = false.
Proof.
  induction exts as [|ext rest IH]; simpl.
  - split; [intros _ e He; inversion He | done].
  - destruct (Fs.pathExists _ fs) eqn:E.
    + split; [discriminate|]. intros H.
      specialize (H ext (list_elem_of_here _ _)). congruence.
    + rewrite IH. split.
      * intros H e He. apply elem_of_cons in He as [->|He]; auto.
      * intros H e He. apply H. by right.
Qed.

(** What the route does decide: readiness is presence of a file with one
    of the four extensions it probes. *)
Lemma progress_ready_iff cwd id fs :
  Progress.exists_ (Progress.GET cwd id fs) = true ↔
  ∃ ext, ext ∈ [".mp3"; ".m4a"; ".webm"; ".opus"] ∧
         is_Some (fs !! Path.join (Progress.TEMP_DIR cwd) (id +:+ ext)).
Proof.
  unfold Progress.GET.
  destruct (Progress.probe cwd id Progress.possibleExtensions fs) as [info|] eqn:E.
  - apply probe_Some_inv in E as (Hex & _ & e & He & Hp).
    split; [|done]. intros _. exists e. split; [exact He|].
    unfold Fs.pathExists in Hp. by apply bool_decide_eq_true in Hp.
  - simpl. split; [discriminate|]. intros (e & He & Hs).
    rewrite probe_None_iff in E. specialize (E e He).
    unfold Fs.pathExists in E. apply bool_decide_eq_false in E. done.
Qed.

Lemma progress_ready_exists cwd id fs :
  Progress.ready (Progress.GET cwd id fs) = Progress.exists_ (Progress.GET cwd id fs).
Proof.
  unfold Progress.GET.
  destruct (Progress.probe cwd id Progress.possibleExtensions fs) as [info|] eqn:E.
  - apply probe_Some_inv in E as (-> & -> & _). done.
  - done.
Qed.

(** C1. The progress route is meant to report an artifact with any of the
    six canonical extensions.  On a temp directory that holds only
    [abc.wav] it answers [exists: false], [ready: false], while the
    download route finds and would serve that very file. *)
Theorem C1_progress_misses_wav :
  Progress.exists_ (Progress.GET "/app" "abc" wav_only) = false ∧
  Progress.ready (Progress.GET "/app" "abc" wav_only) = false ∧
  Progress.status (Progress.GET "/app" "abc" wav_only) = Some "processing" ∧
  is_Some (wav_only !! Path.join (Path.join "/app" "temp") ("abc" +:+ ".wav")) ∧
  Download.findVideoFile "/app" "abc" wav_only = Some "/app/temp/abc.wav".
Proof. vm_compute. repeat split; eauto. Qed.

(** ** Strategy selection *)

(** C2. The strategy is a function of the two capability flags alone.  The
    selector of the specification and the dispatch of [fastDownloadAudio]
    agree: (true, true) is strategy 1, the native download and transcode;
    (true, false) is strategy 2, the download without transcoding;
    (false, false) is strategy 3, the online services with their
    placeholder fallback.  The dispatch is the selected runner and nothing
    else, so the selection has no effect of its own, and the label that the
    environment check computes names the same strategy. *)
Theorem C2_strategy_selection cwd execAsync fetchCobalt fetchAudio floorSample
    writeError (url videoId : string) :
  (spec_selectStrategy true true = Some 1%nat ∧
   spec_selectStrategy true false = Some 2%nat ∧
   spec_selectStrategy false false = Some 3%nat)
  ∧
  (∀ ty,
     Convert.fastDownloadAudio cwd execAsync fetchCobalt fetchAudio floorSample writeError
       url videoId {| Convert.type := ty; Convert.hasYtDlp := true;
                      Convert.hasFFmpeg := true |}
     = Convert.superFastDownloadWithFFmpeg cwd execAsync url videoId
     ∧
     Convert.fastDownloadAudio cwd execAsync fetchCobalt fetchAudio floorSample writeError
       url videoId {| Convert.type := ty; Convert.hasYtDlp := true;
                      Convert.hasFFmpeg := false |}
     = Convert.fastDownloadOriginal cwd execAsync url videoId
     ∧
     Convert.fastDownloadAudio cwd execAsync fetchCobalt fetchAudio floorSample writeError
       url videoId {| Convert.type := ty; Convert.hasYtDlp := false;
                      Convert.hasFFmpeg := false |}
     = Convert.onlineDownload cwd fetchCobalt fetchAudio floorSample writeError url videoId)
  ∧
  (∀ env k,
     spec_selectStrategy (Convert.hasYtDlp env) (Convert.hasFFmpeg env) = Some k →
     Convert.fastDownloadAudio cwd execAsync fetchCobalt fetchAudio floorSample writeError
       url videoId env
     = strategy_runner cwd execAsync fetchCobalt fetchAudio floorSample
         writeError k
         url videoId)
  ∧
  (∀ probe t0 t env k,
     Convert.quickEnvironmentCheck probe t0 = Some (t, Promise.Fulfilled env) →
     spec_selectStrategy (Convert.hasYtDlp env) (Convert.hasFFmpeg env) = Some k →
     Convert.type env = strategy_label k).
Proof.
  split; [by repeat split|]. split; [by repeat split|]. split.
  - intros [ty [] []] k; simpl; intros [= <-]; reflexivity.
  - intros probe t0 t env k Hcheck.
    unfold Convert.quickEnvironmentCheck in Hcheck.
    destruct (Promise.allSettled _ _) as [[t' o]|]; [|discriminate].
    injection Hcheck as _ <-. simpl.
    destruct (Promise.is_fulfilled (probe t0 "yt-dlp --version"));
      destruct (Promise.is_fulfilled (probe t0 "ffmpeg -version"));
      simpl; intros [= <-]; reflexivity.
Qed.

Lemma C2_strategy_selection_witness :
  Convert.fastDownloadAudio "/app" tool_leaves_m4a cobalt_up audio_up triangle
    temp_only "https://youtu.be/dQw4w9WgXcQ" "abc"
    {| Convert.type := "full"; Convert.hasYtDlp := true;
       Convert.hasFFmpeg := true |}
  = Convert.superFastDownloadWithFFmpeg "/app" tool_leaves_m4a
      "https://youtu.be/dQw4w9WgXcQ" "abc"
  ∧
  ∃ t env, Convert.quickEnvironmentCheck tools_present 0
             = Some (t, Promise.Fulfilled env) ∧
           Convert.type env = "full".
Proof.
  destruct (C2_strategy_selection "/app" tool_leaves_m4a cobalt_up audio_up
              triangle temp_only "https://youtu.be/dQw4w9WgXcQ" "abc")
    as (_ & _ & Hrun & Hlabel).
  split.
  - exact (Hrun {| Convert.type := "full"; Convert.hasYtDlp := true;
                   Convert.hasFFmpeg := true |} 1%nat eq_refl).
  - eexists _, _. split; [reflexivity|].
    exact (Hlabel tools_present 0 _ _ 1%nat eq_refl eq_refl).
Defined.

(** The label computed by the environment check names the same choice. *)
Lemma environment_type_of_flags execAsync t0 t env :
  Convert.quickEnvironmentCheck execAsync t0 = Some (t, Promise.Fulfilled env) →
  Convert.type env =
    (if Convert.hasYtDlp env && Convert.hasFFmpeg env then "full"
     else if Convert.hasYtDlp env then "ytdlp-only" else "online").
Proof.
  unfold Convert.quickEnvironmentCheck.
  destruct (Promise.allSettled _ _) as [[t' o]|]; [|discriminate].
  intros [= _ <-]. reflexivity.
Qed.

(** ** Capability probes *)

Lemma quickEnvironmentCheck_unfold execAsync t0 :
  Convert.quickEnvironmentCheck execAsync t0 =
  match execAsync t0 "yt-dlp --version", execAsync t0 "ffmpeg -version" with
  | Some (ty, oy), Some (tf, of_) =>
      let y := Promise.is_fulfilled (Some (ty, oy)) in
      let f := Promise.is_fulfilled (Some (tf, of_)) in
      Some (Z.max ty (Z.max tf t0),
            Promise.Fulfilled
              {| Convert.type := if y && f then "full"
                                 else if y then "ytdlp-only" else "online";
                 Convert.hasYtDlp := y; Convert.hasFFmpeg := f |})
  | _, _ => None
  end.
Proof.
  unfold Convert.quickEnvironmentCheck. simpl.
  destruct (execAsync t0 "yt-dlp --version") as [[ty [sy|ey]]|];
    destruct (execAsync t0 "ffmpeg -version") as [[tf [sf|ef]]|]; reflexivity.
Qed.

(** C7, as stated, fails: no timeout guards the probes, and the check
    stays pending for ever when the download tool's probe never ends. *)
Lemma C7_probe_can_stall :
  Convert.quickEnvironmentCheck hanging_ytdlp 0 = None ∧
  ¬ (∃ bound, ∀ execAsync, ∃ t env,
        Convert.quickEnvironmentCheck execAsync 0
          = Some (t, Promise.Fulfilled env) ∧ t ≤ bound).
Proof.
  split; [reflexivity|].
  intros (bound & H). destruct (H hanging_ytdlp) as (t & env & Heq & _).
  discriminate Heq.
Qed.

(** C7, amended.  The two probes run in parallel and each is awaited until
    it settles, without a timeout: once both have settled, at [ty] and
    [tf], the check fulfils at the later of the two, whether the probes
    fulfilled or rejected (an absent tool does not abort it), and its flags
    say which probes fulfilled; while a probe is pending the check is
    pending. *)
Theorem C7_probes_awaited_without_timeout execAsync t0 :
  (∀ ty oy tf of_,
      execAsync t0 "yt-dlp --version" = Some (ty, oy) →
      execAsync t0 "ffmpeg -version" = Some (tf, of_) →
      ∃ env,
        Convert.quickEnvironmentCheck execAsync t0
          = Some (Z.max ty (Z.max tf t0), Promise.Fulfilled env) ∧
        Convert.hasYtDlp env = Promise.is_fulfilled (Some (ty, oy)) ∧
        Convert.hasFFmpeg env = Promise.is_fulfilled (Some (tf, of_)))
  ∧
  (Convert.quickEnvironmentCheck execAsync t0 = None ↔
   execAsync t0 "yt-dlp --version" = None ∨
   execAsync t0 "ffmpeg -version" = None).
Proof.
  rewrite quickEnvironmentCheck_unfold. split.
  - intros ty oy tf of_ -> ->. eexists. split; [reflexivity|]. by split.
  - destruct (execAsync t0 "yt-dlp --version") as [[ty oy]|];
      destruct (execAsync t0 "ffmpeg -version") as [[tf of_]|]; simpl;
      split; auto; try discriminate; intros [H|H]; discriminate H.
Qed.

Lemma C7_probes_awaited_witness :
  ∃ env,
    Convert.quickEnvironmentCheck tools_present 0
      = Some (30, Promise.Fulfilled env) ∧
    Convert.hasYtDlp env = true ∧ Convert.hasFFmpeg env = true.
Proof.
  destruct (C7_probes_awaited_without_timeout tools_present 0) as [H _].
  exact (H 30 (Promise.Fulfilled "2024.03.10")
           12 (Promise.Fulfilled "ffmpeg version 6.0") eq_refl eq_refl).
Defined.

(** ** Content types *)









Lemma find_loop_Some cwd id exts fs p :
  Download.find_loop cwd id exts fs = Some p →
  is_Some (fs !! p) ∧
  ∃ ext, ext ∈ exts ∧ p = Path.join (Download.TEMP_DIR cwd) (id +:+ ext).
Proof.
  induction exts as [|ext rest IH]; simpl; [discriminate|].
  destruct (Fs.pathExists _ fs) eqn:E.
  - intros [= <-]. split.
    + unfold Fs.pathExists in E. by apply bool_decide_eq_true in E.
    + exists ext. split; [left | done].
  - intros H. destruct (IH H) as (? & e & ? & ?). split; [done|].
    exists e. split; [by right | done].
Qed.

Lemma find_loop_None cwd id exts fs :
  Download.find_loop cwd id exts fs = None ↔
  ∀ ext, ext ∈ exts →
         fs !! Path.join (Download.TEMP_DIR cwd) (id +:+ ext) = None.
Proof.
  induction exts as [|ext rest IH]; simpl.
  - split; [intros _ e He; inversion He | done].
  - unfold Fs.pathExists at 1. case_bool_decide as E.
    + split; [discriminate|]. intros H.
      rewrite (H ext (list_elem_of_here _ _)) in E. by destruct E.
    + rewrite IH. apply eq_None_not_Some in E. split.
      * intros H e He. apply elem_of_cons in He as [->|He]; auto.
      * intros H e He. apply H. by right.
Qed.

(** The handler of the download route answers not-found or serves the
    file; it has no failing case of its own. *)
Lemma download_GET_cases cwd id s :
  (Download.findVideoFile cwd id (Download.files s) = None ∧
   Download.GET cwd id s = (Download.NotFound, s))
  ∨
  (∃ filePath body,
     Download.findVideoFile cwd id (Download.files s) = Some filePath ∧
     Download.files s !! filePath = Some body ∧
     Download.GET cwd id s =
       (Download.Served body
          (Download.getContentType (Js.toLowerCase (Path.extname filePath)))
          ("attachment; filename=" +:+
             Js.quoted ("youtube-" +:+ id +:+ Js.toLowerCase (Path.extname filePath)))
          (Z.of_nat (length body)),
        {| Download.files := Download.files s; Download.now := Download.now s;
           Download.timers := Download.timers s ++
             [(Download.now s + Download.cleanupDelay, filePath)] |})).
Proof.
  unfold Download.GET.
  destruct (Download.findVideoFile cwd id (Download.files s)) as [p|] eqn:E;
    [right | by left].
  apply find_loop_Some in E as ([body Hb] & _).
  exists p, body. unfold Fs.readFile, Fs.stat_size. rewrite Hb. simpl. done.
Qed.



(** ** Serving and reaping *)

Lemma reap_lookup_ne q p fs : q ≠ p → Download.reap q fs !! p = fs !! p.
Proof.
  intros H. unfold Download.reap, Fs.remove.
  destruct (Fs.pathExists q fs); [by rewrite lookup_delete_ne | done].
Qed.

Lemma reap_lookup_eq p fs : Download.reap p fs !! p = None.
Proof.
  unfold Download.reap, Fs.remove, Fs.pathExists. case_bool_decide as E.
  - apply lookup_delete_eq.
  - by apply eq_None_not_Some.
Qed.

(** The reaper only removes: a file of the directory after the timers
    have run was there before, with the same contents. *)
Lemma fire_sub t tm fs q :
  Download.fire t fs tm !! q = None ∨ Download.fire t fs tm !! q = fs !! q.
Proof.
  unfold Download.fire. destruct (fst tm <=? t); [|by right].
  destruct (decide (snd tm = q)) as [<-|Hne].
  - left. apply reap_lookup_eq.
  - right. by apply reap_lookup_ne.
Qed.

Lemma fold_fire_sub t tms : ∀ fs q,
  fold_left (Download.fire t) tms fs !! q = None ∨
  fold_left (Download.fire t) tms fs !! q = fs !! q.
Proof.
  induction tms as [|tm tms IH]; intros fs q; simpl; [by right|].
  destruct (IH (Download.fire t fs tm) q) as [H|H]; [by left|].
  rewrite H. apply fire_sub.
Qed.

Lemma fold_fire_keep t tms p : ∀ fs,
  (∀ due q, (due, q) ∈ tms → q = p → t < due) →
  fold_left (Download.fire t) tms fs !! p = fs !! p.
Proof.
  induction tms as [|[due q] tms IH]; intros fs H; simpl; [done|].
  rewrite IH.
  - unfold Download.fire. simpl. destruct (due <=? t) eqn:E; [|done].
    apply reap_lookup_ne. intros ->.
    specialize (H due p (list_elem_of_here _ _) eq_refl). lia.
  - intros d q' Hin. apply H. by right.
Qed.




(** For a file that no pending timer targets the grace period is the
    five minutes after the request. *)
Lemma reaping_time_first_serving p s :
  (∀ due, (due, p) ∉ Download.timers s) →
  reaping_time p s (Download.now s + 300000).
Proof.
  intros H. split; [by left|]. split; [lia|].
  intros due Hin. by destruct (H due).
Qed.





(** ** The placeholder audio *)

Section Wav.

Variable floorSample : Z → Z → Z.













End Wav.
Lemma uint32_bytes v :
  v mod 256 + 256 * ((v / 256) mod 256) + 65536 * ((v / 65536) mod 256)
  + 16777216 * ((v / 16777216) mod 256) = v mod 4294967296.
Proof.
  replace (v / 65536) with (v / 256 / 256) by (rewrite Z.div_div by lia; done).
  replace (v / 16777216) with (v / 256 / 256 / 256)
    by (rewrite !Z.div_div by lia; done).
  Z.div_mod_to_equations. lia.
Qed.

Lemma header_field_4 samples sampleRate :
  DataView.getUint32 4 (Convert.createWavHeader samples sampleRate)
  = (36 + samples * 2) mod 4294967296.
Proof.
  rewrite <- uint32_bytes. cbv -[Z.modulo Z.div Z.mul Z.add]. reflexivity.
Qed.

Lemma header_field_40 samples sampleRate :
  DataView.getUint32 40 (Convert.createWavHeader samples sampleRate)
  = (samples * 2) mod 4294967296.
Proof.
  rewrite <- uint32_bytes. cbv -[Z.modulo Z.div Z.mul Z.add]. reflexivity.
Qed.

Lemma header_length samples sampleRate :
  length (Convert.createWavHeader samples sampleRate) = 44%nat.
Proof. cbv -[Z.modulo Z.div Z.mul Z.add]. reflexivity. Qed.











(** ** The acquisition runner *)

Section RunnerProps.

Variable cwd : string.
Variable execAsync : string → Task.t string.

Lemma first_existing_Some files fs file :
  first_existing files fs = Some file →
  file ∈ files ∧ is_Some (fs !! file).
Proof.
  induction files as [|f rest IH]; simpl; [discriminate|].
  unfold Fs.pathExists at 1. case_bool_decide as E.
  - intros [= <-]. split; [left | done].
  - intros H. destruct (IH H). split; [by right | done].
Qed.

Lemma first_existing_None files fs :
  first_existing files fs = None ↔ ∀ file, file ∈ files → fs !! file = None.
Proof.
  induction files as [|f rest IH]; simpl.
  - split; [intros _ x Hx; inversion Hx | done].
  - unfold Fs.pathExists at 1. case_bool_decide as E.
    + split; [discriminate|]. intros H.
      rewrite (H f (list_elem_of_here _ _)) in E. by destruct E.
    + rewrite IH. apply eq_None_not_Some in E. split.
      * intros H x Hx. apply elem_of_cons in Hx as [->|Hx]; auto.
      * intros H x Hx. apply H. by right.
Qed.

Lemma renameLoop_spec outputPath files fs :
  Convert.renameLoop outputPath files fs =
  match first_existing files fs with
  | None => Some (fs, Promise.Rejected "Downloaded file not found")
  | Some file =>
      if bool_decide (file ≠ outputPath)
      then Task.move file outputPath fs
      else Some (fs, Promise.Fulfilled tt)
  end.
Proof.
  induction files as [|f rest IH]; simpl; [done|].
  destruct (Fs.pathExists f fs); [done | exact IH].
Qed.

(** The candidates of strategy 1 start with the canonical path itself,
    so a file that is moved never meets an existing destination. *)
Lemma findAndRename_found outputPath fs file data :
  first_existing (Convert.possibleFiles outputPath) fs = Some file →
  fs !! file = Some data →
  ∃ fs',
    Convert.findAndRenameOutputFile outputPath fs
      = Some (fs', Promise.Fulfilled tt) ∧
    fs' = (if bool_decide (file ≠ outputPath)
           then <[outputPath := data]> (delete file fs) else fs) ∧
    fs' !! outputPath = Some data ∧
    (file ≠ outputPath → fs' !! file = None).
Proof.
  intros Hfirst Hdata. unfold Convert.findAndRenameOutputFile.
  rewrite renameLoop_spec, Hfirst.
  case_bool_decide as Hne.
  - assert (Hout : Fs.pathExists outputPath fs = false).
    { unfold Convert.possibleFiles in Hfirst. simpl in Hfirst.
      destruct (Fs.pathExists outputPath fs); [|done].
      injection Hfirst as <-. by destruct Hne. }
    unfold Task.move, Fs.move. rewrite Hdata, Hout.
    eexists. split; [reflexivity|]. split; [reflexivity|].
    split; [apply lookup_insert_eq|]. intros _.
    rewrite lookup_insert_ne by done. apply lookup_delete_eq.
  - subst file.
    eexists. split; [reflexivity|]. split; [reflexivity|].
    split; [done|]. intros H. by destruct H.
Qed.

Lemma findAndRename_missing outputPath fs :
  first_existing (Convert.possibleFiles outputPath) fs = None →
  Convert.findAndRenameOutputFile outputPath fs
    = Some (fs, Promise.Rejected "Downloaded file not found").
Proof.
  intros H. unfold Convert.findAndRenameOutputFile.
  by rewrite renameLoop_spec, H.
Qed.

Lemma findActualLoop_spec videoId exts fs :
  Convert.findActualLoop cwd videoId exts fs =
  match first_temp cwd videoId exts fs with
  | None => Some (fs, Promise.Fulfilled None)
  | Some ext =>
      let testPath :=
        Path.join (Convert.TEMP_DIR cwd) (videoId +:+ "_temp" +:+ ext) in
      let finalPath := Path.join (Convert.TEMP_DIR cwd) (videoId +:+ ext) in
      Task.bind (Task.move testPath finalPath)
                (λ _, Task.ret (Some (finalPath, ext))) fs
  end.
Proof.
  induction exts as [|e rest IH]; simpl; [done|].
  destruct (Fs.pathExists _ fs); [done | exact IH].
Qed.

Lemma first_temp_Some videoId exts fs ext :
  first_temp cwd videoId exts fs = Some ext →
  ext ∈ exts ∧
  is_Some (fs !! Path.join (Convert.TEMP_DIR cwd)
                           (videoId +:+ "_temp" +:+ ext)).
Proof.
  induction exts as [|e rest IH]; simpl; [discriminate|].
  unfold Fs.pathExists at 1. case_bool_decide as E.
  - intros [= <-]. split; [left | done].
  - intros H. destruct (IH H). split; [by right | done].
Qed.

End RunnerProps.

(** *** The extension of the canonical [.mp3] path *)






Lemma string_append_assoc (a b c : string) :
  a +:+ (b +:+ c) = (a +:+ b) +:+ c.
Proof.
  induction a as [|x a IH]; [reflexivity|].
  change (String x (a +:+ (b +:+ c)) = String x ((a +:+ b) +:+ c)).
  by f_equal.
Qed.


Example possibleFiles_abc :
  Convert.possibleFiles "/app/temp/abc.mp3"
  = [ "/app/temp/abc.mp3"; "/app/temp/abc.m4a"; "/app/temp/abc.webm";
      "/app/temp/abc.opus" ].
Proof. reflexivity. Qed.




(** ** Strategy 3: online services, else the placeholder *)

(** [Promise.race] settles as the first promise to settle, a rejection
    included; with the single service of the route this is the outcome of
    that service. *)
Remark race_settles_as_first_settled (b : Fs.bytes) :
  Promise.race [ Some (10, Promise.Rejected "Cobalt failed");
                 Some (20, Promise.Fulfilled b) ]
  = Some (10, Promise.Rejected "Cobalt failed").
Proof. reflexivity. Qed.

Remark race_of_one {A} (p : Promise.t A) : Promise.race [p] = p.
Proof. by destruct p as [[t o]|]. Qed.



(** Strategy 3, case by case: the service is pending, has delivered or
    has failed; the write of its bytes and the write of the placeholder
    are each carried out or not. *)
Lemma onlineDownload_cases cwd fetchCobalt fetchAudio floorSample writeError
    (url videoId : string) (fs : Fs.t) :
  let outputPath := Path.join (Convert.TEMP_DIR cwd) (videoId +:+ ".mp3") in
  let placeholder := λ fs1 : Fs.t,
    match writeError outputPath (Convert.demoWav floorSample) fs1 with
    | None =>
        Some (<[outputPath := Convert.demoWav floorSample]> fs1,
              Promise.Fulfilled {| Convert.filePath := outputPath;
                                   Convert.format := "mp3";
                                   Convert.quality := "Demo" |})
    | Some (e, residue) =>
        Some (Fs.leave outputPath residue fs1, Promise.Rejected e)
    end in
  Convert.onlineDownload cwd fetchCobalt fetchAudio floorSample writeError
    url videoId fs
  = match Convert.cobaltDownload fetchCobalt fetchAudio url with
    | None => None
    | Some (_, Promise.Fulfilled buf) =>
        match writeError outputPath buf fs with
        | None =>
            Some (<[outputPath := buf]> fs,
                  Promise.Fulfilled {| Convert.filePath := outputPath;
                                       Convert.format := "mp3";
                                       Convert.quality := "Online Service" |})
        | Some (_, residue) => placeholder (Fs.leave outputPath residue fs)
        end
    | Some (_, Promise.Rejected _) => placeholder fs
    end.
Proof.
  intros outputPath placeholder. subst placeholder.
  unfold Convert.onlineDownload, Task.try_catch, Task.bind, Task.await,
    Task.writeFile, Task.ret, Convert.createFastDemo, Fs.writeFile.
  fold outputPath. unfold Convert.services. rewrite race_of_one.
  destruct (Convert.cobaltDownload fetchCobalt fetchAudio url)
    as [[t [buf|e]]|]; [| |reflexivity].
  - destruct (writeError outputPath buf fs) as [[e residue]|]; [|reflexivity].
    unfold Task.writeFile, Fs.writeFile.
    by destruct (writeError outputPath (Convert.demoWav floorSample) _)
      as [[e' residue']|].
  - unfold Task.writeFile, Fs.writeFile.
    by destruct (writeError outputPath (Convert.demoWav floorSample) fs)
      as [[e' residue']|].
Qed.







(** ** Locating the output, failing, cleaning up *)

Lemma bind_rejected_inv {A B} (m : Task.t A) (k : A → Task.t B) fs fs' e :
  Task.bind m k fs = Some (fs', Promise.Rejected e) →
  m fs = Some (fs', Promise.Rejected e)
  ∨ ∃ fs1 a, m fs = Some (fs1, Promise.Fulfilled a) ∧
             k a fs1 = Some (fs', Promise.Rejected e).
Proof.
  unfold Task.bind. destruct (m fs) as [[fs1 [a|e1]]|]; [|intros [= -> ->]; by left|done].
  intros H. right. by exists fs1, a.
Qed.

Lemma try_catch_rejected_inv {A} (m : Task.t A) (h : string → Task.t A)
    fs fs' e :
  Task.try_catch m h fs = Some (fs', Promise.Rejected e) →
  ∃ fs2 e2, m fs = Some (fs2, Promise.Rejected e2) ∧
            h e2 fs2 = Some (fs', Promise.Rejected e).
Proof.
  unfold Task.try_catch. destruct (m fs) as [[fs1 [a|e1]]|]; [done| |done].
  intros H. by exists fs1, e1.
Qed.

Lemma cleanup_spec paths : ∀ fs,
  ∃ fs', YouTubeConverter.cleanup paths fs = Some (fs', Promise.Fulfilled tt) ∧
         (∀ p, p ∈ paths → fs' !! p = None) ∧
         (∀ p, fs' !! p = None ∨ fs' !! p = fs !! p).
Proof.
  induction paths as [|q rest IH]; intros fs.
  - exists fs. split; [done|]. split; [intros p Hp; inversion Hp | by right].
  - simpl. unfold Task.bind, Task.pathExists.
    set (fs1 := if Fs.pathExists q fs then Fs.remove q fs else fs).
    assert (Hq : fs1 !! q = None).
    { unfold fs1, Fs.pathExists, Fs.remove. case_bool_decide as E.
      - apply lookup_delete_eq.
      - by apply eq_None_not_Some. }
    assert (Hsub : ∀ p, fs1 !! p = None ∨ fs1 !! p = fs !! p).
    { intros p. unfold fs1, Fs.remove. destruct (Fs.pathExists q fs); [|by right].
      destruct (decide (q = p)) as [->|Hne].
      - left. apply lookup_delete_eq.
      - right. by apply lookup_delete_ne. }
    destruct (IH fs1) as (fs' & Hrun & Hgone & Hsub').
    exists fs'. split; [|split].
    + unfold fs1 in Hrun. unfold Task.remove, Task.ret.
      destruct (Fs.pathExists q fs); exact Hrun.
    + intros p Hp. apply elem_of_cons in Hp as [->|Hp]; [|by apply Hgone].
      destruct (Hsub' q) as [H|H]; [done | by rewrite H].
    + intros p. destruct (Hsub' p) as [H|H]; [by left|].
      rewrite H. apply Hsub.
Qed.

(** C3, as stated, fails: strategy 2 on a tool that ends normally and
    leaves [abc_temp.aac] fails with "Downloaded file not found", and the
    file the tool left is still in the temp directory afterwards. *)
Lemma C3_failure_leaves_temp_file :
  Convert.fastDownloadOriginal "/app" tool_leaves_aac
    "https://youtu.be/dQw4w9WgXcQ" "abc" ∅
  = Some ({[ "/app/temp/abc_temp.aac" := [255; 241; 80; 128] ]},
          Promise.Rejected "Downloaded file not found")
  ∧ artifact_of "/app" "abc" "/app/temp/abc_temp.aac"
  ∧ ¬ (∀ cwd execAsync url videoId fs fs' e p,
         Convert.fastDownloadOriginal cwd execAsync url videoId fs
           = Some (fs', Promise.Rejected e) →
         artifact_of cwd videoId p → fs' !! p = None).
Proof.
  assert (Hrun : Convert.fastDownloadOriginal "/app" tool_leaves_aac
                   "https://youtu.be/dQw4w9WgXcQ" "abc" ∅
                 = Some ({[ "/app/temp/abc_temp.aac" := [255; 241; 80; 128] ]},
                         Promise.Rejected "Downloaded file not found")).
  { vm_compute. reflexivity. }
  assert (Hart : artifact_of "/app" "abc" "/app/temp/abc_temp.aac")
    by reflexivity.
  split; [exact Hrun|]. split; [exact Hart|].
  intros H. specialize (H _ _ _ _ _ _ _ _ Hrun Hart).
  vm_compute in H. discriminate H.
Qed.

Lemma temp_extension_format ext :
  ext ∈ Convert.tempExtensions → ext = "." +:+ Js.replace "." "" ext.
Proof.
  unfold Convert.tempExtensions. intros H.
  repeat (apply elem_of_cons in H as [->|H]; [reflexivity|]).
  inversion H.
Qed.

(** C3, amended.  After the external process has ended the runner of the
    convert route moves the first known-extension output it finds, in
    probe order, to the canonical [{id}.{format}] path (strategy 2: when
    that path is free, since the move does not overwrite); when no such
    file exists the run fails with "Downloaded file not found"; a failure
    of the tool or of the search ends the run at once, without a retry,
    and the runner removes nothing: the temp directory stays as the
    process left it.  [YouTubeConverter.convertToAudio], after any error,
    has removed the canonical output path and rethrows the error. *)
Theorem C3_output_moved_or_run_fails cwd execAsync (url videoId : string)
    (fs fs1 : Fs.t) :
  let TEMP := Convert.TEMP_DIR cwd in
  let mp3Path := Path.join TEMP (videoId +:+ ".mp3") in
  (* strategy 1 *)
  (∀ stdout,
     execAsync (Convert.superFastCommand mp3Path url) fs
       = Some (fs1, Promise.Fulfilled stdout) →
     match first_existing (Convert.possibleFiles mp3Path) fs1 with
     | Some file =>
         ∃ data, fs1 !! file = Some data ∧
           Convert.superFastDownloadWithFFmpeg cwd execAsync url videoId fs
           = Some (if bool_decide (file ≠ mp3Path)
                   then <[mp3Path := data]> (delete file fs1) else fs1,
                   Promise.Fulfilled {| Convert.filePath := mp3Path;
                                        Convert.format := "mp3";
                                        Convert.quality := "192kbps MP3 (Fast)" |})
     | None =>
         Convert.superFastDownloadWithFFmpeg cwd execAsync url videoId fs
         = Some (fs1, Promise.Rejected "Downloaded file not found")
     end)
  ∧
  (* strategy 2 *)
  (∀ stdout,
     execAsync (Convert.fastOriginalCommand cwd videoId url) fs
       = Some (fs1, Promise.Fulfilled stdout) →
     match first_temp cwd videoId Convert.tempExtensions fs1 with
     | Some ext =>
         let testPath := Path.join TEMP (videoId +:+ "_temp" +:+ ext) in
         let finalPath := Path.join TEMP (videoId +:+ ext) in
         fs1 !! finalPath = None →
         ∃ data format, fs1 !! testPath = Some data ∧
           ext = "." +:+ format ∧
           Convert.fastDownloadOriginal cwd execAsync url videoId fs
           = Some (<[finalPath := data]> (delete testPath fs1),
                   Promise.Fulfilled {| Convert.filePath := finalPath;
                                        Convert.format := format;
                                        Convert.quality :=
                                          "Fast " +:+ Js.toUpperCase ext |})
     | None =>
         Convert.fastDownloadOriginal cwd execAsync url videoId fs
         = Some (fs1, Promise.Rejected "Downloaded file not found")
     end)
  ∧
  (* the tool itself fails *)
  (∀ e,
     (execAsync (Convert.superFastCommand mp3Path url) fs
        = Some (fs1, Promise.Rejected e) →
      Convert.superFastDownloadWithFFmpeg cwd execAsync url videoId fs
        = Some (fs1, Promise.Rejected e)) ∧
     (execAsync (Convert.fastOriginalCommand cwd videoId url) fs
        = Some (fs1, Promise.Rejected e) →
      Convert.fastDownloadOriginal cwd execAsync url videoId fs
        = Some (fs1, Promise.Rejected e)))
  ∧
  (* lib/youtube-converter.ts *)
  (∀ tempDir youtubeDl ffmpegSave options e,
     let tempVideoPath := Path.join tempDir (videoId +:+ "_temp") in
     let outputPath :=
       Path.join tempDir (videoId +:+ "." +:+
         YouTubeConverter.format_name (YouTubeConverter.opt_format options)) in
     YouTubeConverter.convertToAudio tempDir youtubeDl ffmpegSave url videoId
       options fs = Some (fs1, Promise.Rejected e) →
     fs1 !! outputPath = None ∧
     ((∃ fs2,
         YouTubeConverter.downloadAudio youtubeDl url tempVideoPath options fs
           = Some (fs2, Promise.Rejected e))
      ∨
      (∃ fs0 fs2,
         YouTubeConverter.downloadAudio youtubeDl url tempVideoPath options fs
           = Some (fs0, Promise.Fulfilled tt) ∧
         YouTubeConverter.convertWithFFmpeg ffmpegSave tempVideoPath
           outputPath options fs0 = Some (fs2, Promise.Rejected e)))).
Proof.
  intros TEMP mp3Path. split; [|split; [|split]].
  - intros stdout Hexec.
    unfold Convert.superFastDownloadWithFFmpeg, Task.bind. fold TEMP mp3Path.
    rewrite Hexec.
    destruct (first_existing (Convert.possibleFiles mp3Path) fs1)
      as [file|] eqn:Hfirst.
    + destruct (first_existing_Some _ _ _ Hfirst) as [_ [data Hdata]].
      destruct (findAndRename_found mp3Path fs1 file data Hfirst Hdata)
        as (fs2 & -> & -> & _).
      exists data. split; [exact Hdata | reflexivity].
    + by rewrite (findAndRename_missing mp3Path fs1 Hfirst).
  - intros stdout Hexec.
    unfold Convert.fastDownloadOriginal, Convert.findActualDownloadedFile,
      Task.bind.
    rewrite Hexec, findActualLoop_spec.
    destruct (first_temp cwd videoId Convert.tempExtensions fs1)
      as [ext|] eqn:Hfirst; [|reflexivity].
    cbn zeta. intros Hfree.
    destruct (first_temp_Some _ _ _ _ _ Hfirst) as [Hext [data Hdata]].
    fold TEMP in Hdata.
    exists data, (Js.replace "." "" ext).
    split; [exact Hdata|]. split; [by apply temp_extension_format|].
    fold TEMP.
    unfold Task.bind, Task.move, Fs.move, Fs.pathExists.
    rewrite Hdata, Hfree.
    rewrite bool_decide_eq_false_2 by (by intros [? ?]).
    reflexivity.
  - intros e. split; intros Hexec.
    + unfold Convert.superFastDownloadWithFFmpeg, Task.bind. fold TEMP mp3Path.
      by rewrite Hexec.
    + unfold Convert.fastDownloadOriginal, Task.bind. by rewrite Hexec.
  - intros tempDir youtubeDl ffmpegSave options e tempVideoPath outputPath Hrun.
    unfold YouTubeConverter.convertToAudio in Hrun.
    fold tempVideoPath outputPath in Hrun.
    apply try_catch_rejected_inv in Hrun as (fs2 & e2 & Hbody & Hcatch).
    destruct (cleanup_spec [tempVideoPath; outputPath] fs2)
      as (fs3 & Hclean & Hgone & _).
    unfold Task.bind in Hcatch. rewrite Hclean in Hcatch.
    unfold Task.throw in Hcatch. injection Hcatch as <- <-.
    split.
    + apply Hgone. apply list_elem_of_further, list_elem_of_here.
    + apply bind_rejected_inv in Hbody as [Hdl | (fs0 & [] & Hdl & Hrest)];
        [left; by exists fs2|].
      right. exists fs0, fs2. split; [exact Hdl|].
      apply bind_rejected_inv in Hrest as [Hconv | (fs4 & [] & _ & Hret)];
        [|discriminate Hret].
      destruct (negb _ || negb _); [exact Hconv | discriminate Hconv].
Qed.

Lemma C3_output_moved_witness :
  ∃ data format,
    (<["/app/temp/abc_temp.m4a" := [0; 0; 0; 32]]> ∅ : Fs.t)
      !! "/app/temp/abc_temp.m4a" = Some data ∧
    ".m4a" = "." +:+ format ∧
    Convert.fastDownloadOriginal "/app" tool_leaves_m4a
      "https://youtu.be/dQw4w9WgXcQ" "abc" ∅
    = Some (<["/app/temp/abc.m4a" := data]>
              (delete "/app/temp/abc_temp.m4a"
                 (<["/app/temp/abc_temp.m4a" := [0; 0; 0; 32]]> ∅)),
            Promise.Fulfilled {| Convert.filePath := "/app/temp/abc.m4a";
                                 Convert.format := format;
                                 Convert.quality := "Fast .M4A" |}).
Proof.
  destruct (C3_output_moved_or_run_fails "/app" tool_leaves_m4a
              "https://youtu.be/dQw4w9WgXcQ" "abc" ∅
              (<["/app/temp/abc_temp.m4a" := [0; 0; 0; 32]]> ∅))
    as (_ & H & _).
  specialize (H "[download] 100%" eq_refl).
  assert (Hfirst : first_temp "/app" "abc" Convert.tempExtensions
                     (<["/app/temp/abc_temp.m4a" := [0; 0; 0; 32]]> ∅)
                   = Some ".m4a") by (vm_compute; reflexivity).
  rewrite Hfirst in H. apply H. vm_compute. reflexivity.
Defined.

(** ** The metadata cache *)

Lemma evict_sub t tm (c : gmap string Convert.videoInfo) k :
  Convert.evict t c tm !! k = None ∨ Convert.evict t c tm !! k = c !! k.
Proof.
  unfold Convert.evict. destruct (fst tm <=? t); [|by right].
  destruct (decide (snd tm = k)) as [<-|Hne].
  - left. apply lookup_delete_eq.
  - right. by apply lookup_delete_ne.
Qed.

Lemma fold_evict_sub t tms : ∀ (c : gmap string Convert.videoInfo) k,
  fold_left (Convert.evict t) tms c !! k = None ∨
  fold_left (Convert.evict t) tms c !! k = c !! k.
Proof.
  induction tms as [|tm tms IH]; intros c k; simpl; [by right|].
  destruct (IH (Convert.evict t c tm) k) as [H|H]; [by left|].
  rewrite H. apply evict_sub.
Qed.

Lemma fold_evict_keep t tms id : ∀ (c : gmap string Convert.videoInfo),
  (∀ due, (due, id) ∈ tms → t < due) →
  fold_left (Convert.evict t) tms c !! id = c !! id.
Proof.
  induction tms as [|[due k] tms IH]; intros c H; simpl; [done|].
  rewrite IH.
  - unfold Convert.evict. simpl. destruct (due <=? t) eqn:E; [|done].
    apply lookup_delete_ne. intros ->.
    specialize (H due (list_elem_of_here _ _)). lia.
  - intros d Hin. apply H. by right.
Qed.

Lemma fold_evict_gone t tms id due : ∀ (c : gmap string Convert.videoInfo),
  (due, id) ∈ tms → due ≤ t →
  fold_left (Convert.evict t) tms c !! id = None.
Proof.
  induction tms as [|tm tms IH]; intros c Hin Hle; [inversion Hin|].
  simpl. apply elem_of_cons in Hin as [<-|Hin]; [|by apply IH].
  destruct (fold_evict_sub t tms (Convert.evict t c (due, id)) id) as [H|H];
    [done|].
  rewrite H. unfold Convert.evict. simpl.
  rewrite (proj2 (Z.leb_le due t) Hle). apply lookup_delete_eq.
Qed.

Lemma advance_preserves t s :
  timers_match_cache s → timers_match_cache (Convert.advance t s).
Proof.
  intros [Hc Hu]. split; simpl.
  - intros due id Hin. apply list_elem_of_filter in Hin as [Hlt Hin].
    simpl in Hlt. rewrite fold_evict_keep; [by eapply Hc|].
    intros d Hd. by rewrite (Hu id d due Hd Hin).
  - intros id d1 d2 H1 H2.
    apply list_elem_of_filter in H1 as [_ H1].
    apply list_elem_of_filter in H2 as [_ H2]. eauto.
Qed.

Lemma resume_preserves t ls s :
  timers_match_cache s → timers_match_cache (Convert.resume t ls s).
Proof. intros H. apply (advance_preserves t) in H. exact H. Qed.

Lemma resume_cache_sub t ls s k :
  Convert.cache (Convert.resume t ls s) !! k = None ∨
  Convert.cache (Convert.resume t ls s) !! k = Convert.cache s !! k.
Proof. apply fold_evict_sub. Qed.

Lemma resume_cache_miss t ls s k :
  Convert.cache s !! k = None → Convert.cache (Convert.resume t ls s) !! k = None.
Proof. intros H. destruct (resume_cache_sub t ls s k) as [E|E]; congruence. Qed.

Lemma no_timer_of_miss s id :
  timers_match_cache s → Convert.cache s !! id = None →
  ∀ due, (due, id) ∉ Convert.timers s.
Proof.
  intros [Hc _] Hmiss due Hin. destruct (Hc due id Hin) as [v Hv]. congruence.
Qed.

Lemma remember_preserves id v s :
  timers_match_cache s → Convert.cache s !! id = None →
  timers_match_cache (Convert.remember id v s).
Proof.
  intros Hwf Hmiss. pose proof (no_timer_of_miss s id Hwf Hmiss) as Hno.
  destruct Hwf as [Hc Hu]. split; simpl.
  - intros due k Hin. apply elem_of_app in Hin as [Hin|Hin].
    + destruct (decide (id = k)) as [->|Hne].
      * rewrite lookup_insert_eq. eauto.
      * rewrite lookup_insert_ne by done. eauto.
    + apply list_elem_of_singleton in Hin. injection Hin as -> ->.
      rewrite lookup_insert_eq. eauto.
  - intros k d1 d2 H1 H2.
    apply elem_of_app in H1 as [H1|H1]; apply elem_of_app in H2 as [H2|H2].
    + eauto.
    + apply list_elem_of_singleton in H2. injection H2 as -> ->.
      by destruct (Hno _ H1).
    + apply list_elem_of_singleton in H1. injection H1 as -> ->.
      by destruct (Hno _ H2).
    + apply list_elem_of_singleton in H1. apply list_elem_of_singleton in H2.
      congruence.
Qed.

Lemma initial_timers_match : timers_match_cache Convert.initial.
Proof. split; simpl; intros; by match goal with H : _ ∈ [] |- _ => inversion H end. Qed.

Lemma str_or_nonempty s d : d ≠ "" → Js.str_or s d ≠ "".
Proof.
  intros Hd. unfold Js.str_or. destruct s as [x|]; [|done].
  destruct (String.eqb_spec x ""); done.
Qed.

Lemma defaultThumbnail_nonempty id : Convert.defaultThumbnail id ≠ "".
Proof. unfold Convert.defaultThumbnail. discriminate. Qed.

Lemma duration_or_nonzero d : Convert.duration_or d 180 ≠ 0.
Proof.
  unfold Convert.duration_or. destruct d as [x|]; [|done].
  destruct (Z.eqb_spec x 0); done.
Qed.

(** A race against a timeout settles, by the time of the timeout. *)
Lemma race_timeout_settles {A} (p : Promise.t A) start ms msg :
  is_Some (Promise.race [p; Promise.reject_after start ms msg]).
Proof.
  unfold Promise.race, Promise.reject_after. simpl.
  destruct p as [[tp op]|]; simpl; [|eauto].
  destruct (_ <? _); eauto.
Qed.

Lemma race_timeout_bound {A} (p : Promise.t A) start ms msg t o :
  Promise.race [p; Promise.reject_after start ms msg] = Some (t, o) →
  t ≤ start + ms.
Proof.
  unfold Promise.race, Promise.reject_after. simpl.
  destruct p as [[tp op]|]; simpl.
  - destruct (Z.ltb_spec (start + ms) tp); intros [= <- _]; lia.
  - intros [= <- _]. lia.
Qed.

Section MetadataProps.

Variable execAsync : Z → string → Promise.t string.
Variable JSON_parse : string → option Convert.ytInfo.
Variable fetch : Z → string → Promise.t Convert.oembedResponse.

Lemma getCachedVideoInfo_hit url id env s v :
  Convert.cache s !! id = Some v →
  Convert.getCachedVideoInfo execAsync JSON_parse fetch url id env s = Some (Some v, s).
Proof. intros H. unfold Convert.getCachedVideoInfo. by rewrite H. Qed.

(** On a miss the sources are consulted; when the consultations are over
    the function resumes, and only a result that is not [null] is
    remembered. *)
Lemma getCachedVideoInfo_miss url id env s :
  Convert.cache s !! id = None →
  Convert.getCachedVideoInfo execAsync JSON_parse fetch url id env s
  = match Convert.lookupSources execAsync JSON_parse fetch url id env
            (Convert.now s) with
    | Some (t, ls, r) =>
        Some (r, Convert.store id r (Convert.resume t ls s))
    | None => None
    end.
Proof.
  intros Hmiss. unfold Convert.getCachedVideoInfo. rewrite Hmiss.
  by destruct (Convert.lookupSources _ _ _ _ _ _ _) as [[[t ls] r]|].
Qed.

(** The first method is over within five seconds. *)
Lemma ytdlpInfo_settles url id t0 :
  ∃ t1 r, Convert.ytdlpInfo execAsync JSON_parse url id t0 = Some (t1, r) ∧
          t1 ≤ t0 + 5000 ∧
          ∀ v, r = Some v → info_complete v.
Proof.
  unfold Convert.ytdlpInfo.
  destruct (Promise.race _) as [[t1 o]|] eqn:Hrace.
  2:{ destruct (race_timeout_settles
                  (execAsync t0 (Convert.dumpCommand url)) t0 5000 "Timeout")
        as [x Hx]. congruence. }
  apply race_timeout_bound in Hrace.
  destruct o as [stdout|e]; [|by exists t1, None].
  destruct (JSON_parse stdout) as [info|]; [|by exists t1, None].
  eexists t1, (Some _). split; [reflexivity|]. split; [exact Hrace|].
  intros v [= <-]. split; [|split]; simpl.
  - by apply str_or_nonempty.
  - apply str_or_nonempty, defaultThumbnail_nonempty.
  - apply duration_or_nonzero.
Qed.

(** The second method: the answer is there, or the request is given up,
    within three seconds; an answer that is [ok] is followed by the wait
    for its body, which has no limit. *)
Lemma oembedInfo_cases id t1 :
  ∃ t2, t2 ≤ t1 + 3000 ∧
    ((∃ o, Convert.oembedInfo fetch id t1 = Some (t2, o) ∧
           ∀ v, o = Promise.Fulfilled (Some v) → False)
     ∨
     (∃ response,
        Promise.race [ fetch t1 (Convert.oembedUrl id);
                       Promise.reject_after t1 3000 "Timeout" ]
          = Some (t2, Promise.Fulfilled response) ∧
        Convert.oembed_ok response = true ∧
        match Convert.oembed_json response t2 with
        | None => Convert.oembedInfo fetch id t1 = None
        | Some (t3, body) =>
            ∃ o, Convert.oembedInfo fetch id t1 = Some (t3, o) ∧
                 ∀ v, o = Promise.Fulfilled (Some v) →
                      info_complete v ∧ Convert.duration v = 180 ∧
                      Convert.thumbnail v = Convert.defaultThumbnail id
        end)).
Proof.
  unfold Convert.oembedInfo.
  destruct (Promise.race _) as [[t2 o]|] eqn:Hrace.
  2:{ destruct (race_timeout_settles
                  (fetch t1 (Convert.oembedUrl id)) t1 3000 "Timeout")
        as [x Hx]. congruence. }
  exists t2. split; [by apply race_timeout_bound in Hrace|].
  destruct o as [response|e]; [|left; by eexists].
  destruct (Convert.oembed_ok response) eqn:Hok; [|left; by eexists].
  right. exists response. split; [reflexivity|]. split; [exact Hok|].
  destruct (Convert.oembed_json response t2) as [[t3 [data_title|e]]|];
    [| |reflexivity].
  - eexists. split; [reflexivity|]. intros v [= <-]. simpl.
    split; [|done]. split; [|split]; simpl.
    + by apply str_or_nonempty.
    + apply defaultThumbnail_nonempty.
    + done.
  - eexists. split; [reflexivity|]. discriminate.
Qed.

(** Which sources a call consults and what it can find. *)
Lemma lookupSources_consults url id env t0 t ls r :
  Convert.lookupSources execAsync JSON_parse fetch url id env t0
    = Some (t, ls, r) →
  (ls = [Convert.YtDlpDump url] ∨
   ls = [Convert.YtDlpDump url; Convert.OEmbed (Convert.oembedUrl id)] ∨
   ls = [Convert.OEmbed (Convert.oembedUrl id)]) ∧
  (Convert.hasYtDlp env = false →
   ls = [Convert.OEmbed (Convert.oembedUrl id)]) ∧
  (∀ v, r = Some v →
        info_complete v ∧
        (Convert.hasYtDlp env = false →
         Convert.duration v = 180 ∧
         Convert.thumbnail v = Convert.defaultThumbnail id)).
Proof.
  unfold Convert.lookupSources.
  assert (Hsecond : ∀ t1 first,
    (first = [] ∨ first = [Convert.YtDlpDump url]) →
    (Convert.hasYtDlp env = false → first = []) →
    match Convert.oembedInfo fetch id t1 with
    | Some (t2, Promise.Fulfilled r0) =>
        Some (t2, first ++ [Convert.OEmbed (Convert.oembedUrl id)], r0)
    | Some (t2, Promise.Rejected _) =>
        Some (t2, first ++ [Convert.OEmbed (Convert.oembedUrl id)], None)
    | None => None
    end = Some (t, ls, r) →
    (ls = [Convert.YtDlpDump url] ∨
     ls = [Convert.YtDlpDump url; Convert.OEmbed (Convert.oembedUrl id)] ∨
     ls = [Convert.OEmbed (Convert.oembedUrl id)]) ∧
    (Convert.hasYtDlp env = false →
     ls = [Convert.OEmbed (Convert.oembedUrl id)]) ∧
    (∀ v, r = Some v →
          info_complete v ∧
          (Convert.hasYtDlp env = false →
           Convert.duration v = 180 ∧
           Convert.thumbnail v = Convert.defaultThumbnail id))).
  { intros t1 first Hfirst Hno Heq.
    assert (Hls : ls = first ++ [Convert.OEmbed (Convert.oembedUrl id)]).
    { destruct (Convert.oembedInfo fetch id t1) as [[t2 [r0|e]]|];
        [| |discriminate]; by injection Heq as _ <- _. }
    split; [destruct Hfirst as [-> | ->]; subst ls; auto|].
    split; [intros H; by rewrite Hls, (Hno H)|].
    intros v ->.
    destruct (oembedInfo_cases id t1)
      as (t2 & _ & [(o & Ho & Hnot)|(resp & _ & _ & Hbody)]).
    - rewrite Ho in Heq. destruct o as [r0|e]; [|discriminate].
      injection Heq as _ _ ->. by destruct (Hnot v).
    - destruct (Convert.oembed_json resp t2) as [[t3 body]|].
      + destruct Hbody as (o & Ho & Hv). rewrite Ho in Heq.
        destruct o as [r0|e]; [|discriminate].
        injection Heq as _ _ ->. destruct (Hv v eq_refl) as (? & ? & ?).
        done.
      + rewrite Hbody in Heq. discriminate. }
  destruct (Convert.hasYtDlp env) eqn:Hyt.
  - destruct (ytdlpInfo_settles url id t0) as (t1 & r1 & -> & _ & Hv).
    destruct r1 as [v1|].
    + intros [= <- <- <-]. split; [tauto|]. split; [discriminate|].
      intros v [= <-]. split; [by apply Hv | discriminate].
    + apply Hsecond; [tauto | discriminate].
  - apply Hsecond; [tauto | done].
Qed.

Lemma lookupSources_nonempty url id env t0 t ls r :
  Convert.lookupSources execAsync JSON_parse fetch url id env t0
    = Some (t, ls, r) → ls ≠ [].
Proof.
  intros H. apply lookupSources_consults in H as ([->|[->| ->]] & _); done.
Qed.

Lemma store_preserves id r s :
  timers_match_cache s → Convert.cache s !! id = None →
  timers_match_cache (Convert.store id r s).
Proof. destruct r; [apply remember_preserves | done]. Qed.

Lemma getInfoAt_preserves t url id env s r s' :
  timers_match_cache s →
  Convert.getInfoAt execAsync JSON_parse fetch t url id env s = Some (r, s') →
  timers_match_cache s'.
Proof.
  intros Hwf. apply (advance_preserves t) in Hwf. unfold Convert.getInfoAt.
  destruct (Convert.cache (Convert.advance t s) !! id) as [v|] eqn:E.
  - rewrite (getCachedVideoInfo_hit _ _ _ _ _ E). by intros [= _ <-].
  - rewrite (getCachedVideoInfo_miss _ _ _ _ E).
    destruct (Convert.lookupSources _ _ _ _ _ _ _) as [[[t' ls] r']|];
      [|discriminate].
    intros [= <- <-]. apply store_preserves; [by apply resume_preserves|].
    by apply resume_cache_miss.
Qed.

Lemma failed_lookup_not_cached t url id env s s' :
  Convert.cache (Convert.advance t s) !! id = None →
  Convert.getInfoAt execAsync JSON_parse fetch t url id env s = Some (None, s') →
  Convert.cache s' !! id = None.
Proof.
  intros Hmiss. unfold Convert.getInfoAt.
  rewrite (getCachedVideoInfo_miss _ _ _ _ Hmiss).
  destruct (Convert.lookupSources _ _ _ _ _ _ _) as [[[t' ls] r']|];
    [|discriminate].
  intros [= -> <-]. by apply resume_cache_miss.
Qed.

(** A call during which nothing else is in flight is a call of
    [getInfoAt]: it is answered at once from the cache, or its flight
    resumes on the state it left. *)
Lemma getInfoAt_alone t url id env s :
  Convert.getInfoAt execAsync JSON_parse fetch t url id env s
  = match Convert.arrive execAsync JSON_parse fetch t url id env
            {| Convert.st := s; Convert.flights := [] |} with
    | (Convert.Now v, srv) => Some (Some v, Convert.st srv)
    | (Convert.Later f, srv) =>
        Some (Convert.flight_result f, Convert.land f (Convert.st srv))
    | (Convert.Never, _) => None
    end.
Proof.
  unfold Convert.getInfoAt, Convert.getCachedVideoInfo, Convert.arrive.
  cbn [Convert.settle Convert.flights Convert.st].
  destruct (Convert.cache (Convert.advance t s) !! id); [reflexivity|].
  destruct (Convert.lookupSources _ _ _ _ _ _ _) as [[[t' ls] r']|];
    reflexivity.
Qed.

End MetadataProps.

(** *** Calls in flight *)

Lemma advance_timer_inv t s d id :
  (d, id) ∈ Convert.timers (Convert.advance t s) →
  (d, id) ∈ Convert.timers s ∧ t < d.
Proof.
  simpl. intros H. apply list_elem_of_filter in H as [Hlt Hin]. done.
Qed.

Lemma land_timer_other f s d id :
  Convert.flight_id f ≠ id →
  (d, id) ∈ Convert.timers (Convert.land f s) →
  (d, id) ∈ Convert.timers s ∧ Convert.due f < d.
Proof.
  intros Hne. unfold Convert.land, Convert.store.
  destruct (Convert.flight_result f) as [v|]; simpl.
  - intros H. apply elem_of_app in H as [H|H].
    + by apply list_elem_of_filter in H as [Hlt Hin].
    + apply list_elem_of_singleton in H. injection H as _ ->. done.
  - intros H. by apply list_elem_of_filter in H as [Hlt Hin].
Qed.

Lemma land_cache_other f s id :
  Convert.flight_id f ≠ id →
  Convert.cache (Convert.land f s) !! id
  = Convert.cache (Convert.advance (Convert.due f) s) !! id.
Proof.
  intros Hne. unfold Convert.land, Convert.store.
  destruct (Convert.flight_result f) as [v|]; simpl; [|done].
  by rewrite lookup_insert_ne.
Qed.

(** An entry with no eviction due by [t] is still there at [t], whatever
    calls for other identifiers resume in the meantime. *)
Lemma settle_keeps_entry t id v : ∀ fl s,
  (∀ g, g ∈ fl → Convert.flight_id g ≠ id) →
  Convert.cache s !! id = Some v →
  (∀ d, (d, id) ∈ Convert.timers s → t < d) →
  Convert.cache (fst (Convert.settle t fl s)) !! id = Some v.
Proof.
  induction fl as [|g fl IH]; intros s Hother Hv Hlate; simpl.
  - rewrite fold_evict_keep; done.
  - destruct (Z.leb_spec (Convert.due g) t) as [Hdue|Hdue]; simpl.
    + assert (Hg : Convert.flight_id g ≠ id)
        by (apply Hother; left).
      apply IH.
      * intros g' Hin. apply Hother. by right.
      * rewrite (land_cache_other g s id Hg). simpl.
        rewrite fold_evict_keep; [done|].
        intros d Hd. specialize (Hlate d Hd). lia.
      * intros d Hd. apply (land_timer_other g s d id Hg) in Hd as [Hd _].
        by apply Hlate.
    + rewrite fold_evict_keep; done.
Qed.

(** An entry whose eviction is due by [t] is gone at [t], as long as no
    call for the identifier resumes in the meantime. *)
Lemma settle_entry_gone t id D : ∀ fl s,
  (∀ g, g ∈ fl → Convert.flight_id g ≠ id) →
  Convert.cache s !! id = None ∨ (D, id) ∈ Convert.timers s →
  D ≤ t →
  Convert.cache (fst (Convert.settle t fl s)) !! id = None.
Proof.
  assert (Hbase : ∀ u s,
    Convert.cache s !! id = None ∨ (D, id) ∈ Convert.timers s → D ≤ u →
    Convert.cache (Convert.advance u s) !! id = None).
  { intros u s [Hnone|Hin] Hle; simpl.
    - destruct (fold_evict_sub u (Convert.timers s) (Convert.cache s) id)
        as [E|E]; congruence.
    - by eapply fold_evict_gone. }
  induction fl as [|g fl IH]; intros s Hother Hinv Hle; simpl.
  - by apply Hbase.
  - destruct (Z.leb_spec (Convert.due g) t) as [Hdue|Hdue]; simpl;
      [|by apply Hbase].
    assert (Hg : Convert.flight_id g ≠ id) by (apply Hother; left).
    apply IH; [intros g' Hin; apply Hother; by right | | exact Hle].
    destruct (Z.le_gt_cases D (Convert.due g)) as [Hfired|Hpending].
    + left. rewrite (land_cache_other g s id Hg). by apply Hbase.
    + destruct Hinv as [Hnone|Hin].
      * left. rewrite (land_cache_other g s id Hg). simpl.
        destruct (fold_evict_sub (Convert.due g) (Convert.timers s)
                    (Convert.cache s) id) as [E|E]; congruence.
      * right. unfold Convert.land, Convert.store.
        assert (Hkept : (D, id) ∈ Convert.timers
                  (Convert.resume (Convert.due g) (Convert.flight_lookups g) s)).
        { simpl. apply list_elem_of_filter. split; [simpl; lia | exact Hin]. }
        destruct (Convert.flight_result g); [|exact Hkept].
        simpl. apply elem_of_app. by left.
Qed.

Lemma insert_flight_elem f g : ∀ fl,
  g ∈ Convert.insert_flight f fl → g = f ∨ g ∈ fl.
Proof.
  induction fl as [|h fl IH]; simpl; intros Hg.
  - apply list_elem_of_singleton in Hg. by left.
  - destruct (Convert.due f <? Convert.due h).
    + apply elem_of_cons in Hg as [->|Hg]; [by left | by right].
    + apply elem_of_cons in Hg as [->|Hg]; [right; left|].
      destruct (IH Hg) as [->|Hin]; [by left | right; by right].
Qed.

(** An entry that is held until [D] is held at every time before [D],
    whatever calls for other identifiers resume in the meantime. *)
Lemma settle_entry_held t id v D : ∀ fl s,
  t < D →
  entry_held id v D {| Convert.st := s; Convert.flights := fl |} →
  entry_held id v D
    {| Convert.st := fst (Convert.settle t fl s);
       Convert.flights := snd (Convert.settle t fl s) |}.
Proof.
  assert (Hbase : ∀ u s fl, u < D →
    entry_held id v D {| Convert.st := s; Convert.flights := fl |} →
    entry_held id v D
      {| Convert.st := Convert.advance u s; Convert.flights := fl |}).
  { intros u s fl Hu (Hv & HD & Hmin & Hfl). simpl in *.
    split; [|split; [|split]]; simpl.
    - rewrite fold_evict_keep; [done|].
      intros d Hd. specialize (Hmin d Hd). lia.
    - apply list_elem_of_filter. split; [simpl; lia | exact HD].
    - intros d Hd. apply list_elem_of_filter in Hd as [_ Hd]. by apply Hmin.
    - exact Hfl. }
  induction fl as [|g fl IH]; intros s Ht Hheld; simpl.
  - by apply Hbase.
  - destruct (Z.leb_spec (Convert.due g) t) as [Hdue|Hdue]; simpl;
      [|by apply Hbase].
    apply IH; [exact Ht|].
    destruct Hheld as (Hv & HD & Hmin & Hfl). simpl in *.
    assert (Hg : Convert.flight_id g ≠ id) by (apply Hfl; left).
    split; [|split; [|split]]; simpl.
    + rewrite (land_cache_other g s id Hg). simpl.
      rewrite fold_evict_keep; [done|].
      intros d Hd. specialize (Hmin d Hd). lia.
    + unfold Convert.land, Convert.store.
      assert (Hkept : (D, id) ∈ Convert.timers
                (Convert.resume (Convert.due g) (Convert.flight_lookups g) s)).
      { simpl. apply list_elem_of_filter. split; [simpl; lia | exact HD]. }
      destruct (Convert.flight_result g); [|exact Hkept].
      simpl. apply elem_of_app. by left.
    + intros d Hd. apply (land_timer_other g s d id Hg) in Hd as [Hd _].
      by apply Hmin.
    + intros g' Hin. apply Hfl. by right.
Qed.

Section CacheProps.

Variable execAsync : Z → string → Promise.t string.
Variable JSON_parse : string → option Convert.ytInfo.
Variable fetch : Z → string → Promise.t Convert.oembedResponse.

(** A call that arrives while the entry of [id] is held: when it is for
    [id] it is answered at once with the entry, and the entry stays
    held. *)
Lemma arrive_entry_held t url videoId env id v D srv :
  t < D → entry_held id v D srv →
  (videoId = id →
   fst (Convert.arrive execAsync JSON_parse fetch t url videoId env srv)
   = Convert.Now v) ∧
  entry_held id v D
    (snd (Convert.arrive execAsync JSON_parse fetch t url videoId env srv)).
Proof.
  intros Ht Hheld.
  assert (Hs : entry_held id v D
                 {| Convert.st :=
                      fst (Convert.settle t (Convert.flights srv) (Convert.st srv));
                    Convert.flights :=
                      snd (Convert.settle t (Convert.flights srv) (Convert.st srv)) |}).
  { apply settle_entry_held; [exact Ht|]. by destruct srv. }
  unfold Convert.arrive.
  destruct (Convert.settle t (Convert.flights srv) (Convert.st srv))
    as [s1 rest]. simpl in Hs.
  assert (Hs' := Hs). destruct Hs' as (Hv & HD & Hmin & Hfl).
  simpl in Hv, HD, Hmin, Hfl.
  destruct (decide (videoId = id)) as [->|Hne].
  - rewrite Hv. simpl. split; [done | exact Hs].
  - split; [done|].
    destruct (Convert.cache s1 !! videoId); [exact Hs|].
    destruct (Convert.lookupSources _ _ _ _ _ _ _) as [[[t' ls] r']|];
      [|exact Hs].
    split; [exact Hv|]. split; [exact HD|]. split; [exact Hmin|].
    simpl. intros g Hg. apply insert_flight_elem in Hg as [->|Hg];
      [exact Hne | by apply Hfl].
Qed.

Lemma answers_entry_held id v D calls : ∀ srv,
  Forall (λ q, req_time q < D) calls →
  entry_held id v D srv →
  Forall2 (λ q a, req_id q = id → a = Convert.Now v) calls
    (answers execAsync JSON_parse fetch calls srv) ∧
  entry_held id v D (serve execAsync JSON_parse fetch calls srv).
Proof.
  induction calls as [|q rest IH]; intros srv Hcalls Hheld; simpl.
  - split; [constructor | exact Hheld].
  - apply Forall_cons in Hcalls as [Hq Hrest].
    destruct (arrive_entry_held (req_time q) (req_url q) (req_id q) (req_env q)
                id v D srv Hq Hheld) as [Hnow Hnext].
    destruct (IH _ Hrest Hnext) as [Hans Hend].
    split; [by constructor | exact Hend].
Qed.

(** Once the eviction of a held entry is due the entry is gone, and a
    call for the identifier is not answered from the cache. *)
Lemma arrive_entry_expired t url env id v D srv :
  D ≤ t → entry_held id v D srv →
  match fst (Convert.arrive execAsync JSON_parse fetch t url id env srv) with
  | Convert.Now _ => False
  | Convert.Later f =>
      Convert.flight_id f = id ∧ Convert.flight_lookups f ≠ []
  | Convert.Never => True
  end.
Proof.
  intros Ht (Hv & HD & Hmin & Hfl).
  pose proof (settle_entry_gone t id D (Convert.flights srv) (Convert.st srv)
                Hfl (or_intror HD) Ht) as Hgone.
  unfold Convert.arrive.
  destruct (Convert.settle t (Convert.flights srv) (Convert.st srv))
    as [s3 rest3]. simpl in *.
  rewrite Hgone.
  destruct (Convert.lookupSources _ _ _ _ _ _ _) as [[[t' ls] r']|] eqn:E;
    simpl; [|done].
  split; [done|]. by eapply lookupSources_nonempty.
Qed.

(** C5, amended.  A lookup that finds metadata stores it when it resumes,
    with an eviction timer one hour (3600000 ms) later.  When at that
    moment no other lookup for the identifier is in flight and no earlier
    eviction of the identifier is still pending, every call for the
    identifier that arrives before the timer is due is answered at once
    with the stored result and consults no source, whatever calls for
    other identifiers do in the meantime; once the timer is due the entry
    is gone and the next call for the identifier consults the sources
    again.  (A lookup that finds nothing stores nothing; lookups for one
    identifier that overlap each store and each arm a timer.) *)
Theorem C5_stored_result_reused_for_one_hour f rest s v :
  let id := Convert.flight_id f in
  let s1 := Convert.land f s in
  let srv1 := {| Convert.st := s1; Convert.flights := rest |} in
  Convert.flight_result f = Some v →
  (∀ g, g ∈ rest → Convert.flight_id g ≠ id) →
  (∀ d, (d, id) ∈ Convert.timers s → d ≤ Convert.due f) →
  Convert.cacheTTL = 3600000 ∧
  Convert.cache s1 !! id = Some v ∧
  (Convert.now s1 + 3600000, id) ∈ Convert.timers s1 ∧
  (∀ t2 url2 env2,
     t2 < Convert.now s1 + 3600000 →
     ∃ srv2,
       Convert.arrive execAsync JSON_parse fetch t2 url2 id env2 srv1
         = (Convert.Now v, srv2) ∧
       Convert.flights srv2 = snd (Convert.settle t2 rest s1)) ∧
  (∀ t3 url3 env3,
     Convert.now s1 + 3600000 ≤ t3 →
     Convert.cache (fst (Convert.settle t3 rest s1)) !! id = None ∧
     match fst (Convert.arrive execAsync JSON_parse fetch t3 url3 id env3
                  srv1) with
     | Convert.Now _ => False
     | Convert.Later f3 =>
         Convert.flight_id f3 = id ∧ Convert.flight_lookups f3 ≠ []
     | Convert.Never => True
     end) ∧
  (∀ calls,
     Forall (λ q, req_time q < Convert.now s1 + 3600000) calls →
     Forall2 (λ q a, req_id q = id → a = Convert.Now v) calls
       (answers execAsync JSON_parse fetch calls srv1) ∧
     ∀ t3 url3 env3,
       Convert.now s1 + 3600000 ≤ t3 →
       match fst (Convert.arrive execAsync JSON_parse fetch t3 url3 id env3
                    (serve execAsync JSON_parse fetch calls srv1)) with
       | Convert.Now _ => False
       | Convert.Later f3 =>
           Convert.flight_id f3 = id ∧ Convert.flight_lookups f3 ≠ []
       | Convert.Never => True
       end).
Proof.
  intros id s1 srv1 Hres Hother Hold.
  change Convert.cacheTTL with 3600000 in *.
  assert (Hland : s1 = Convert.remember id v
                         (Convert.resume (Convert.due f)
                            (Convert.flight_lookups f) s)).
  { unfold s1, Convert.land. by rewrite Hres. }
  assert (Hv : Convert.cache s1 !! id = Some v).
  { rewrite Hland. simpl. apply lookup_insert_eq. }
  assert (Hin : (Convert.now s1 + 3600000, id) ∈ Convert.timers s1).
  { rewrite Hland. simpl. apply elem_of_app. right.
    by apply list_elem_of_singleton. }
  assert (Honly : ∀ d, (d, id) ∈ Convert.timers s1 →
                       d = Convert.now s1 + 3600000).
  { intros d. rewrite Hland. simpl. intros Hd.
    apply elem_of_app in Hd as [Hd|Hd].
    - apply list_elem_of_filter in Hd as [Hlt Hd]. simpl in Hlt.
      specialize (Hold d Hd). lia.
    - apply list_elem_of_singleton in Hd. by injection Hd as ->. }
  assert (Hheld : entry_held id v (Convert.now s1 + 3600000) srv1).
  { split; [exact Hv|]. split; [exact Hin|]. split; [|exact Hother].
    intros d Hd. rewrite (Honly d Hd). simpl. lia. }
  split; [reflexivity|]. split; [exact Hv|]. split; [exact Hin|].
  split; [|split].
  - intros t2 url2 env2 Ht2.
    pose proof (settle_keeps_entry t2 id v rest s1 Hother Hv) as Hkeep.
    unfold Convert.arrive. simpl.
    destruct (Convert.settle t2 rest s1) as [s2 rest2]. simpl in *.
    rewrite Hkeep; [by eexists|].
    intros d Hd. rewrite (Honly d Hd). exact Ht2.
  - intros t3 url3 env3 Ht3.
    split; [exact (settle_entry_gone t3 id (Convert.now s1 + 3600000) rest s1
                     Hother (or_intror Hin) Ht3)|].
    by apply (arrive_entry_expired t3 url3 env3 id v
                (Convert.now s1 + 3600000) srv1).
  - intros calls Hcalls.
    destruct (answers_entry_held id v (Convert.now s1 + 3600000) calls srv1
                Hcalls Hheld) as [Hans Hend].
    split; [exact Hans|].
    intros t3 url3 env3 Ht3.
    by apply (arrive_entry_expired t3 url3 env3 id v
                (Convert.now s1 + 3600000)).
Qed.

End CacheProps.

(** C5, as stated, fails: a lookup that finds nothing is not cached, so a
    second call twenty seconds later consults the sources again and
    returns a different result. *)
Lemma C5_failed_lookup_is_repeated :
  match Convert.getInfoAt no_process parse_nothing oembed_recovering
          0 "https://youtu.be/dQw4w9WgXcQ" "dQw4w9WgXcQ" online_env
          Convert.initial with
  | Some (r1, s1) =>
      match Convert.getInfoAt no_process parse_nothing oembed_recovering
              20000 "https://youtu.be/dQw4w9WgXcQ" "dQw4w9WgXcQ" online_env s1 with
      | Some (r2, s2) =>
          r1 = None ∧
          r2 = Some {| Convert.title := "Never Gonna Give You Up";
                       Convert.thumbnail :=
                         "https://img.youtube.com/vi/dQw4w9WgXcQ/maxresdefault.jpg";
                       Convert.duration := 180 |} ∧
          r1 ≠ r2 ∧
          20000 - Convert.now s1 < Convert.cacheTTL ∧
          length (Convert.lookups s1) = 1%nat ∧
          length (Convert.lookups s2) = 2%nat
      | None => False
      end
  | None => False
  end.
Proof. vm_compute. repeat split; try done. Qed.

(** Lookups for one identifier that overlap: the second call arrives while
    the first is in flight and misses the cache as well; both consult the
    sources, both store and both arm a timer, and the timer of the first
    evicts what the second has stored before its hour is over. *)
Lemma overlapping_lookups_evict_early :
  match Convert.arrive no_process parse_nothing oembed_recovering
          2000 "https://youtu.be/dQw4w9WgXcQ" "dQw4w9WgXcQ" online_env
          {| Convert.st := Convert.initial; Convert.flights := [] |} with
  | (Convert.Later f1, srv1) =>
      match Convert.arrive no_process parse_nothing oembed_recovering
              2010 "https://youtu.be/dQw4w9WgXcQ" "dQw4w9WgXcQ" online_env
              srv1 with
      | (Convert.Later f2, srv2) =>
          let landed :=
            Convert.settle 2050 (Convert.flights srv2) (Convert.st srv2) in
          Convert.due f1 = 2040 ∧ Convert.due f2 = 2050 ∧
          snd landed = [] ∧
          Convert.cache (fst landed) !! "dQw4w9WgXcQ" = Some rick ∧
          Convert.timers (fst landed)
            = [(3602040, "dQw4w9WgXcQ"); (3602050, "dQw4w9WgXcQ")] ∧
          length (Convert.lookups (fst landed)) = 2%nat ∧
          Convert.cache (Convert.advance 3602040 (fst landed))
            !! "dQw4w9WgXcQ" = None
      | _ => False
      end
  | _ => False
  end.
Proof. vm_compute. repeat split. Qed.

Lemma C5_stored_result_witness :
  Convert.arrive no_process parse_nothing oembed_recovering
    1500 "https://youtu.be/dQw4w9WgXcQ" "dQw4w9WgXcQ" online_env
    {| Convert.st := Convert.initial; Convert.flights := [] |}
  = (Convert.Later rick_flight,
     {| Convert.st := Convert.advance 1500 Convert.initial;
        Convert.flights := [rick_flight] |}) ∧
  Convert.land rick_flight (Convert.advance 1500 Convert.initial)
  = rick_stored ∧
  ∃ srv2,
    Convert.arrive no_process parse_nothing oembed_recovering
      60000 "https://youtu.be/dQw4w9WgXcQ" "dQw4w9WgXcQ" online_env
      {| Convert.st := rick_stored; Convert.flights := [] |}
    = (Convert.Now rick, srv2).
Proof.
  split; [vm_compute; reflexivity|]. split; [vm_compute; reflexivity|].
  destruct (C5_stored_result_reused_for_one_hour
              no_process parse_nothing oembed_recovering
              rick_flight [] (Convert.advance 1500 Convert.initial) rick)
    as (_ & _ & _ & Hhit & _).
  - reflexivity.
  - intros g Hg. inversion Hg.
  - intros d Hd. inversion Hd.
  - destruct (Hhit 60000 "https://youtu.be/dQw4w9WgXcQ" online_env)
      as (srv2 & Harrive & _); [vm_compute; reflexivity|].
    exists srv2. exact Harrive.
Defined.

(** * Further properties of the routes *)

(** ** The progress route and the download route together *)

Lemma probe_first cwd id pre ext post fs data :
  (∀ e, e ∈ pre →
        fs !! Path.join (Progress.TEMP_DIR cwd) (id +:+ e) = None) →
  fs !! Path.join (Progress.TEMP_DIR cwd) (id +:+ ext) = Some data →
  Progress.probe cwd id (pre ++ ext :: post) fs
  = Some {| Progress.exists_ := true;
            Progress.size := Some (Z.of_nat (length data));
            Progress.format := Some (Js.replace "." "" ext);
            Progress.ready := true;
            Progress.status := None |}.
Proof.
  intros Hpre Hdata. induction pre as [|e pre IH]; simpl.
  - unfold Fs.pathExists, Fs.stat_size. rewrite Hdata.
    by rewrite bool_decide_eq_true_2.
  - unfold Fs.pathExists at 1. rewrite (Hpre e (list_elem_of_here _ _)).
    rewrite bool_decide_eq_false_2 by (by intros [? ?]).
    apply IH. intros e' He'. apply Hpre. by right.
Qed.



(** X1. For an identifier without a path separator the progress route
    answers [exists: true] exactly when a file with one of the extensions
    [.mp3], [.m4a], [.webm], [.opus] is present for the identifier;
    [ready] always equals [exists]; and the negative answer carries the
    status ["processing"] and no size or format. *)
Theorem X1_progress_ready_iff_probed_file cwd videoId fs :
  plain_name videoId = true →
  (Progress.exists_ (Progress.GET cwd videoId fs) = true ↔
   ∃ ext, ext ∈ [".mp3"; ".m4a"; ".webm"; ".opus"] ∧
          is_Some (fs !! Path.join (Progress.TEMP_DIR cwd) (videoId +:+ ext)))
  ∧ Progress.ready (Progress.GET cwd videoId fs)
    = Progress.exists_ (Progress.GET cwd videoId fs)
  ∧ (Progress.exists_ (Progress.GET cwd videoId fs) = false →
     Progress.GET cwd videoId fs
     = {| Progress.exists_ := false; Progress.size := None;
          Progress.format := None; Progress.ready := false;
          Progress.status := Some "processing" |}).
Proof.
  intros _.
  split; [apply progress_ready_iff|]. split; [apply progress_ready_exists|].
  unfold Progress.GET.
  destruct (Progress.probe cwd videoId Progress.possibleExtensions fs)
    as [info|] eqn:E; [|done].
  apply probe_Some_inv in E as (-> & _). discriminate.
Qed.

Lemma X1_progress_ready_witness :
  Progress.GET "/app" "abc" ∅
  = {| Progress.exists_ := false; Progress.size := None;
       Progress.format := None; Progress.ready := false;
       Progress.status := Some "processing" |}.
Proof.
  destruct (X1_progress_ready_iff_probed_file "/app" "abc" ∅ eq_refl)
    as (_ & _ & H).
  apply H. reflexivity.
Defined.

(** X2. When several formats of an identifier are present the progress
    route reports the first in its probe order ([.mp3], [.m4a], [.webm],
    [.opus]): the size is the byte length of that file and the format is
    its extension without the dot. *)
Theorem X2_progress_reports_first_format cwd videoId fs pre ext post data :
  Progress.possibleExtensions = pre ++ ext :: post →
  (∀ e, e ∈ pre →
        fs !! Path.join (Progress.TEMP_DIR cwd) (videoId +:+ e) = None) →
  fs !! Path.join (Progress.TEMP_DIR cwd) (videoId +:+ ext) = Some data →
  ∃ format,
    ext = "." +:+ format ∧
    Progress.GET cwd videoId fs
    = {| Progress.exists_ := true;
         Progress.size := Some (Z.of_nat (length data));
         Progress.format := Some format;
         Progress.ready := true;
         Progress.status := None |}.
Proof.
  intros Hsplit Hpre Hdata. exists (Js.replace "." "" ext). split.
  - assert (Hin : ext ∈ Progress.possibleExtensions).
    { rewrite Hsplit. apply elem_of_app. right. left. }
    unfold Progress.possibleExtensions in Hin.
    repeat (apply elem_of_cons in Hin as [->|Hin]; [reflexivity|]).
    inversion Hin.
  - unfold Progress.GET. rewrite Hsplit.
    by rewrite (probe_first cwd videoId pre ext post fs data Hpre Hdata).
Qed.

Lemma X2_progress_first_format_witness :
  ∃ format,
    ".m4a" = "." +:+ format ∧
    Progress.GET "/app" "abc" two_formats
    = {| Progress.exists_ := true;
         Progress.size := Some (Z.of_nat (length [0; 0; 0; 32; 102]));
         Progress.format := Some format;
         Progress.ready := true;
         Progress.status := None |}.
Proof.
  apply (X2_progress_reports_first_format "/app" "abc" two_formats
           [".mp3"] ".m4a" [".webm"; ".opus"] [0; 0; 0; 32; 102]).
  - reflexivity.
  - intros e He. apply list_elem_of_singleton in He as ->.
    vm_compute. reflexivity.
  - vm_compute. reflexivity.
Defined.

(** ** The extension and content type of a served file *)











(** X4. For an identifier without a path separator the download route
    answers not-found exactly when none of the six canonical names of the
    identifier exists, and then changes nothing: no timer is scheduled for
    a miss. *)
Theorem X4_download_not_found_iff cwd videoId s :
  plain_name videoId = true →
  (fst (Download.GET cwd videoId s) = Download.NotFound ↔
   ∀ ext, ext ∈ [".mp3"; ".m4a"; ".webm"; ".opus"; ".aac"; ".wav"] →
          Download.files s
            !! Path.join (Download.TEMP_DIR cwd) (videoId +:+ ext) = None)
  ∧ (fst (Download.GET cwd videoId s) = Download.NotFound →
     snd (Download.GET cwd videoId s) = s).
Proof.
  intros _.
  destruct (download_GET_cases cwd videoId s)
    as [[Hnone ->]|(p & body & Hf & Hb & ->)]; simpl.
  - split; [|done]. split; [|done]. intros _.
    by apply find_loop_None.
  - split; [|discriminate]. split; [discriminate|]. intros H.
    apply find_loop_None in H.
    change (Download.findVideoFile cwd videoId (Download.files s) = None) in H.
    congruence.
Qed.

Lemma X4_download_not_found_witness :
  snd (Download.GET "/app" "xyz" one_mp3) = one_mp3.
Proof.
  destruct (X4_download_not_found_iff "/app" "xyz" one_mp3 eq_refl)
    as [[_ H1] H2].
  apply H2, H1. intros ext Hext.
  repeat (apply elem_of_cons in Hext as [->|Hext]; [by vm_compute|]).
  inversion Hext.
Defined.



(** ** What the reaper removes *)

Lemma download_step_sub cwd s e q :
  Download.files (download_step cwd s e) !! q = None ∨
  Download.files (download_step cwd s e) !! q = Download.files s !! q.
Proof.
  destruct e as [id|t]; simpl.
  - destruct (download_GET_cases cwd id s) as [[_ ->]|(p & b & _ & _ & ->)];
      by right.
  - apply fold_fire_sub.
Qed.

Lemma download_step_keeps cwd s e p :
  (∀ due, (due, p) ∉ Download.timers s) →
  (∀ id ext, e = Request id → ext ∈ Download.possibleExtensions →
             Path.join (Download.TEMP_DIR cwd) (id +:+ ext) ≠ p) →
  Download.files (download_step cwd s e) !! p = Download.files s !! p ∧
  (∀ due, (due, p) ∉ Download.timers (download_step cwd s e)).
Proof.
  intros Hno Hreq. destruct e as [id|t]; simpl.
  - destruct (download_GET_cases cwd id s)
      as [[_ ->]|(q & b & Hf & _ & ->)]; simpl; [done|].
    split; [done|]. intros due Hin.
    apply elem_of_app in Hin as [Hin|Hin]; [by destruct (Hno due)|].
    apply list_elem_of_singleton in Hin. injection Hin as _ <-.
    apply find_loop_Some in Hf as (_ & ext & Hext & Heq).
    by destruct (Hreq id ext eq_refl Hext).
  - split.
    + apply fold_fire_keep. intros due q Hin ->. by destruct (Hno due).
    + intros due Hin. apply list_elem_of_filter in Hin as [_ Hin].
      by destruct (Hno due).
Qed.

(** X6. Over any sequence of clock ticks and of download requests for
    identifiers without a path separator, the download route and its
    reaper only ever remove files, and they remove only files that were
    served: a file that no pending timer targets and that belongs to no
    requested identifier is still there, unchanged, at the end, however
    much time has passed. *)
Theorem X6_unserved_file_is_kept cwd (es : list download_event) :
  (∀ id, Request id ∈ es → plain_name id = true) →
  ∀ s,
  (∀ q, Download.files (download_run cwd es s) !! q = None ∨
        Download.files (download_run cwd es s) !! q = Download.files s !! q)
  ∧
  (∀ p,
     (∀ due, (due, p) ∉ Download.timers s) →
     (∀ id ext, Request id ∈ es → ext ∈ Download.possibleExtensions →
                Path.join (Download.TEMP_DIR cwd) (id +:+ ext) ≠ p) →
     Download.files (download_run cwd es s) !! p = Download.files s !! p).
Proof.
  induction es as [|e es IH]; intros Hplain s; simpl.
  - split; [by right | done].
  - destruct (IH (λ id Hin, Hplain id (list_elem_of_further _ _ _ Hin))
                 (download_step cwd s e)) as [Hsub Hkeep]. split.
    + intros q. destruct (Hsub q) as [H|H]; [by left|].
      unfold download_run in *. rewrite H. apply download_step_sub.
    + intros p Hno Hreq.
      destruct (download_step_keeps cwd s e p Hno) as [Hp Hno'].
      { intros id ext -> Hext. apply Hreq; [left | done]. }
      unfold download_run in *. rewrite Hkeep; [done | done |].
      intros id ext Hin Hext. apply Hreq; [by right | done].
Qed.

Lemma X6_unserved_file_witness :
  Download.files
    (download_run "/app"
       [Request "xyz"; Tick 400000; Request "other"; Tick 90000000] one_mp3)
    !! "/app/temp/abc.mp3"
  = Some [73; 68; 51].
Proof.
  destruct (X6_unserved_file_is_kept "/app"
              [Request "xyz"; Tick 400000; Request "other"; Tick 90000000])
    with (s := one_mp3) as [_ H].
  { intros id Hin.
    repeat (apply elem_of_cons in Hin as [Hin|Hin];
            [try discriminate Hin; by injection Hin as ->|]).
    inversion Hin. }
  rewrite (H "/app/temp/abc.mp3").
  - reflexivity.
  - intros due Hin. inversion Hin.
  - intros id ext Hin Hext.
    unfold Download.possibleExtensions in Hext.
    repeat (apply elem_of_cons in Hin as [Hin|Hin];
            [try discriminate Hin; injection Hin as ->;
             repeat (apply elem_of_cons in Hext as [->|Hext];
                     [by vm_compute|]); inversion Hext|]).
    inversion Hin.
Defined.

(** * Further properties of the runner *)

Lemma superFastCommand_refused outputPath url :
  Sh.refuses (Convert.superFastCommand outputPath url) = true.
Proof. vm_compute. reflexivity. Qed.

Lemma tool_leaves_m4a_is_posix : posix_host tool_leaves_m4a.
Proof.
  intros command fs Hrefused. unfold tool_leaves_m4a. rewrite Hrefused. eauto.
Qed.

(** X7. The command line of strategy 1 passes the user agent without
    quotes, so for every URL and identifier it holds an opening
    parenthesis that a POSIX shell refuses.  On a POSIX host strategy 1
    therefore never succeeds: the run, and the dispatch under the full
    toolchain, reject with the error of the shell before any tool has
    started; nothing is searched or moved and the directory is as it was,
    so an [.mp3] that was there remains the artifact of the identifier. *)
Theorem X7_strategy1_refused_by_posix_shell cwd execAsync fetchCobalt
    fetchAudio floorSample writeError (url videoId : string) (fs : Fs.t) :
  let outputPath := Path.join (Convert.TEMP_DIR cwd) (videoId +:+ ".mp3") in
  Sh.refuses (Convert.superFastCommand outputPath url) = true ∧
  (posix_host execAsync →
   ∃ e,
     execAsync (Convert.superFastCommand outputPath url) fs
       = Some (fs, Promise.Rejected e) ∧
     Convert.superFastDownloadWithFFmpeg cwd execAsync url videoId fs
       = Some (fs, Promise.Rejected e) ∧
     ∀ ty,
       Convert.fastDownloadAudio cwd execAsync fetchCobalt fetchAudio
         floorSample writeError url videoId
         {| Convert.type := ty; Convert.hasYtDlp := true;
            Convert.hasFFmpeg := true |} fs
       = Some (fs, Promise.Rejected e)).
Proof.
  intros outputPath. split; [apply superFastCommand_refused|].
  intros Hposix.
  destruct (Hposix (Convert.superFastCommand outputPath url) fs
              (superFastCommand_refused outputPath url)) as [e He].
  exists e. split; [exact He|].
  assert (Hrun : Convert.superFastDownloadWithFFmpeg cwd execAsync url videoId fs
                 = Some (fs, Promise.Rejected e)).
  { unfold Convert.superFastDownloadWithFFmpeg, Task.bind.
    fold outputPath. by rewrite He. }
  split; [exact Hrun|]. intros ty. exact Hrun.
Qed.

Lemma X7_strategy1_refused_witness :
  ∃ e,
    Convert.superFastDownloadWithFFmpeg "/app" tool_leaves_m4a
      "https://youtu.be/dQw4w9WgXcQ" "abc" old_mp3
    = Some (old_mp3, Promise.Rejected e).
Proof.
  destruct (X7_strategy1_refused_by_posix_shell "/app" tool_leaves_m4a cobalt_up
              audio_up triangle temp_only "https://youtu.be/dQw4w9WgXcQ"
              "abc" old_mp3) as [_ H].
  destruct (H tool_leaves_m4a_is_posix) as (e & _ & Hrun & _).
  by exists e.
Defined.

(** X8. Strategy 2 does not overwrite: when the canonical path of the
    extension it found is already taken, the move is refused, the run
    fails with "dest already exists." and both files stay as they were. *)
Theorem X8_occupied_destination_fails cwd execAsync
    (url videoId : string) (fs fs1 : Fs.t) stdout ext :
  execAsync (Convert.fastOriginalCommand cwd videoId url) fs
    = Some (fs1, Promise.Fulfilled stdout) →
  first_temp cwd videoId Convert.tempExtensions fs1 = Some ext →
  is_Some (fs1 !! Path.join (Convert.TEMP_DIR cwd) (videoId +:+ ext)) →
  Convert.fastDownloadOriginal cwd execAsync url videoId fs
  = Some (fs1, Promise.Rejected "dest already exists.").
Proof.
  intros Hexec Hfirst Hocc.
  unfold Convert.fastDownloadOriginal, Convert.findActualDownloadedFile,
    Task.bind.
  rewrite Hexec, findActualLoop_spec, Hfirst. cbn zeta.
  destruct (first_temp_Some _ _ _ _ _ Hfirst) as [_ [data Hdata]].
  unfold Task.bind, Task.move, Fs.move.
  rewrite Hdata. unfold Fs.pathExists.
  rewrite !bool_decide_eq_true_2 by (done || by eexists).
  reflexivity.
Qed.

Lemma X8_occupied_destination_witness :
  Convert.fastDownloadOriginal "/app" tool_leaves_m4a
    "https://youtu.be/dQw4w9WgXcQ" "abc" old_m4a
  = Some (<["/app/temp/abc_temp.m4a" := [0; 0; 0; 32]]> old_m4a,
          Promise.Rejected "dest already exists.").
Proof.
  apply (X8_occupied_destination_fails "/app" tool_leaves_m4a
           "https://youtu.be/dQw4w9WgXcQ" "abc" old_m4a
           (<["/app/temp/abc_temp.m4a" := [0; 0; 0; 32]]> old_m4a)
           "[download] 100%" ".m4a").
  - reflexivity.
  - vm_compute. reflexivity.
  - vm_compute. eauto.
Defined.

Section RunToProgress.

Variable cwd : string.
Variable execAsync : string → Task.t string.
Variable fetchCobalt : string → Promise.t Convert.apiResponse.
Variable fetchAudio : Z → string → Promise.t Convert.audioResponse.
Variable floorSample : Z → Z → Z.
Variable writeError : Fs.verdict.

Lemma superFast_success_file url videoId fs fs' r :
  Convert.superFastDownloadWithFFmpeg cwd execAsync url videoId fs
    = Some (fs', Promise.Fulfilled r) →
  r = {| Convert.filePath := Path.join (Convert.TEMP_DIR cwd) (videoId +:+ ".mp3");
         Convert.format := "mp3"; Convert.quality := "192kbps MP3 (Fast)" |} ∧
  is_Some (fs' !! Path.join (Convert.TEMP_DIR cwd) (videoId +:+ ".mp3")).
Proof.
  unfold Convert.superFastDownloadWithFFmpeg, Task.bind.
  set (outputPath := Path.join (Convert.TEMP_DIR cwd) (videoId +:+ ".mp3")).
  destruct (execAsync _ fs) as [[fs1 [stdout|e]]|]; try discriminate.
  destruct (first_existing (Convert.possibleFiles outputPath) fs1)
    as [file|] eqn:Hfirst.
  - destruct (first_existing_Some _ _ _ Hfirst) as [_ [data Hdata]].
    destruct (findAndRename_found outputPath fs1 file data Hfirst Hdata)
      as (fs2 & -> & _ & Hout & _).
    simpl. intros [= <- <-]. split; [done | by eexists].
  - rewrite (findAndRename_missing outputPath fs1 Hfirst). discriminate.
Qed.

Lemma fastOriginal_success_file url videoId fs fs' r :
  Convert.fastDownloadOriginal cwd execAsync url videoId fs
    = Some (fs', Promise.Fulfilled r) →
  ∃ ext, ext ∈ Convert.tempExtensions ∧
         r = {| Convert.filePath :=
                  Path.join (Convert.TEMP_DIR cwd) (videoId +:+ ext);
                Convert.format := Js.replace "." "" ext;
                Convert.quality := "Fast " +:+ Js.toUpperCase ext |} ∧
         is_Some (fs' !! Path.join (Convert.TEMP_DIR cwd) (videoId +:+ ext)).
Proof.
  unfold Convert.fastDownloadOriginal, Convert.findActualDownloadedFile,
    Task.bind.
  destruct (execAsync _ fs) as [[fs1 [stdout|e]]|]; try discriminate.
  rewrite findActualLoop_spec.
  destruct (first_temp cwd videoId Convert.tempExtensions fs1)
    as [ext|] eqn:Hfirst; [|discriminate].
  cbn zeta. destruct (first_temp_Some _ _ _ _ _ Hfirst) as [Hext [data Hdata]].
  unfold Task.bind, Task.move, Fs.move. rewrite Hdata.
  destruct (Fs.pathExists _ fs1); [discriminate|].
  simpl. intros [= <- <-]. exists ext. split; [exact Hext|].
  split; [done|]. eexists. apply lookup_insert_eq.
Qed.

Lemma online_success_file url videoId fs fs' r :
  Convert.onlineDownload cwd fetchCobalt fetchAudio floorSample writeError url videoId fs
    = Some (fs', Promise.Fulfilled r) →
  Convert.filePath r = Path.join (Convert.TEMP_DIR cwd) (videoId +:+ ".mp3") ∧
  Convert.format r = "mp3" ∧
  is_Some (fs' !! Path.join (Convert.TEMP_DIR cwd) (videoId +:+ ".mp3")).
Proof.
  rewrite onlineDownload_cases.
  destruct (Convert.cobaltDownload fetchCobalt fetchAudio url)
    as [[t [buf|e]]|]; [| |discriminate].
  - destruct (writeError _ buf fs) as [[e residue]|].
    + destruct (writeError _ (Convert.demoWav floorSample) _) as [[e' residue']|];
        [discriminate|].
      intros [= <- <-]; simpl; (split; [done|]); (split; [done|]);
        eexists; apply lookup_insert_eq.
    + intros [= <- <-]; simpl; (split; [done|]); (split; [done|]);
        eexists; apply lookup_insert_eq.
  - destruct (writeError _ (Convert.demoWav floorSample) fs) as [[e' residue']|];
      [discriminate|].
    intros [= <- <-]; simpl; (split; [done|]); (split; [done|]);
      eexists; apply lookup_insert_eq.
Qed.

(** X9. After any successful run of the acquisition runner, whatever the
    strategy, the file named by the result exists, under one of the four
    extensions the progress route probes, so the progress route reports
    the identifier ready; and when the result is an [.mp3], which is the
    first extension probed, the reported format is ["mp3"] and the
    reported size is the byte length of the result file. *)
Theorem X9_successful_run_is_reported_ready url videoId env fs fs' r :
  Convert.fastDownloadAudio cwd execAsync fetchCobalt fetchAudio floorSample writeError
    url videoId env fs = Some (fs', Promise.Fulfilled r) →
  ∃ ext data,
    ext ∈ [".mp3"; ".m4a"; ".webm"; ".opus"] ∧
    Convert.filePath r = Path.join (Convert.TEMP_DIR cwd) (videoId +:+ ext) ∧
    ext = "." +:+ Convert.format r ∧
    fs' !! Convert.filePath r = Some data ∧
    Progress.exists_ (Progress.GET cwd videoId fs') = true ∧
    Progress.ready (Progress.GET cwd videoId fs') = true ∧
    (Convert.format r = "mp3" →
     Progress.GET cwd videoId fs'
     = {| Progress.exists_ := true;
          Progress.size := Some (Z.of_nat (length data));
          Progress.format := Some "mp3";
          Progress.ready := true;
          Progress.status := None |}).
Proof.
  intros Hrun.
  assert (Hfile : ∃ ext data,
            ext ∈ [".mp3"; ".m4a"; ".webm"; ".opus"] ∧
            Convert.filePath r
              = Path.join (Convert.TEMP_DIR cwd) (videoId +:+ ext) ∧
            ext = "." +:+ Convert.format r ∧
            fs' !! Convert.filePath r = Some data).
  { unfold Convert.fastDownloadAudio in Hrun.
    destruct (Convert.hasYtDlp env && Convert.hasFFmpeg env).
    - apply superFast_success_file in Hrun as [-> [data Hdata]].
      exists ".mp3", data. simpl. split; [by left | done].
    - destruct (Convert.hasYtDlp env).
      + apply fastOriginal_success_file in Hrun
          as (ext & Hext & -> & [data Hdata]).
        exists ext, data. simpl. split; [|split; [done|split; [|done]]].
        * unfold Convert.tempExtensions in Hext.
          repeat (apply elem_of_cons in Hext as [->|Hext];
                  [by repeat constructor|]).
          inversion Hext.
        * by apply temp_extension_format.
      + apply online_success_file in Hrun as (Hp & Hf & [data Hdata]).
        exists ".mp3", data. rewrite Hp, Hf.
        split; [by left | done]. }
  destruct Hfile as (ext & data & Hext & Hpath & Hfmt & Hdata).
  exists ext, data. split; [exact Hext|]. split; [exact Hpath|].
  split; [exact Hfmt|]. split; [exact Hdata|].
  assert (Hex : Progress.exists_ (Progress.GET cwd videoId fs') = true).
  { apply progress_ready_iff. exists ext. split; [exact Hext|].
    rewrite Hpath in Hdata. by eexists. }
  split; [exact Hex|]. split; [by rewrite progress_ready_exists|].
  intros Hmp3. rewrite Hmp3 in Hfmt. subst ext. rewrite Hpath in Hdata.
  unfold Progress.GET, Progress.possibleExtensions.
  pose proof (probe_first cwd videoId [] ".mp3" [".m4a"; ".webm"; ".opus"]
                fs' data (λ e He, False_ind _ (not_elem_of_nil _ He)) Hdata)
    as Hprobe.
  change ([] ++ [".mp3"; ".m4a"; ".webm"; ".opus"])
    with [".mp3"; ".m4a"; ".webm"; ".opus"] in Hprobe.
  by rewrite Hprobe.
Qed.

End RunToProgress.

Lemma X9_successful_run_witness :
  ∃ ext data,
    ext ∈ [".mp3"; ".m4a"; ".webm"; ".opus"] ∧
    ext = ".m4a" ∧
    (<["/app/temp/abc.m4a" := data]>
       (delete "/app/temp/abc_temp.m4a"
          (<["/app/temp/abc_temp.m4a" := [0; 0; 0; 32]]> ∅)) : Fs.t)
      !! "/app/temp/abc.m4a" = Some data ∧
    Progress.exists_
      (Progress.GET "/app" "abc"
         (<["/app/temp/abc.m4a" := [0; 0; 0; 32]]>
            (delete "/app/temp/abc_temp.m4a"
               (<["/app/temp/abc_temp.m4a" := [0; 0; 0; 32]]> ∅)))) = true.
Proof.
  destruct (X9_successful_run_is_reported_ready "/app" tool_leaves_m4a
              cobalt_up audio_up triangle temp_only
              "https://youtu.be/dQw4w9WgXcQ" "abc"
              {| Convert.type := "ytdlp-only"; Convert.hasYtDlp := true;
                 Convert.hasFFmpeg := false |}
              ∅
              (<["/app/temp/abc.m4a" := [0; 0; 0; 32]]>
                 (delete "/app/temp/abc_temp.m4a"
                    (<["/app/temp/abc_temp.m4a" := [0; 0; 0; 32]]> ∅)))
              {| Convert.filePath := "/app/temp/abc.m4a";
                 Convert.format := "m4a";
                 Convert.quality := "Fast .M4A" |})
    as (ext & data & Hext & Hpath & Hfmt & Hdata & Hex & _).
  - vm_compute. reflexivity.
  - exists ext, [0; 0; 0; 32]. split; [exact Hext|]. split; [exact Hfmt|].
    split; [vm_compute; reflexivity | exact Hex].
Defined.



(** ** The candidate paths of strategy 1 *)

Lemma append_empty_r s : s +:+ "" = s.
Proof.
  induction s as [|c s IH]; [done|].
  change (String c (s +:+ "") = String c s). by f_equal.
Qed.

Lemma replace_mp3_suffix s r :
  dotless s = true → Js.replace ".mp3" r (s +:+ ".mp3") = s +:+ r.
Proof.
  induction s as [|c s IH]; intros Hs.
  - change (r +:+ "" = r). apply append_empty_r.
  - simpl in Hs. apply andb_true_iff in Hs as [Hc Hs].
    apply negb_true_iff in Hc.
    change (Js.replace ".mp3" r (String c (s +:+ ".mp3")) = String c (s +:+ r)).
    unfold Js.replace; fold Js.replace.
    assert (Hp : String.prefix ".mp3" (String c (s +:+ ".mp3")) = false).
    { unfold String.prefix; fold String.prefix.
      destruct (ascii_dec "." c) as [Heq|Hne]; [|done].
      subst c. vm_compute in Hc. discriminate Hc. }
    rewrite Hp. f_equal. by apply IH.
Qed.

Lemma dotless_append s t :
  dotless (s +:+ t) = dotless s && dotless t.
Proof.
  induction s as [|c s IH]; [done|].
  change (negb (Ascii.eqb c ".") && dotless (s +:+ t)
          = negb (Ascii.eqb c ".") && dotless s && dotless t).
  by rewrite IH, andb_assoc.
Qed.

(** X11. When neither the working directory nor the identifier contains a
    dot, the only [.mp3] in the canonical path is its extension: the output
    template given to the tool is [{temp_dir}/{id}.%(ext)s] and the
    candidates searched afterwards are [{temp_dir}/{id}] with [.mp3],
    [.m4a], [.webm] and [.opus], in that order. *)
Theorem X11_candidates_are_canonical_names cwd videoId :
  dotless cwd = true → dotless videoId = true →
  let stem := Convert.TEMP_DIR cwd +:+ "/" +:+ videoId in
  let outputPath := Path.join (Convert.TEMP_DIR cwd) (videoId +:+ ".mp3") in
  Js.replace ".mp3" ".%(ext)s" outputPath = stem +:+ ".%(ext)s" ∧
  Convert.possibleFiles outputPath
  = [ stem +:+ ".mp3"; stem +:+ ".m4a"; stem +:+ ".webm"; stem +:+ ".opus" ].
Proof.
  intros Hcwd Hid stem outputPath.
  assert (Hstem : dotless stem = true).
  { unfold stem, Convert.TEMP_DIR, Path.join.
    rewrite !dotless_append, Hcwd, Hid. reflexivity. }
  assert (Hout : outputPath = stem +:+ ".mp3").
  { unfold outputPath, stem, Path.join. by rewrite !string_append_assoc. }
  unfold Convert.possibleFiles. rewrite Hout.
  by rewrite !(replace_mp3_suffix stem _ Hstem).
Qed.

Lemma X11_candidates_witness :
  Js.replace ".mp3" ".%(ext)s" "/app/temp/abc.mp3" = "/app/temp/abc.%(ext)s" ∧
  Convert.possibleFiles "/app/temp/abc.mp3"
  = [ "/app/temp/abc.mp3"; "/app/temp/abc.m4a"; "/app/temp/abc.webm";
      "/app/temp/abc.opus" ].
Proof.
  exact (X11_candidates_are_canonical_names "/app" "abc" eq_refl eq_refl).
Defined.

(** A directory whose name contains [.mp3] shows what the hypothesis is
    for: the first occurrence is replaced, not the extension. *)
Example replace_hits_first_occurrence :
  Js.replace ".mp3" ".m4a" "/srv/my.mp3s/temp/abc.mp3"
  = "/srv/my.m4as/temp/abc.mp3".
Proof. reflexivity. Qed.

(** * Further properties of the metadata fetcher *)

Section MetadataMore.

Variable execAsync : Z → string → Promise.t string.
Variable JSON_parse : string → option Convert.ytInfo.
Variable fetch : Z → string → Promise.t Convert.oembedResponse.

(** How long the consultations take: the download tool is given up after
    five seconds and the oEmbed request after three; the body of an oEmbed
    answer that is [ok] is awaited without a limit. *)
Lemma lookupSources_timing url id env t0 :
  (∃ t ls r,
     Convert.lookupSources execAsync JSON_parse fetch url id env t0
       = Some (t, ls, r) ∧ t ≤ t0 + 8000)
  ∨
  (∃ t1 t2 response,
     Promise.race [ fetch t1 (Convert.oembedUrl id);
                    Promise.reject_after t1 3000 "Timeout" ]
       = Some (t2, Promise.Fulfilled response) ∧
     t2 ≤ t0 + 8000 ∧
     Convert.oembed_ok response = true ∧
     match Convert.oembed_json response t2 with
     | None =>
         Convert.lookupSources execAsync JSON_parse fetch url id env t0 = None
     | Some (t3, _) =>
         ∃ ls r,
           Convert.lookupSources execAsync JSON_parse fetch url id env t0
             = Some (t3, ls, r)
     end).
Proof.
  unfold Convert.lookupSources.
  assert (Hsecond : ∀ t1 first, t1 ≤ t0 + 5000 →
    (∃ t ls r,
       match Convert.oembedInfo fetch id t1 with
       | Some (t2, Promise.Fulfilled r0) =>
           Some (t2, first ++ [Convert.OEmbed (Convert.oembedUrl id)], r0)
       | Some (t2, Promise.Rejected _) =>
           Some (t2, first ++ [Convert.OEmbed (Convert.oembedUrl id)], None)
       | None => None
       end = Some (t, ls, r) ∧ t ≤ t0 + 8000)
    ∨
    (∃ t1' t2 response,
       Promise.race [ fetch t1' (Convert.oembedUrl id);
                      Promise.reject_after t1' 3000 "Timeout" ]
         = Some (t2, Promise.Fulfilled response) ∧
       t2 ≤ t0 + 8000 ∧
       Convert.oembed_ok response = true ∧
       match Convert.oembed_json response t2 with
       | None =>
           match Convert.oembedInfo fetch id t1 with
           | Some (t2, Promise.Fulfilled r0) =>
               Some (t2, first ++ [Convert.OEmbed (Convert.oembedUrl id)], r0)
           | Some (t2, Promise.Rejected _) =>
               Some (t2, first ++ [Convert.OEmbed (Convert.oembedUrl id)],
                     None)
           | None => None
           end = None
       | Some (t3, _) =>
           ∃ ls r,
             match Convert.oembedInfo fetch id t1 with
             | Some (t2, Promise.Fulfilled r0) =>
                 Some (t2, first ++ [Convert.OEmbed (Convert.oembedUrl id)],
                       r0)
             | Some (t2, Promise.Rejected _) =>
                 Some (t2, first ++ [Convert.OEmbed (Convert.oembedUrl id)],
                       None)
             | None => None
             end = Some (t3, ls, r)
       end)).
  { intros t1 first Ht1.
    destruct (oembedInfo_cases fetch id t1)
      as (t2 & Ht2 & [(o & Ho & _)|(resp & Hrace & Hok & Hbody)]).
    - left. rewrite Ho. destruct o as [r0|e]; eexists _, _, _;
        (split; [reflexivity | lia]).
    - right. exists t1, t2, resp. split; [exact Hrace|]. split; [lia|].
      split; [exact Hok|].
      destruct (Convert.oembed_json resp t2) as [[t3 body]|].
      + destruct Hbody as (o & -> & _). destruct o; by eexists _, _.
      + by rewrite Hbody. }
  destruct (Convert.hasYtDlp env).
  - destruct (ytdlpInfo_settles execAsync JSON_parse url id t0)
      as (t1 & r1 & -> & Ht1 & _).
    destruct r1 as [v1|]; [|by apply Hsecond].
    left. eexists _, _, _. split; [reflexivity | lia].
  - apply Hsecond. lia.
Qed.

Lemma advance_cache_complete t s :
  cache_complete s → cache_complete (Convert.advance t s).
Proof.
  intros H id v Hv. simpl in Hv.
  destruct (fold_evict_sub t (Convert.timers s) (Convert.cache s) id) as [E|E];
    rewrite E in Hv; [discriminate | by eapply H].
Qed.

Lemma getInfoAt_complete t url id env s r s' :
  cache_complete s →
  Convert.getInfoAt execAsync JSON_parse fetch t url id env s = Some (r, s') →
  cache_complete s' ∧ (∀ v, r = Some v → info_complete v).
Proof.
  intros Hc. apply (advance_cache_complete t) in Hc.
  unfold Convert.getInfoAt.
  destruct (Convert.cache (Convert.advance t s) !! id) as [v|] eqn:E.
  - rewrite (getCachedVideoInfo_hit _ _ _ _ _ _ _ _ E). intros [= <- <-].
    split; [exact Hc|]. intros v' [= <-]. by eapply Hc.
  - rewrite (getCachedVideoInfo_miss _ _ _ _ _ _ _ E).
    destruct (Convert.lookupSources _ _ _ _ _ _ _) as [[[t' ls] r']|] eqn:Hl;
      [|discriminate].
    apply lookupSources_consults in Hl as (_ & _ & Hv).
    intros [= <- <-]. split; [|intros v Hr; by apply Hv].
    assert (Hres : cache_complete (Convert.resume t' ls (Convert.advance t s)))
      by (by apply (advance_cache_complete t') in Hc).
    destruct r' as [v|]; [|exact Hres].
    intros k w Hw. simpl in Hw.
    destruct (decide (id = k)) as [<-|Hne].
    + rewrite lookup_insert_eq in Hw. injection Hw as <-. by apply Hv.
    + rewrite lookup_insert_ne in Hw by done. by eapply Hres.
Qed.

(** X12. Metadata that the fetcher returns is complete: from the empty
    cache on, after any sequence of calls, every result that is not [null]
    has a title and a thumbnail that are not empty and a duration that is
    not zero, the fallbacks ("Unknown Title", the thumbnail URL built from
    the identifier, 180 seconds) standing in for what a source left out. *)
Theorem X12_returned_metadata_is_complete reqs s t url id env v s' :
  info_run execAsync JSON_parse fetch reqs Convert.initial = Some s →
  Convert.getInfoAt execAsync JSON_parse fetch t url id env s
    = Some (Some v, s') →
  info_complete v.
Proof.
  intros Hrun Hcall.
  assert (Hinit : cache_complete Convert.initial).
  { intros k w Hw. simpl in Hw. by rewrite lookup_empty in Hw. }
  assert (Hs : cache_complete s).
  { revert Hrun Hinit. generalize Convert.initial.
    induction reqs as [|q rest IH]; intros s0 Hrun H0; simpl in Hrun.
    - by injection Hrun as <-.
    - destruct (Convert.getInfoAt _ _ _ _ _ _ _ s0) as [[r1 s1]|] eqn:E;
        [|discriminate].
      apply (IH s1 Hrun). by destruct (getInfoAt_complete _ _ _ _ _ _ _ H0 E). }
  destruct (getInfoAt_complete _ _ _ _ _ _ _ Hs Hcall) as [_ H]. by apply H.
Qed.

(** X13. A call answered from the cache returns at once and consults
    nothing.  A call that misses gives the download tool up after five
    seconds and the oEmbed request after three, and consults each source
    at most once, the download tool only when it is present; but the body
    of an oEmbed answer that came in time and is [ok] is awaited outside
    the three-second race, without a limit.  So a call that never returns
    is waiting for such a body, and when these bodies are read within [D]
    ms the call returns at most 8000 + [D] ms after it arrived. *)
Theorem X13_fetcher_returns_unless_body_hangs t url id env s :
  let s0 := Convert.advance t s in
  (∀ v, Convert.cache s0 !! id = Some v →
        Convert.getInfoAt execAsync JSON_parse fetch t url id env s
          = Some (Some v, s0)) ∧
  (∀ r s',
     Convert.getInfoAt execAsync JSON_parse fetch t url id env s
       = Some (r, s') →
     ∃ ls, Convert.lookups s' = Convert.lookups s ++ ls ∧
           (length ls ≤ 2)%nat ∧
           (Convert.hasYtDlp env = false → (length ls ≤ 1)%nat)) ∧
  (Convert.getInfoAt execAsync JSON_parse fetch t url id env s = None →
   ∃ t1 t2 response,
     Promise.race [ fetch t1 (Convert.oembedUrl id);
                    Promise.reject_after t1 3000 "Timeout" ]
       = Some (t2, Promise.Fulfilled response) ∧
     t2 ≤ Convert.now s0 + 8000 ∧
     Convert.oembed_ok response = true ∧
     Convert.oembed_json response t2 = None) ∧
  (∀ D, 0 ≤ D →
     (∀ t1 t2 response,
        Promise.race [ fetch t1 (Convert.oembedUrl id);
                       Promise.reject_after t1 3000 "Timeout" ]
          = Some (t2, Promise.Fulfilled response) →
        Convert.oembed_ok response = true →
        ∃ t3 body, Convert.oembed_json response t2 = Some (t3, body) ∧
                   t3 ≤ t2 + D) →
     ∃ r s',
       Convert.getInfoAt execAsync JSON_parse fetch t url id env s
         = Some (r, s') ∧
       Convert.now s' ≤ Convert.now s0 + 8000 + D).
Proof.
  intros s0. unfold Convert.getInfoAt. fold s0.
  destruct (Convert.cache s0 !! id) as [v|] eqn:E.
  - rewrite (getCachedVideoInfo_hit _ _ _ _ _ _ _ _ E).
    split; [by intros v' [= <-]|]. split; [|split; [discriminate|]].
    + intros r s' [= <- <-]. exists []. split; [by rewrite app_nil_r|].
      split; simpl; lia.
    + intros D HD _. exists (Some v), s0. split; [done | lia].
  - rewrite (getCachedVideoInfo_miss _ _ _ _ _ _ _ E).
    split; [discriminate|]. split; [|split].
    + destruct (Convert.lookupSources _ _ _ _ _ _ _) as [[[t' ls] r']|] eqn:Hl;
        [|discriminate].
      apply lookupSources_consults in Hl as (Hls & Hno & _).
      intros r s' [= <- <-]. exists ls. split; [by destruct r'|].
      split; [destruct Hls as [->|[->| ->]]; simpl; lia|].
      intros H. rewrite (Hno H). simpl. lia.
    + intros Hnone.
      destruct (lookupSources_timing url id env (Convert.now s0))
        as [(t' & ls & r & Hl & _)|(t1 & t2 & resp & Hrace & Ht2 & Hok & Hb)].
      * rewrite Hl in Hnone. discriminate.
      * exists t1, t2, resp. split; [exact Hrace|]. split; [exact Ht2|].
        split; [exact Hok|].
        destruct (Convert.oembed_json resp t2) as [[t3 body]|]; [|done].
        destruct Hb as (ls & r & Hl). rewrite Hl in Hnone. discriminate.
    + intros D HD Hbodies.
      destruct (lookupSources_timing url id env (Convert.now s0))
        as [(t' & ls & r & Hl & Ht')|(t1 & t2 & resp & Hrace & Ht2 & Hok & Hb)].
      * rewrite Hl. eexists _, _. split; [reflexivity|].
        subst s0. destruct r; simpl in *; lia.
      * destruct (Hbodies t1 t2 resp Hrace Hok) as (t3 & body & Hjson & Ht3).
        rewrite Hjson in Hb. destruct Hb as (ls & r & Hl). rewrite Hl.
        eexists _, _. split; [reflexivity|].
        subst s0. destruct r; simpl in *; lia.
Qed.

End MetadataMore.

Lemma X12_returned_metadata_witness : info_complete rick.
Proof.
  apply (X12_returned_metadata_is_complete no_process parse_nothing
           oembed_recovering [] Convert.initial 1500
           "https://youtu.be/dQw4w9WgXcQ" "dQw4w9WgXcQ" online_env rick
           rick_stored).
  - vm_compute. reflexivity.
  - vm_compute. reflexivity.
Defined.

(** An oEmbed answer that is [ok] and whose body is never read to the end
    keeps the call waiting for ever, although the headers came in 40 ms. *)
Lemma stalled_body_keeps_call_waiting :
  Convert.getInfoAt no_process parse_nothing oembed_stalls 1500
    "https://youtu.be/dQw4w9WgXcQ" "dQw4w9WgXcQ" online_env Convert.initial
  = None.
Proof. vm_compute. reflexivity. Qed.

(** ** The cache over calls that overlap *)

Lemma advance_entries_expire t s :
  entries_expire s → entries_expire (Convert.advance t s).
Proof.
  intros He id Hsome. simpl in Hsome.
  assert (Hold : is_Some (Convert.cache s !! id)).
  { destruct (fold_evict_sub t (Convert.timers s) (Convert.cache s) id)
      as [E|E]; rewrite E in Hsome; [by destruct Hsome | done]. }
  destruct (He id Hold) as (due & Hin & Hdue).
  exists due. simpl. split; [|lia].
  apply list_elem_of_filter. split; [|exact Hin]. simpl.
  destruct (Z.lt_ge_cases t due) as [Hlt|Hge]; [done|].
  rewrite (fold_evict_gone t _ id due _ Hin Hge) in Hsome. by destruct Hsome.
Qed.

Lemma remember_entries_expire id v s :
  entries_expire s → entries_expire (Convert.remember id v s).
Proof.
  intros He k Hsome. simpl in *.
  destruct (decide (id = k)) as [<-|Hne].
  - exists (Convert.now s + Convert.cacheTTL). split; [|lia].
    apply elem_of_app. right. by apply list_elem_of_singleton.
  - rewrite lookup_insert_ne in Hsome by done.
    destruct (He k Hsome) as (due & Hin & Hdue).
    exists due. split; [|done]. apply elem_of_app. by left.
Qed.

Lemma land_entries_expire f s :
  entries_expire s → entries_expire (Convert.land f s).
Proof.
  intros He. unfold Convert.land, Convert.store.
  assert (Hres : entries_expire
                   (Convert.resume (Convert.due f) (Convert.flight_lookups f) s))
    by exact (advance_entries_expire (Convert.due f) s He).
  destruct (Convert.flight_result f);
    [by apply remember_entries_expire | exact Hres].
Qed.

Lemma settle_entries_expire t : ∀ fl s,
  entries_expire s → entries_expire (fst (Convert.settle t fl s)).
Proof.
  induction fl as [|g fl IH]; intros s He; simpl.
  - by apply advance_entries_expire.
  - destruct (Convert.due g <=? t); simpl.
    + by apply IH, land_entries_expire.
    + by apply advance_entries_expire.
Qed.

Lemma settle_all_due t : ∀ fl s,
  (∀ f, f ∈ fl → Convert.due f ≤ t) → snd (Convert.settle t fl s) = [].
Proof.
  induction fl as [|g fl IH]; intros s Hdue; simpl; [done|].
  destruct (Z.leb_spec (Convert.due g) t) as [Hle|Hgt].
  - apply IH. intros f Hf. apply Hdue. by right.
  - assert (Convert.due g ≤ t) by (apply Hdue; left). lia.
Qed.

Lemma arrive_entries_expire execAsync JSON_parse fetch t url id env srv :
  entries_expire (Convert.st srv) →
  entries_expire
    (Convert.st (snd (Convert.arrive execAsync JSON_parse fetch
                        t url id env srv))).
Proof.
  intros He. unfold Convert.arrive.
  pose proof (settle_entries_expire t (Convert.flights srv) (Convert.st srv) He)
    as Hs.
  destruct (Convert.settle t (Convert.flights srv) (Convert.st srv))
    as [s1 rest]. simpl in Hs.
  destruct (Convert.cache s1 !! id); [exact Hs|].
  destruct (Convert.lookupSources _ _ _ _ _ _ _) as [[[t' ls] r']|]; exact Hs.
Qed.

Lemma serve_entries_expire execAsync JSON_parse fetch calls : ∀ srv,
  entries_expire (Convert.st srv) →
  entries_expire (Convert.st (serve execAsync JSON_parse fetch calls srv)).
Proof.
  induction calls as [|q rest IH]; intros srv He; simpl; [exact He|].
  by apply IH, arrive_entries_expire.
Qed.

Lemma expired_entries_gone t s id :
  entries_expire s → Convert.now s + 3600000 ≤ t →
  Convert.cache (Convert.advance t s) !! id = None.
Proof.
  intros He Ht.
  destruct (Convert.cache s !! id) as [v|] eqn:Hv.
  - destruct (He id (mk_is_Some _ _ Hv)) as (due & Hin & Hdue).
    change Convert.cacheTTL with 3600000 in Hdue.
    simpl. apply (fold_evict_gone _ _ id due); [exact Hin | lia].
  - simpl. destruct (fold_evict_sub t (Convert.timers s) (Convert.cache s) id)
      as [E|E]; rewrite E; done.
Qed.

(** X14. Starting from the empty cache, over any sequence of calls,
    overlapping or not and whatever the sources answer, every cached entry
    has an eviction pending that is due at most one hour after the
    present; so nothing stays cached for ever: once the calls in flight
    have resumed, one hour later the cache is empty.  (Entries can leave
    earlier: lookups for one identifier that overlap arm one timer
    each.) *)
Theorem X14_cache_empties_after_an_hour execAsync JSON_parse fetch
    (calls : list info_request) (T : Z) :
  let srv := serve execAsync JSON_parse fetch calls
               {| Convert.st := Convert.initial; Convert.flights := [] |} in
  let landed := Convert.settle T (Convert.flights srv) (Convert.st srv) in
  entries_expire (Convert.st srv) ∧
  entries_expire (fst landed) ∧
  ((∀ f, f ∈ Convert.flights srv → Convert.due f ≤ T) →
   snd landed = [] ∧
   ∀ T' id,
     Convert.now (fst landed) + 3600000 ≤ T' →
     Convert.cache (fst (Convert.settle T' (snd landed) (fst landed))) !! id
     = None).
Proof.
  intros srv landed.
  assert (He : entries_expire (Convert.st srv)).
  { apply serve_entries_expire. intros id [v Hv]. simpl in Hv.
    by rewrite lookup_empty in Hv. }
  assert (Hl : entries_expire (fst landed))
    by (by apply settle_entries_expire).
  split; [exact He|]. split; [exact Hl|].
  intros Hdue.
  assert (Hnil : snd landed = []) by (by apply settle_all_due).
  split; [exact Hnil|].
  intros T' id HT'. rewrite Hnil. simpl.
  by apply expired_entries_gone.
Qed.

Lemma X14_cache_empties_witness :
  let srv := serve no_process parse_nothing oembed_recovering overlapping_calls
               {| Convert.st := Convert.initial; Convert.flights := [] |} in
  let landed := Convert.settle 2050 (Convert.flights srv) (Convert.st srv) in
  length (Convert.flights srv) = 2%nat ∧
  Convert.cache (fst landed) !! "dQw4w9WgXcQ" = Some rick ∧
  Convert.cache (fst (Convert.settle 3602050 (snd landed) (fst landed)))
    !! "dQw4w9WgXcQ" = None.
Proof.
  intros srv landed.
  split; [vm_compute; reflexivity|]. split; [vm_compute; reflexivity|].
  destruct (X14_cache_empties_after_an_hour no_process parse_nothing
              oembed_recovering overlapping_calls 2050) as (_ & _ & Hgone).
  apply Hgone.
  - intros f Hf. vm_compute in Hf.
    apply elem_of_cons in Hf as [->|Hf]; [vm_compute; discriminate|].
    apply elem_of_cons in Hf as [->|Hf]; [vm_compute; discriminate|].
    inversion Hf.
  - vm_compute. discriminate.
Defined.

(** * Properties of the handler [POST /convert] *)

Section PostProps.

Variable cwd : string.
Variable execAsync : Z → string → Promise.t string.
Variable JSON_parse : string → option Convert.ytInfo.
Variable fetch : Z → string → Promise.t Convert.oembedResponse.
Variable isUrl : string → bool.
Variable zodMessage : Convert.convertBody → string.
Variable execTask : string → Task.t string.
Variable fetchCobalt : string → Promise.t Convert.apiResponse.
Variable fetchAudio : Z → string → Promise.t Convert.audioResponse.
Variable floorSample : Z → Z → Z.
Variable writeError : Fs.verdict.

Lemma POST_ok_inv request_json s body s1 run :
  Convert.POST cwd execAsync JSON_parse fetch isUrl zodMessage execTask
    fetchCobalt fetchAudio floorSample writeError request_json s
    = Some (Convert.PostOk body, s1, Some run) →
  ∃ reqBody videoId url t env v,
    request_json = Promise.Fulfilled reqBody ∧
    Convert.ConvertSchema_parse isUrl zodMessage reqBody
      = Promise.Fulfilled (videoId, url) ∧
    Convert.quickEnvironmentCheck execAsync (Convert.now s)
      = Some (t, Promise.Fulfilled env) ∧
    Convert.getInfoAt execAsync JSON_parse fetch t url videoId env s
      = Some (Some v, s1) ∧
    run = Convert.fastDownloadAudio cwd execTask fetchCobalt fetchAudio
            floorSample writeError url videoId env ∧
    body = {| Convert.resp_id := videoId;
              Convert.resp_title := Convert.title v;
              Convert.resp_thumbnail := Convert.thumbnail v;
              Convert.resp_duration := Convert.duration v;
              Convert.resp_fileSize := "Calculando...";
              Convert.resp_downloadUrl := "/api/download/" +:+ videoId;
              Convert.resp_quality :=
                if Convert.hasFFmpeg env then "320kbps MP3" else "Original";
              Convert.resp_format :=
                if Convert.hasFFmpeg env then "mp3" else "m4a";
              Convert.resp_isDemo := false;
              Convert.resp_status := "processing" |}.
Proof.
  unfold Convert.POST.
  destruct request_json as [reqBody|e]; [|discriminate].
  destruct (Convert.ConvertSchema_parse isUrl zodMessage reqBody)
    as [[videoId url]|e] eqn:Hparse; [|discriminate].
  destruct (Convert.quickEnvironmentCheck execAsync (Convert.now s))
    as [[t [env|e]]|] eqn:Henv; try discriminate.
  destruct (Convert.getInfoAt _ _ _ t url videoId env s)
    as [[[v|] s1']|] eqn:Hinfo; try discriminate.
  intros [= <- <- <-]. exists reqBody, videoId, url, t, env, v. done.
Qed.

Lemma schema_accepts_inv reqBody videoId url :
  Convert.ConvertSchema_parse isUrl zodMessage reqBody
    = Promise.Fulfilled (videoId, url) →
  Convert.body_videoId reqBody = Some videoId ∧
  Convert.body_url reqBody = Some url ∧
  videoId ≠ "" ∧ isUrl url = true.
Proof.
  unfold Convert.ConvertSchema_parse.
  destruct (Convert.body_videoId reqBody) as [v|]; [|discriminate].
  destruct (Convert.body_url reqBody) as [u|]; [|discriminate].
  destruct (Nat.leb 1 (String.length v) && isUrl u) eqn:E; [|discriminate].
  intros [= <- <-]. apply andb_true_iff in E as [Hlen Hurl].
  split; [done|]. split; [done|]. split; [|done].
  intros ->. discriminate Hlen.
Qed.

(** X15. When the handler answers with success it has started the runner
    on the validated identifier and URL and does not wait for it.  The
    answer carries the status ["processing"] and the download URL
    [/api/download/{id}]; the format it announces follows the transcoder
    flag alone (["mp3"] with a transcoder, ["m4a"] without), while the
    file the runner writes follows the strategy: without the download
    tool every successful run writes an [.mp3], so with no tool at all
    the answer announces ["m4a"] and the file is an [.mp3]. *)
Theorem X15_answer_and_started_run request_json s body s1 run :
  Convert.POST cwd execAsync JSON_parse fetch isUrl zodMessage execTask
    fetchCobalt fetchAudio floorSample writeError request_json s
    = Some (Convert.PostOk body, s1, Some run) →
  Convert.resp_status body = "processing" ∧
  Convert.resp_id body ≠ "" ∧
  Convert.resp_downloadUrl body = "/api/download/" +:+ Convert.resp_id body ∧
  ∃ url t env,
    Convert.quickEnvironmentCheck execAsync (Convert.now s)
      = Some (t, Promise.Fulfilled env) ∧
    isUrl url = true ∧
    run = Convert.fastDownloadAudio cwd execTask fetchCobalt fetchAudio
            floorSample writeError url (Convert.resp_id body) env ∧
    Convert.resp_format body
      = (if Convert.hasFFmpeg env then "mp3" else "m4a") ∧
    (Convert.hasYtDlp env = false →
     ∀ fs fs' r, run fs = Some (fs', Promise.Fulfilled r) →
                 Convert.format r = "mp3") ∧
    (Convert.hasYtDlp env = false → Convert.hasFFmpeg env = false →
     Convert.resp_format body = "m4a").
Proof.
  intros Hpost.
  destruct (POST_ok_inv _ _ _ _ _ Hpost)
    as (reqBody & videoId & url & t & env & v & _ & Hparse & Henv & _ & -> & ->).
  destruct (schema_accepts_inv _ _ _ Hparse) as (_ & _ & Hid & Hurl).
  simpl. split; [done|]. split; [done|]. split; [done|].
  exists url, t, env. split; [exact Henv|]. split; [exact Hurl|].
  split; [done|]. split; [done|]. split.
  - intros Hyt fs fs' r. unfold Convert.fastDownloadAudio. rewrite Hyt. simpl.
    intros Hrun. by destruct (online_success_file _ _ _ _ _ _ _ _ _ _ Hrun)
      as (_ & -> & _).
  - by intros _ ->.
Qed.

(** X16. A request is answered without starting a download unless it
    passed validation and its metadata was found.  A body that cannot be
    read or that the schema rejects (an empty [videoId] among others) is
    answered with status 500 and the message prefixed by ["Error: "]
    before any probe or lookup is made; a body without metadata is
    answered with status 400; and a download is started exactly when the
    answer is a success. *)
Theorem X16_no_download_without_validation request_json s :
  (∀ answer s1 task,
     Convert.POST cwd execAsync JSON_parse fetch isUrl zodMessage execTask
       fetchCobalt fetchAudio floorSample writeError request_json s
       = Some (answer, s1, task) →
     (is_Some task ↔ ∃ body, answer = Convert.PostOk body))
  ∧
  (∀ e, request_json = Promise.Rejected e →
     Convert.POST cwd execAsync JSON_parse fetch isUrl zodMessage execTask
       fetchCobalt fetchAudio floorSample writeError request_json s
     = Some (Convert.PostError 500 (Convert.getErrorMessage e), s, None))
  ∧
  (∀ reqBody e,
     request_json = Promise.Fulfilled reqBody →
     Convert.ConvertSchema_parse isUrl zodMessage reqBody = Promise.Rejected e →
     Convert.POST cwd execAsync JSON_parse fetch isUrl zodMessage execTask
       fetchCobalt fetchAudio floorSample writeError request_json s
     = Some (Convert.PostError 500 (Convert.getErrorMessage e), s, None))
  ∧
  (∀ reqBody,
     Convert.body_videoId reqBody = Some "" →
     Convert.ConvertSchema_parse isUrl zodMessage reqBody
     = Promise.Rejected (zodMessage reqBody))
  ∧
  (∀ reqBody videoId url t env s1,
     request_json = Promise.Fulfilled reqBody →
     Convert.ConvertSchema_parse isUrl zodMessage reqBody
       = Promise.Fulfilled (videoId, url) →
     Convert.quickEnvironmentCheck execAsync (Convert.now s)
       = Some (t, Promise.Fulfilled env) →
     Convert.getInfoAt execAsync JSON_parse fetch t url videoId env s
       = Some (None, s1) →
     Convert.POST cwd execAsync JSON_parse fetch isUrl zodMessage execTask
       fetchCobalt fetchAudio floorSample writeError request_json s
     = Some (Convert.PostError 400 "No se pudo obtener información del video.",
             s1, None)).
Proof.
  split; [|split; [|split; [|split]]].
  - intros answer s1 task. unfold Convert.POST.
    destruct request_json as [reqBody|e].
    2:{ intros [= <- <- <-]. split; [by intros [? ?] | by intros [? ?]]. }
    destruct (Convert.ConvertSchema_parse isUrl zodMessage reqBody)
      as [[videoId url]|e].
    2:{ intros [= <- <- <-]. split; [by intros [? ?] | by intros [? ?]]. }
    destruct (Convert.quickEnvironmentCheck execAsync (Convert.now s))
      as [[t [env|e]]|]; try discriminate.
    2:{ intros [= <- <- <-]. split; [by intros [? ?] | by intros [? ?]]. }
    destruct (Convert.getInfoAt _ _ _ t url videoId env s)
      as [[[v|] s1']|]; try discriminate.
    + intros [= <- <- <-]. split; eauto.
    + intros [= <- <- <-]. split; [by intros [? ?] | by intros [? ?]].
  - intros e ->. reflexivity.
  - intros reqBody e -> Hparse. unfold Convert.POST. by rewrite Hparse.
  - intros reqBody Hid. unfold Convert.ConvertSchema_parse. rewrite Hid.
    by destruct (Convert.body_url reqBody).
  - intros reqBody videoId url t env s1 -> Hparse Henv Hinfo.
    unfold Convert.POST. by rewrite Hparse, Henv, Hinfo.
Qed.

End PostProps.

Lemma X15_answer_and_run_witness :
  ∃ body s1 run,
    Convert.POST "/app" no_tools parse_nothing oembed_up any_url zod_says
      tools_missing cobalt_down audio_up triangle temp_only
      (Promise.Fulfilled rick_body) Convert.initial
    = Some (Convert.PostOk body, s1, Some run) ∧
    Convert.resp_format body = "m4a" ∧
    ∀ fs fs' r, run fs = Some (fs', Promise.Fulfilled r) →
                Convert.format r = "mp3".
Proof.
  destruct (Convert.POST "/app" no_tools parse_nothing oembed_up any_url
              zod_says tools_missing cobalt_down audio_up triangle temp_only
              (Promise.Fulfilled rick_body) Convert.initial)
    as [[[[body|status error] s1] [run|]]|] eqn:Hpost.
  2-5: exfalso; revert Hpost; unfold Convert.POST;
       change (Convert.ConvertSchema_parse any_url zod_says rick_body)
         with (@Promise.Fulfilled (string * string)
                 ("dQw4w9WgXcQ", "https://youtu.be/dQw4w9WgXcQ"));
       cbv beta iota;
       destruct (Convert.quickEnvironmentCheck no_tools
                   (Convert.now Convert.initial)) as [[t [env|e]]|] eqn:Henv;
       [|vm_compute in Henv; discriminate Henv..];
       destruct (Convert.getInfoAt no_tools parse_nothing oembed_up t
                   "https://youtu.be/dQw4w9WgXcQ" "dQw4w9WgXcQ" env
                   Convert.initial) as [[[v|] s1']|] eqn:Hinfo;
       [discriminate| |];
       vm_compute in Henv; injection Henv as <- <-;
       vm_compute in Hinfo; discriminate Hinfo.
  exists body, s1, run. split; [reflexivity|].
  destruct (X15_answer_and_started_run _ _ _ _ _ _ _ _ _ _ _ _ _ _ _ _ Hpost)
    as (_ & _ & _ & url & t & env & Henv & _ & _ & _ & Hmp3 & Hm4a).
  vm_compute in Henv. injection Henv as _ <-.
  split; [by apply Hm4a | by apply Hmp3].
Defined.

Lemma X16_no_download_witness :
  Convert.POST "/app" no_tools parse_nothing oembed_up any_url zod_says
    tools_missing cobalt_down audio_up triangle temp_only
    (Promise.Fulfilled empty_id_body) Convert.initial
  = Some (Convert.PostError 500
            "Error: String must contain at least 1 character(s)",
          Convert.initial, None).
Proof.
  destruct (X16_no_download_without_validation "/app" no_tools parse_nothing
              oembed_up any_url zod_says tools_missing cobalt_down audio_up
              triangle temp_only (Promise.Fulfilled empty_id_body) Convert.initial)
    as (_ & _ & H & Hempty & _).
  exact (H empty_id_body (zod_says empty_id_body) eq_refl
           (Hempty empty_id_body eq_refl)).
Defined.


(** * Further properties of [YouTubeConverter] *)

Lemma append_inj_l (a x y : string) : a +:+ x = a +:+ y → x = y.
Proof.
  induction a as [|c a IH]; [done|].
  change (String c (a +:+ x) = String c (a +:+ y) → x = y).
  intros [= H]. by apply IH.
Qed.

Lemma append_ne_self (a x : string) : x ≠ "" → a +:+ x ≠ a.
Proof.
  intros Hx H. apply Hx. apply (append_inj_l a).
  by rewrite append_empty_r.
Qed.

Lemma append_nonempty (a x : string) : x ≠ "" → String.eqb (a +:+ x) "" = false.
Proof.
  intros Hx. apply String.eqb_neq. destruct a; [done|discriminate].
Qed.

(** A temporary name never is a canonical name. *)
Lemma temp_name_not_canonical dir id s t :
  Path.join dir (id +:+ "_temp") +:+ s ≠ Path.join dir (id +:+ "." +:+ t).
Proof.
  unfold Path.join. intros H.
  rewrite <- !string_append_assoc in H.
  apply append_inj_l in H. apply append_inj_l in H. apply append_inj_l in H.
  discriminate H.
Qed.

Lemma cleanup_exact paths : ∀ fs,
  ∃ fs', YouTubeConverter.cleanup paths fs = Some (fs', Promise.Fulfilled tt) ∧
         (∀ p, p ∈ paths → fs' !! p = None) ∧
         (∀ p, p ∉ paths → fs' !! p = fs !! p).
Proof.
  induction paths as [|q rest IH]; intros fs.
  - exists fs. split; [done|]. split; [intros p Hp; inversion Hp | done].
  - destruct (cleanup_spec (q :: rest) fs) as (fs' & Hrun & Hgone & _).
    exists fs'. split; [exact Hrun|]. split; [exact Hgone|].
    intros p Hp. apply not_elem_of_cons in Hp as [Hpq Hp].
    revert Hrun. simpl. unfold Task.bind, Task.pathExists.
    destruct (IH (if Fs.pathExists q fs then Fs.remove q fs else fs))
      as (fs2 & Hrest & _ & Hkeep).
    destruct (Fs.pathExists q fs); unfold Task.remove, Task.ret;
      rewrite Hrest; intros [= <-]; rewrite (Hkeep p Hp); [|done].
    unfold Fs.remove. by apply lookup_delete_ne.
Qed.

Lemma cleanup_one p fs :
  YouTubeConverter.cleanup [p] fs = Some (delete p fs, Promise.Fulfilled tt).
Proof.
  simpl. unfold Task.bind, Task.pathExists, Task.remove, Task.ret,
    Fs.pathExists, Fs.remove.
  case_bool_decide as E; [done|].
  rewrite delete_id; [done|]. by apply eq_None_not_Some.
Qed.

Lemma findInput_first inputPath pre ext post fs :
  (∀ e, e ∈ pre → fs !! (inputPath +:+ e) = None) →
  is_Some (fs !! (inputPath +:+ ext)) →
  YouTubeConverter.findInput inputPath (pre ++ ext :: post) fs
  = inputPath +:+ ext.
Proof.
  intros Hpre Hext. induction pre as [|e pre IH]; simpl.
  - unfold Fs.pathExists. by rewrite bool_decide_eq_true_2.
  - unfold Fs.pathExists at 1. rewrite (Hpre e (list_elem_of_here _ _)).
    rewrite bool_decide_eq_false_2 by (by intros [? ?]).
    apply IH. intros e' He'. apply Hpre. by right.
Qed.

Lemma findInput_none inputPath exts fs :
  (∀ e, e ∈ exts → fs !! (inputPath +:+ e) = None) →
  YouTubeConverter.findInput inputPath exts fs = "".
Proof.
  induction exts as [|e exts IH]; intros H; [done|]. simpl.
  unfold Fs.pathExists. rewrite (H e (list_elem_of_here _ _)).
  rewrite bool_decide_eq_false_2 by (by intros [? ?]).
  apply IH. intros e' He'. apply H. by right.
Qed.

(** X17. With the format mp3 and the quality 320 (the default options),
    [convertToAudio] runs the download tool alone, with audio extraction to
    mp3 at quality 0 and the output template [{tempDir}/{id}_temp.%(ext)s]:
    when the tool succeeds the method returns [{tempDir}/{id}.mp3] with the
    directory exactly as the tool left it, whatever ffmpeg would do, and no
    expansion of the template is the returned path. *)
Theorem X17_default_options_skip_transcoding tempDir youtubeDl ffmpegSave
    (url videoId : string)
    (options : YouTubeConverter.ConversionOptions) (fs fs1 : Fs.t) :
  YouTubeConverter.opt_format options = YouTubeConverter.Mp3 →
  YouTubeConverter.opt_quality options = YouTubeConverter.Q320 →
  youtubeDl url
    {| YouTubeConverter.output :=
         Path.join tempDir (videoId +:+ "_temp") +:+ ".%(ext)s";
       YouTubeConverter.dl_format :=
         "bestaudio[ext=m4a]/bestaudio[ext=mp3]/bestaudio";
       YouTubeConverter.extractAudio := true;
       YouTubeConverter.audioFormat := Some "mp3";
       YouTubeConverter.audioQuality := Some 0 |} fs
    = Some (fs1, Promise.Fulfilled tt) →
  YouTubeConverter.convertToAudio tempDir youtubeDl ffmpegSave url videoId
    options fs
    = Some (fs1, Promise.Fulfilled (Path.join tempDir (videoId +:+ ".mp3")))
  ∧ ∀ ext, Path.join tempDir (videoId +:+ "_temp") +:+ "." +:+ ext
           ≠ Path.join tempDir (videoId +:+ ".mp3").
Proof.
  intros Hf Hq Hdl. split.
  - unfold YouTubeConverter.convertToAudio, Task.try_catch, Task.bind,
      YouTubeConverter.downloadAudio.
    rewrite Hf, Hq. simpl. by rewrite Hdl.
  - intros ext. apply temp_name_not_canonical.
Qed.

(** X18. When [convertToAudio] fails, the error is the one thrown by the
    download or by the conversion, and the cleanup has removed exactly two
    paths: [{tempDir}/{id}_temp], without an extension, and the output
    path.  Every other file is as it was when the error was thrown; among
    them the partial or unconverted download [{tempDir}/{id}_temp{ext}],
    which stays in the directory. *)
Theorem X18_failed_run_keeps_download tempDir youtubeDl ffmpegSave
    (url videoId : string)
    (options : YouTubeConverter.ConversionOptions) (fs fs' : Fs.t) e :
  let tempVideoPath := Path.join tempDir (videoId +:+ "_temp") in
  let outputPath :=
    Path.join tempDir
      (videoId +:+ "." +:+
       YouTubeConverter.format_name (YouTubeConverter.opt_format options)) in
  YouTubeConverter.convertToAudio tempDir youtubeDl ffmpegSave url videoId
    options fs = Some (fs', Promise.Rejected e) →
  ∃ fs2,
    (YouTubeConverter.downloadAudio youtubeDl url tempVideoPath options fs
       = Some (fs2, Promise.Rejected e)
     ∨ ∃ fs1,
         YouTubeConverter.downloadAudio youtubeDl url tempVideoPath options fs
           = Some (fs1, Promise.Fulfilled tt) ∧
         YouTubeConverter.convertWithFFmpeg ffmpegSave tempVideoPath
           outputPath options fs1 = Some (fs2, Promise.Rejected e)) ∧
    fs' !! tempVideoPath = None ∧ fs' !! outputPath = None ∧
    (∀ p, p ≠ tempVideoPath → p ≠ outputPath → fs' !! p = fs2 !! p) ∧
    (∀ ext, ext ≠ "" →
            fs' !! (tempVideoPath +:+ ext) = fs2 !! (tempVideoPath +:+ ext)).
Proof.
  intros tempVideoPath outputPath Hrun.
  unfold YouTubeConverter.convertToAudio in Hrun.
  fold tempVideoPath outputPath in Hrun.
  apply try_catch_rejected_inv in Hrun as (fs2 & e2 & Hbody & Hcatch).
  destruct (cleanup_exact [tempVideoPath; outputPath] fs2)
    as (fs3 & Hclean & Hgone & Hkeep).
  unfold Task.bind in Hcatch. rewrite Hclean in Hcatch.
  unfold Task.throw in Hcatch. injection Hcatch as <- <-.
  exists fs2. split; [|split; [|split; [|split]]].
  - apply bind_rejected_inv in Hbody as [Hdl | (fs1 & [] & Hdl & Hrest)];
      [by left|].
    right. exists fs1. split; [exact Hdl|].
    apply bind_rejected_inv in Hrest as [Hconv | (fs4 & [] & _ & Hret)];
      [|discriminate Hret].
    destruct (negb _ || negb _); [exact Hconv | discriminate Hconv].
  - apply Hgone. apply list_elem_of_here.
  - apply Hgone. apply list_elem_of_further, list_elem_of_here.
  - intros p H1 H2. apply Hkeep. intros Hin.
    apply elem_of_cons in Hin as [Hin|Hin]; [done|].
    by apply list_elem_of_singleton in Hin.
  - intros ext Hext. apply Hkeep.
    intros Hin. apply elem_of_cons in Hin as [Hin|Hin].
    + by apply (append_ne_self tempVideoPath ext).
    + apply list_elem_of_singleton in Hin.
      by apply (temp_name_not_canonical tempDir videoId ext
                  (YouTubeConverter.format_name
                     (YouTubeConverter.opt_format options))).
Qed.

(** X19. [convertWithFFmpeg] takes as its input the first of
    [input.m4a], [input.webm], [input.mp4], [input.mp3] that exists.  When
    none exists it fails with "Input file not found" without running
    ffmpeg and without touching the directory.  When ffmpeg ends without
    an error the input file, and nothing else, is removed from what ffmpeg
    left; when ffmpeg fails, or never ends, nothing is removed. *)
Theorem X19_transcoding_input ffmpegSave (inputPath outputPath : string)
    (options : YouTubeConverter.ConversionOptions) (fs : Fs.t) :
  ((∀ ext, ext ∈ YouTubeConverter.inputExtensions →
           fs !! (inputPath +:+ ext) = None) →
   YouTubeConverter.convertWithFFmpeg ffmpegSave inputPath outputPath
     options fs = Some (fs, Promise.Rejected "Input file not found"))
  ∧
  (∀ pre ext post,
     YouTubeConverter.inputExtensions = pre ++ ext :: post →
     (∀ e, e ∈ pre → fs !! (inputPath +:+ e) = None) →
     is_Some (fs !! (inputPath +:+ ext)) →
     YouTubeConverter.convertWithFFmpeg ffmpegSave inputPath outputPath
       options fs
     = match ffmpegSave (inputPath +:+ ext) outputPath options fs with
       | Some (fs1, Promise.Fulfilled _) =>
           Some (delete (inputPath +:+ ext) fs1, Promise.Fulfilled tt)
       | Some (fs1, Promise.Rejected e) => Some (fs1, Promise.Rejected e)
       | None => None
       end).
Proof.
  split.
  - intros Hnone. unfold YouTubeConverter.convertWithFFmpeg.
    by rewrite (findInput_none _ _ _ Hnone).
  - intros pre ext post Hsplit Hpre Hext.
    unfold YouTubeConverter.convertWithFFmpeg.
    rewrite Hsplit, (findInput_first _ _ _ _ _ Hpre Hext).
    assert (Hne : ext ≠ "").
    { intros ->. assert (Hin : "" ∈ YouTubeConverter.inputExtensions)
        by (rewrite Hsplit; apply elem_of_app; right;
            apply list_elem_of_here).
      unfold YouTubeConverter.inputExtensions in Hin.
      repeat (apply elem_of_cons in Hin as [Hin|Hin]; [discriminate Hin|]).
      inversion Hin. }
    rewrite (append_nonempty _ _ Hne).
    unfold Task.bind.
    destruct (ffmpegSave (inputPath +:+ ext) outputPath options fs)
      as [[fs1 [[]|e]]|]; [|done..].
    apply cleanup_one.
Qed.

Lemma X17_default_options_witness :
  YouTubeConverter.convertToAudio "/app/temp" dl_leaves_m4a ffmpeg_writes
    "https://youtu.be/abc" "abc" YouTubeConverter.defaultOptions ∅
  = Some (<["/app/temp/abc_temp.m4a" := [0; 0; 0; 32]]> ∅,
          Promise.Fulfilled "/app/temp/abc.mp3").
Proof.
  exact (proj1 (X17_default_options_skip_transcoding "/app/temp"
                  dl_leaves_m4a ffmpeg_writes "https://youtu.be/abc" "abc"
                  YouTubeConverter.defaultOptions ∅ _
                  eq_refl eq_refl eq_refl)).
Defined.

Lemma X18_failed_run_witness :
  ∃ fs', YouTubeConverter.convertToAudio "/app/temp" dl_fails_midway
           ffmpeg_writes "https://youtu.be/abc" "abc"
           YouTubeConverter.defaultOptions ∅
         = Some (fs', Promise.Rejected "network error") ∧
         fs' !! "/app/temp/abc_temp.webm" = Some [26; 69].
Proof.
  destruct (cleanup_exact ["/app/temp/abc_temp"; "/app/temp/abc.mp3"]
              (<["/app/temp/abc_temp.webm" := [26; 69]]> ∅))
    as (fs' & Hclean & _ & _).
  assert (Hrun :
    YouTubeConverter.convertToAudio "/app/temp" dl_fails_midway
      ffmpeg_writes "https://youtu.be/abc" "abc"
      YouTubeConverter.defaultOptions ∅
    = Some (fs', Promise.Rejected "network error")).
  { unfold YouTubeConverter.convertToAudio, Task.try_catch, Task.bind,
      YouTubeConverter.downloadAudio, dl_fails_midway, Task.throw.
    simpl YouTubeConverter.is_mp3. cbv beta iota.
    change (Path.join "/app/temp" ("abc" +:+ "_temp"))
      with "/app/temp/abc_temp".
    change (Path.join "/app/temp"
              ("abc" +:+ "." +:+ YouTubeConverter.format_name
                 (YouTubeConverter.opt_format YouTubeConverter.defaultOptions)))
      with "/app/temp/abc.mp3".
    by rewrite Hclean. }
  exists fs'. split; [exact Hrun|].
  destruct (X18_failed_run_keeps_download "/app/temp" dl_fails_midway
              ffmpeg_writes "https://youtu.be/abc" "abc"
              YouTubeConverter.defaultOptions ∅ fs' "network error" Hrun)
    as (fs2 & [Hdl | (fs1 & Hdl & _)] & _ & _ & _ & Hkeep);
    [|discriminate Hdl].
  injection Hdl as <-.
  exact (Hkeep ".webm" ltac:(discriminate)).
Defined.

Lemma X19_transcoding_input_witness :
  YouTubeConverter.convertWithFFmpeg ffmpeg_writes "/app/temp/abc_temp"
    "/app/temp/abc.wav" wav_192
    (<["/app/temp/abc_temp.mp3" := [1]]>
       (<["/app/temp/abc_temp.webm" := [26; 69]]> ∅))
  = Some (delete "/app/temp/abc_temp.webm"
            (<["/app/temp/abc.wav" := [73; 68; 51]]>
               (<["/app/temp/abc_temp.mp3" := [1]]>
                  (<["/app/temp/abc_temp.webm" := [26; 69]]> ∅))),
          Promise.Fulfilled tt).
Proof.
  apply (proj2 (X19_transcoding_input ffmpeg_writes "/app/temp/abc_temp"
                  "/app/temp/abc.wav" wav_192 _) [".m4a"] ".webm"
               [".mp4"; ".mp3"] eq_refl).
  - intros e He. apply list_elem_of_singleton in He as ->. reflexivity.
  - eexists. reflexivity.
Defined.


(** * Properties of the sample route *)

Lemma toInt32_range x :
  -2147483648 ≤ SampleMp3.toInt32 x < 2147483648.
Proof. unfold SampleMp3.toInt32. Z.div_mod_to_equations. lia. Qed.

Lemma toInt32_step x c :
  SampleMp3.toInt32
    (SampleMp3.toInt32 (SampleMp3.toInt32 x * 32) - x + c)
  = SampleMp3.toInt32 (31 * x + c).
Proof. unfold SampleMp3.toInt32. Z.div_mod_to_equations. lia. Qed.

Lemma toInt32_cong x y c :
  SampleMp3.toInt32 x = SampleMp3.toInt32 y →
  SampleMp3.toInt32 (31 * x + c) = SampleMp3.toInt32 (31 * y + c).
Proof. unfold SampleMp3.toInt32. Z.div_mod_to_equations. lia. Qed.

Lemma hash_step h code :
  SampleMp3.band (SampleMp3.shl h 5 - h + code) 4294967295
  = SampleMp3.toInt32 (31 * h + code).
Proof.
  unfold SampleMp3.band, SampleMp3.shl.
  change (SampleMp3.toInt32 4294967295) with (-1).
  rewrite Z.land_m1_r, Z.shiftl_mul_pow2 by lia.
  change (2 ^ 5) with 32. apply toInt32_step.
Qed.

Lemma poly31_cong codes : ∀ x y,
  SampleMp3.toInt32 x = SampleMp3.toInt32 y →
  SampleMp3.toInt32 (poly31 codes x) = SampleMp3.toInt32 (poly31 codes y).
Proof.
  induction codes as [|c codes IH]; intros x y H; [exact H|].
  apply IH. by apply toInt32_cong.
Qed.

Lemma hashLoop_poly31 codes : ∀ h,
  -2147483648 ≤ h < 2147483648 →
  SampleMp3.hashLoop codes h = SampleMp3.toInt32 (poly31 codes h).
Proof.
  induction codes as [|c codes IH]; intros h Hh.
  - simpl. unfold SampleMp3.toInt32. Z.div_mod_to_equations. lia.
  - simpl. rewrite hash_step, IH by apply toInt32_range.
    apply poly31_cong.
    unfold SampleMp3.toInt32. Z.div_mod_to_equations. lia.
Qed.

(** X20. For an identifier given by its UTF-16 code units, the hash
    computed by the 32-bit loop of [getFrequencyFromVideoId] is the base-31
    polynomial of the code units, reduced to a signed 32-bit integer; and
    for every identifier, also when the hash is the least 32-bit integer,
    whose absolute value is outside the 32-bit range, the index
    [|hash| % 6] is inside the table: the function returns one of the six
    notes and never [undefined]. *)
Theorem X20_tone_is_one_of_six_notes (videoId : list Z) :
  Forall (λ code, 0 ≤ code < 65536) videoId →
  let hash := SampleMp3.hashLoop videoId 0 in
  hash = SampleMp3.toInt32 (poly31 videoId 0) ∧
  -2147483648 ≤ hash < 2147483648 ∧
  ∃ frequency,
    SampleMp3.getFrequencyFromVideoId videoId = Some frequency ∧
    frequency ∈ SampleMp3.frequencies ∧
    SampleMp3.frequencies !! Z.to_nat (Z.abs hash mod 6) = Some frequency.
Proof.
  intros _ hash.
  assert (Hpoly : hash = SampleMp3.toInt32 (poly31 videoId 0))
    by (apply hashLoop_poly31; lia).
  split; [exact Hpoly|]. split; [rewrite Hpoly; apply toInt32_range|].
  unfold SampleMp3.getFrequencyFromVideoId, SampleMp3.frequencyAt.
  fold hash. change (Z.of_nat (length SampleMp3.frequencies)) with 6.
  rewrite Z.rem_mod_nonneg by lia.
  assert (Hidx : (Z.to_nat (Z.abs hash mod 6) < 6)%nat).
  { pose proof (Z.mod_pos_bound (Z.abs hash) 6 ltac:(lia)). lia. }
  destruct (lookup_lt_is_Some_2 SampleMp3.frequencies _ Hidx) as [f Hf].
  exists f. split; [exact Hf|]. split; [|exact Hf].
  by apply list_elem_of_lookup_2 in Hf.
Qed.

(** The identifier made of the single character U+65E5, one code unit:
    the hash is that code unit and the note is the fourth of the table. *)
Lemma X20_tone_witness :
  SampleMp3.hashLoop [26085] 0 = 26085 ∧
  SampleMp3.getFrequencyFromVideoId [26085] = Some 784.
Proof.
  destruct (X20_tone_is_one_of_six_notes [26085]) as (Hhash & _ & f & Hf & _).
  - repeat constructor; lia.
  - split; [rewrite Hhash; reflexivity|].
    rewrite Hf. vm_compute in Hf. by injection Hf as <-.
Defined.

(** * The WAV header in general *)

(** X21. For every number of samples and every sample rate the header has
    44 bytes, each between 0 and 255, with the tags [RIFF], [WAVE],
    [fmt ] and [data] in place; it declares a 16-byte format chunk of
    uncompressed PCM, one channel, 16 bits per sample and a block of 2
    bytes.  As long as the sizes fit in 32 bits the sample rate is stored
    as it is, the byte rate is the sample rate times the block size, and
    the RIFF size is the data size plus 36. *)
Theorem X21_wav_header_fields (samples sampleRate : Z) :
  let header := Convert.createWavHeader samples sampleRate in
  length header = 44%nat ∧
  Forall (λ byte, 0 ≤ byte < 256) header ∧
  take 4 header = [82; 73; 70; 70] ∧
  take 4 (drop 8 header) = [87; 65; 86; 69] ∧
  take 4 (drop 12 header) = [102; 109; 116; 32] ∧
  take 4 (drop 36 header) = [100; 97; 116; 97] ∧
  DataView.getUint32 16 header = 16 ∧
  DataView.getUint16 20 header = 1 ∧
  DataView.getUint16 22 header = 1 ∧
  DataView.getUint16 32 header = 2 ∧
  DataView.getUint16 34 header = 16 ∧
  (0 ≤ samples → 36 + samples * 2 < 4294967296 →
   0 ≤ sampleRate → sampleRate * 2 < 4294967296 →
   DataView.getUint32 24 header = sampleRate ∧
   DataView.getUint32 28 header
     = sampleRate * DataView.getUint16 32 header ∧
   DataView.getUint32 40 header = samples * 2 ∧
   DataView.getUint32 4 header = DataView.getUint32 40 header + 36).
Proof.
  intros header. subst header.
  split; [apply header_length|]. split.
  { cbv -[Z.modulo Z.div Z.mul Z.add Z.le Z.lt].
    repeat (constructor; [apply Z.mod_pos_bound; lia|]). constructor. }
  split; [vm_compute; reflexivity|]. split; [vm_compute; reflexivity|].
  split; [vm_compute; reflexivity|]. split; [vm_compute; reflexivity|].
  split; [vm_compute; reflexivity|]. split; [vm_compute; reflexivity|].
  split; [vm_compute; reflexivity|]. split; [vm_compute; reflexivity|].
  split; [vm_compute; reflexivity|].
  intros Hs Hs' Hr Hr'.
  assert (H24 : DataView.getUint32 24 (Convert.createWavHeader samples sampleRate)
                = sampleRate mod 4294967296).
  { rewrite <- uint32_bytes. cbv -[Z.modulo Z.div Z.mul Z.add]. reflexivity. }
  assert (H28 : DataView.getUint32 28 (Convert.createWavHeader samples sampleRate)
                = (sampleRate * 2) mod 4294967296).
  { rewrite <- uint32_bytes. cbv -[Z.modulo Z.div Z.mul Z.add]. reflexivity. }
  assert (H32 : DataView.getUint16 32 (Convert.createWavHeader samples sampleRate)
                = 2) by (vm_compute; reflexivity).
  rewrite H24, H28, H32, header_field_4, header_field_40.
  rewrite !Z.mod_small by lia. lia.
Qed.

Lemma X21_wav_header_witness :
  DataView.getUint32 24 (Convert.createWavHeader 441000 44100) = 44100 ∧
  DataView.getUint32 28 (Convert.createWavHeader 441000 44100)
    = 44100 * DataView.getUint16 32 (Convert.createWavHeader 441000 44100) ∧
  DataView.getUint32 40 (Convert.createWavHeader 441000 44100) = 441000 * 2 ∧
  DataView.getUint32 4 (Convert.createWavHeader 441000 44100)
    = DataView.getUint32 40 (Convert.createWavHeader 441000 44100) + 36.
Proof.
  destruct (X21_wav_header_fields 441000 44100)
    as (_ & _ & _ & _ & _ & _ & _ & _ & _ & _ & _ & H).
  apply H; lia.
Defined.

(** * Properties of the system check *)

(** X22. [getRecommendations] never returns an empty list and never more
    than three sentences.  It returns the sentence "All dependencies are
    installed correctly!", alone, exactly when one of the two download
    tools, ffmpeg and Python are present; that sentence never stands
    beside an advice; and the flag of node plays no role. *)
Theorem X22_recommendations (c : SystemCheck.checks) :
  let all_clear := "All dependencies are installed correctly!" in
  (0 < length (SystemCheck.getRecommendations c) ≤ 3)%nat ∧
  (SystemCheck.getRecommendations c = [all_clear]
   ↔ (SystemCheck.ytDlp c || SystemCheck.youtubeDl c)
     && SystemCheck.ffmpeg c && SystemCheck.python c = true) ∧
  (all_clear ∈ SystemCheck.getRecommendations c →
   SystemCheck.getRecommendations c = [all_clear]) ∧
  (∀ b, SystemCheck.getRecommendations
          {| SystemCheck.ytDlp := SystemCheck.ytDlp c;
             SystemCheck.youtubeDl := SystemCheck.youtubeDl c;
             SystemCheck.ffmpeg := SystemCheck.ffmpeg c;
             SystemCheck.python := SystemCheck.python c;
             SystemCheck.node := b |}
        = SystemCheck.getRecommendations c).
Proof.
  destruct c as [[] [] [] [] n]; cbn;
    (split; [lia|]); (split; [split; [intros H; done || discriminate H | done]|]);
    (split; [|done]); intros H; try reflexivity; literal_member H.
Qed.

Lemma X22_recommendations_witness :
  SystemCheck.getRecommendations
    {| SystemCheck.ytDlp := false; SystemCheck.youtubeDl := true;
       SystemCheck.ffmpeg := true; SystemCheck.python := true;
       SystemCheck.node := false |}
  = ["All dependencies are installed correctly!"].
Proof.
  apply (proj2 (proj1 (proj2 (X22_recommendations
    {| SystemCheck.ytDlp := false; SystemCheck.youtubeDl := true;
       SystemCheck.ffmpeg := true; SystemCheck.python := true;
       SystemCheck.node := false |})))).
  reflexivity.
Defined.

Lemma attempt_settles {A} execAsync t command
    (k : Z → option string → Promise.t A) :
  (∀ t c, is_Some (execAsync t c)) →
  (∀ t1 out, is_Some (k t1 out)) →
  is_Some (SystemCheck.attempt execAsync t command k).
Proof.
  intros Hexec Hk. unfold SystemCheck.attempt.
  destruct (Hexec t command) as [[t1 [out|e]] ->]; apply Hk.
Qed.

Lemma attempt_later {A} execAsync t command
    (k : Z → option string → Promise.t A) t' o :
  (∀ t c t' o, execAsync t c = Some (t', o) → t ≤ t') →
  (∀ t1 out, k t1 out = Some (t', o) → t1 ≤ t') →
  SystemCheck.attempt execAsync t command k = Some (t', o) → t ≤ t'.
Proof.
  intros Hexec Hk. unfold SystemCheck.attempt.
  destruct (execAsync t command) as [[t1 [out|e]]|] eqn:H; [| |done];
    intros Hrun; apply Hk in Hrun; apply Hexec in H; lia.
Qed.

(** X23. The system check never answers with the status ["error"]: every
    failing probe is caught where it is made, so an answer, when there is
    one, has the status ["success"], its recommendations are those of its
    flags, and a version is recorded, in the order of the probes, for
    exactly the flags that are set.  The handler answers as soon as every
    process it starts ends, and not before the time of the request when
    no process ends before it starts. *)
Theorem X23_system_check_answers_success execAsync trim (t0 : Z) :
  (∀ t o,
     SystemCheck.GET execAsync trim t0 = Some (t, o) →
     ∃ a, o = Promise.Fulfilled a ∧
          SystemCheck.status a = "success" ∧
          SystemCheck.recommendations a
            = SystemCheck.getRecommendations (SystemCheck.answer_checks a) ∧
          map fst (SystemCheck.versions a)
            = List.filter (flag (SystemCheck.answer_checks a)) check_names)
  ∧
  ((∀ t c, is_Some (execAsync t c)) →
   is_Some (SystemCheck.GET execAsync trim t0))
  ∧
  ((∀ t c t' o, execAsync t c = Some (t', o) → t ≤ t') →
   ∀ t o, SystemCheck.GET execAsync trim t0 = Some (t, o) → t0 ≤ t).
Proof.
  split; [|split].
  - intros t o. unfold SystemCheck.GET, SystemCheck.attempt.
    repeat (next_probe; try discriminate);
      intros [= <- <-]; eexists; (split; [reflexivity|]);
      (split; [reflexivity|]); (split; [reflexivity|]); reflexivity.
  - intros Hexec. unfold SystemCheck.GET.
    repeat (apply attempt_settles; [exact Hexec|]; intros ? ?).
    match goal with
    | |- is_Some ((match ?o with _ => _ end) _) => destruct o
    end.
    + apply attempt_settles; [exact Hexec|]. intros ? ?. by eexists.
    + apply attempt_settles; [exact Hexec|]. intros ? ?.
      apply attempt_settles; [exact Hexec|]. intros ? ?. by eexists.
  - intros Hexec t o. unfold SystemCheck.GET.
    do 4 (apply attempt_later; [exact Hexec|]; intros ? ?).
    match goal with
    | |- (match ?o with _ => _ end) _ = _ → _ => destruct o
    end.
    + apply attempt_later; [exact Hexec|]. intros ? ? [= <- _]. lia.
    + apply attempt_later; [exact Hexec|]. intros ? ?.
      apply attempt_later; [exact Hexec|]. intros ? ? [= <- _]. lia.
Qed.

Lemma some_tools_later t c t' o : some_tools t c = Some (t', o) → t ≤ t'.
Proof. unfold some_tools. repeat case_match; intros [= <- _]; lia. Qed.

Lemma X23_system_check_witness :
  ∃ t a, SystemCheck.GET some_tools no_trim 0 = Some (t, Promise.Fulfilled a) ∧
         0 ≤ t ∧
         SystemCheck.status a = "success" ∧
         map fst (SystemCheck.versions a) = ["ffmpeg"; "python"; "node"].
Proof.
  destruct (X23_system_check_answers_success some_tools no_trim 0)
    as (Hok & _ & Hlater).
  destruct (SystemCheck.GET some_tools no_trim 0) as [[t o]|] eqn:Hrun;
    [|vm_compute in Hrun; discriminate Hrun].
  destruct (Hok t o eq_refl) as (a & -> & Hstatus & _ & Hkeys).
  exists t, a. split; [reflexivity|]. split.
  - exact (Hlater some_tools_later t _ eq_refl).
  - split; [exact Hstatus|]. rewrite Hkeys.
    vm_compute in Hrun. injection Hrun as _ <-. reflexivity.
Defined.

Lemma attempt_ext {A} execAsync execAsync' t command
    (k k' : Z → option string → Promise.t A) :
  execAsync' t command = execAsync t command →
  (∀ t1 out, k' t1 out = k t1 out) →
  SystemCheck.attempt execAsync' t command k'
  = SystemCheck.attempt execAsync t command k.
Proof.
  intros Hexec Hk. unfold SystemCheck.attempt. rewrite Hexec.
  destruct (execAsync t command) as [[t1 [out|e]]|]; [apply Hk..|done].
Qed.

(** X24. [python --version] is a fallback: when [python3 --version]
    succeeds, whenever it is started, the answer of the system check does
    not depend on what [python --version] would do, not even on whether
    it would ever return. *)
Theorem X24_python_is_a_fallback execAsync execAsync' trim (t0 : Z) :
  (∀ t command, command ≠ "python --version" →
                execAsync' t command = execAsync t command) →
  (∀ t, Promise.is_fulfilled (execAsync t "python3 --version") = true) →
  SystemCheck.GET execAsync' trim t0 = SystemCheck.GET execAsync trim t0.
Proof.
  intros Hsame Hpy. unfold SystemCheck.GET.
  do 3 (apply attempt_ext; [by apply Hsame|]; intros ? ?).
  unfold SystemCheck.attempt.
  rewrite (Hsame _ "python3 --version") by done.
  match goal with
  | |- context [execAsync ?t "python3 --version"] =>
      specialize (Hpy t);
      destruct (execAsync t "python3 --version") as [[? [?|?]]|];
      try discriminate Hpy
  end.
  by rewrite (Hsame _ "node --version").
Qed.

Lemma X24_python_fallback_witness :
  SystemCheck.GET some_tools_python2 no_trim 0
  = SystemCheck.GET some_tools no_trim 0.
Proof.
  apply X24_python_is_a_fallback.
  - intros t command Hne. unfold some_tools_python2.
    by rewrite (proj2 (String.eqb_neq _ _) Hne).
  - intros t. reflexivity.
Defined.

(** * Properties of the download card *)

Lemma alnum_not_space c :
  DownloadCard.is_alnum c = true → DownloadCard.is_space c = false.
Proof.
  unfold DownloadCard.is_alnum, DownloadCard.is_space.
  rewrite !orb_true_iff, !andb_true_iff, !Z.leb_le.
  intros H. repeat (apply orb_false_intro); try (apply Z.eqb_neq; lia);
    apply andb_false_iff; rewrite !Z.leb_gt; lia.
Qed.

Lemma alnum_is_safe c :
  DownloadCard.is_alnum c = true → c ≠ 95 ∧ c ≠ 46 ∧ c ≠ 47 ∧ c ≠ 92.
Proof.
  unfold DownloadCard.is_alnum.
  rewrite !orb_true_iff, !andb_true_iff, !Z.leb_le. lia.
Qed.

Lemma strip_kept title :
  Forall (λ c, DownloadCard.is_alnum c || DownloadCard.is_space c = true)
         (DownloadCard.strip title).
Proof.
  apply Forall_forall. intros c Hc.
  apply list_elem_of_In, filter_In in Hc. tauto.
Qed.

Lemma underscore_spec s : ∀ in_run,
  Forall (λ c, DownloadCard.is_alnum c || DownloadCard.is_space c = true) s →
  let name := DownloadCard.underscore in_run s in
  Forall (λ c, DownloadCard.is_alnum c = true ∨ c = 95) name ∧
  (in_run = true → head name ≠ Some 95) ∧
  (∀ i, name !! i = Some 95 → name !! S i ≠ Some 95).
Proof.
  induction s as [|c s IH]; intros in_run Hs.
  - simpl. split; [constructor|]. split; [done|]. intros i H. inversion H.
  - apply Forall_cons in Hs as [Hc Hs]. simpl.
    destruct (DownloadCard.is_space c) eqn:Hsp.
    + destruct (IH true Hs) as (Hall & Hhead & Hadj).
      destruct in_run.
      * split; [exact Hall|]. split; [auto|exact Hadj].
      * split; [constructor; [by right|exact Hall]|]. split; [done|].
        intros [|i] Hi; simpl.
        -- specialize (Hhead eq_refl).
           by destruct (DownloadCard.underscore true s).
        -- by apply Hadj.
    + rewrite orb_false_r in Hc.
      destruct (IH false Hs) as (Hall & _ & Hadj).
      destruct (alnum_is_safe c Hc) as (H95 & _).
      split; [constructor; [by left|exact Hall]|].
      split; [intros _ [= H]; done|].
      intros [|i] Hi; simpl; [|by apply Hadj].
      simpl in Hi. by injection Hi.
Qed.

Lemma underscore_nil s : ∀ in_run,
  DownloadCard.underscore in_run s = [] →
  in_run = true ∨ s = [].
Proof.
  induction s as [|c s IH]; intros in_run; [by right|]. simpl.
  destruct (DownloadCard.is_space c); [|done].
  destruct in_run; [by left|done].
Qed.

(** X25. The name under which the browser saves the file is the cleaned
    title, a dot and the extension, where the extension is the format of
    the answer, or [mp3] when the answer has none or an empty one.  The
    cleaned title consists of ASCII letters, digits and underscores only,
    so it contains no dot, slash or backslash, and no two underscores
    follow each other; it is empty exactly when the title has no ASCII
    letter, digit or white space, and then the name is the bare
    extension. *)
Theorem X25_download_name_is_safe (title : list Z)
    (videoInfo_format : option string) :
  let base := DownloadCard.underscore false (DownloadCard.strip title) in
  DownloadCard.downloadName title videoInfo_format
    = base ++ DownloadCard.codeUnits
                ("." +:+ Js.str_or videoInfo_format "mp3") ∧
  Forall (λ c, DownloadCard.is_alnum c = true ∨ c = 95) base ∧
  Forall (λ c, c ≠ 46 ∧ c ≠ 47 ∧ c ≠ 92) base ∧
  (∀ i, base !! i = Some 95 → base !! S i ≠ Some 95) ∧
  (base = [] ↔
   Forall (λ c, DownloadCard.is_alnum c || DownloadCard.is_space c = false)
          title).
Proof.
  intros base.
  destruct (underscore_spec (DownloadCard.strip title) false
              (strip_kept title)) as (Hall & _ & Hadj).
  split.
  { unfold DownloadCard.downloadName. fold base.
    destruct (String.eqb (Js.str_or videoInfo_format "mp3") "mp3") eqn:E;
      [|done].
    apply String.eqb_eq in E. by rewrite E. }
  split; [exact Hall|]. split.
  { eapply Forall_impl; [exact Hall|]. intros c [Hc| ->]; [|lia].
    destruct (alnum_is_safe c Hc) as (_ & H1 & H2 & H3). done. }
  split; [exact Hadj|]. split.
  - intros Hnil. apply underscore_nil in Hnil as [Hnil|Hnil]; [done|].
    apply Forall_forall. intros c Hc.
    destruct (DownloadCard.is_alnum c || DownloadCard.is_space c) eqn:E;
      [|done].
    assert (Hin : In c (DownloadCard.strip title)).
    { apply filter_In. split; [by apply list_elem_of_In|exact E]. }
    rewrite Hnil in Hin. destruct Hin.
  - intros Hnone. subst base. clear Hall Hadj.
    replace (DownloadCard.strip title) with (@nil Z); [done|].
    symmetry. unfold DownloadCard.strip.
    induction Hnone as [|c l Hc _ IH]; [done|]. simpl. rewrite Hc. exact IH.
Qed.


Lemma X13_fetcher_returns_witness :
  ∃ r s',
    Convert.getInfoAt no_process parse_nothing oembed_recovering 1500
      "https://youtu.be/dQw4w9WgXcQ" "dQw4w9WgXcQ" online_env Convert.initial
    = Some (r, s') ∧
    Convert.now s' ≤ 9500.
Proof.
  destruct (X13_fetcher_returns_unless_body_hangs no_process parse_nothing
              oembed_recovering 1500 "https://youtu.be/dQw4w9WgXcQ"
              "dQw4w9WgXcQ" online_env Convert.initial)
    as (_ & _ & _ & Hreturns).
  destruct (Hreturns 0) as (r & s' & Hrun & Hnow); [lia| |].
  - intros t1 t2 response. unfold oembed_recovering, Promise.race,
      Promise.reject_after. simpl.
    destruct (t1 <? 1000); simpl;
      destruct (t1 + 3000 <? t1 + 40); intros [= <- <-]; simpl;
      try discriminate; intros _; eexists _, _; (split; [reflexivity | lia]).
  - exists r, s'. split; [exact Hrun | exact Hnow].
Defined.

Lemma X25_download_name_witness :
  DownloadCard.downloadName (DownloadCard.codeUnits "AC/DC - Back In Black!")
    (Some "m4a")
  = DownloadCard.codeUnits "ACDC_Back_In_Black.m4a" ∧
  DownloadCard.underscore false
    (DownloadCard.strip (DownloadCard.codeUnits "AC/DC - Back In Black!")) !! 5%nat
  ≠ Some 95.
Proof.
  destruct (X25_download_name_is_safe
              (DownloadCard.codeUnits "AC/DC - Back In Black!") (Some "m4a"))
    as (Hname & _ & _ & Hadj & _).
  split.
  - rewrite Hname. vm_compute. reflexivity.
  - apply (Hadj 4%nat). vm_compute. reflexivity.
Defined.
